(** * kitchen-printer-tap: capture, store and uploader

    A shallow embedding of the Go packages [internal/job],
    [internal/capture] and [internal/upload], and the properties of
    finalization, persistence, deduplication and upload recovery.

    Conventions of the embedding.
    - Go pointers to a [Job] or a [session] are passed and returned by
      value: every method takes the receiver and returns the updated
      receiver.  Mutexes are not modelled; every method body is one step.
    - Machine integers are [Z] with the wrap-around written out
      ([wrap64], [to_uint64]).
    - [time.Time] is the number of nanoseconds since the epoch (UTC),
      [time.Duration] a 64-bit count of nanoseconds.
    - What the outside world answers during a call (clock readings, a
      fresh UUID, system-call failures, webhook responses) is an explicit
      argument.
    - Logging has no effect on the modelled state and is left out. *)

From Stdlib Require Import ZArith Lia Ascii.
From stdpp Require Import base option gmap strings list pretty.

Local Open Scope Z_scope.

(** ** Machine arithmetic, bytes and time *)

Abbreviation bytes := (list Byte.byte).

Definition wrap64 (z : Z) : Z := (z + 2 ^ 63) mod 2 ^ 64 - 2 ^ 63.
Definition to_uint64 (z : Z) : Z := z mod 2 ^ 64.
Definition in_int64 (z : Z) : Prop := - 2 ^ 63 <= z < 2 ^ 63.

(** [atomic.Int64.Add]: two's-complement addition. *)
Definition atomic_Add (v delta : Z) : Z := wrap64 (v + delta).

Definition Time := Z.
Definition Duration := Z.
Definition zeroTime : Time := 0.
Definition Second : Duration := 1000000000.

(** [t.Sub(u)]: the difference, saturated to the range of a Duration. *)
Definition time_Sub (t u : Time) : Duration :=
  Z.max (- 2 ^ 63) (Z.min (2 ^ 63 - 1) (t - u)).

(** [len(b)] as a Go int. *)
Definition len {A} (l : list A) : Z := Z.of_nat (length l).

(** ** The filesystem seen by the store and the uploader *)

Record FileSys := mkFileSys {
  files : gmap string bytes;
  dirs : gset string
}.

Definition os_ReadFile (path : string) (fs : FileSys) : option bytes :=
  files fs !! path.

(** The file [path] created or truncated and holding [data]. *)
Definition write_bytes (path : string) (data : bytes) (fs : FileSys) : FileSys :=
  mkFileSys (<[path := data]> (files fs)) (dirs fs).

(** How one [os.WriteFile] ends: it returns nil, the file could not be
    opened, or the write stopped after [written] bytes of the truncated
    file. *)
Inductive write_result :=
  | WriteDone | WriteOpenFails | WriteShort (written : nat).

(** [os.WriteFile]: the filesystem and whether the error is nil. *)
Definition os_WriteFile (r : write_result) (path : string) (data : bytes)
    (fs : FileSys) : FileSys * bool :=
  match r with
  | WriteDone => (write_bytes path data fs, true)
  | WriteOpenFails => (fs, false)
  | WriteShort k => (write_bytes path (take k data) fs, false)
  end.

(** [os.Remove] of a regular file: the filesystem and whether the error
    is nil.  [refused] is whether the system refuses the unlink, in which
    case the file stays; removing a missing file is an error too and
    changes nothing. *)
Definition os_Remove (refused : bool) (path : string) (fs : FileSys)
    : FileSys * bool :=
  if refused then (fs, false)
  else (mkFileSys (delete path (files fs)) (dirs fs),
        bool_decide (is_Some (files fs !! path))).

Definition os_Rename (old new : string) (fs : FileSys) : FileSys :=
  match files fs !! old with
  | Some d => mkFileSys (<[new := d]> (delete old (files fs))) (dirs fs)
  | None => fs
  end.

(** [filepath.Join] on non-empty, already clean elements. *)
Fixpoint filepath_Join (elems : list string) : string :=
  match elems with
  | [] => ""
  | [e] => e
  | e :: rest => e +:+ "/" +:+ filepath_Join rest
  end.

(** The directories [os.MkdirAll (Join (base :: comps))] creates below
    [base], outermost first. *)
Fixpoint mkdir_chain (base : string) (comps : list string) : list string :=
  match comps with
  | [] => []
  | c :: rest =>
      let d := filepath_Join [base; c] in d :: mkdir_chain d rest
  end.

(** [os.MkdirAll]: [fail_after = None] is success; [Some k] is a failure
    after the first [k] directories of the chain were made. *)
Definition os_MkdirAll (fail_after : option nat) (base : string)
    (comps : list string) (fs : FileSys) : FileSys * bool :=
  let chain := base :: mkdir_chain base comps in
  match fail_after with
  | None => (mkFileSys (files fs) (dirs fs ∪ list_to_set chain), true)
  | Some k => (mkFileSys (files fs) (dirs fs ∪ list_to_set (take k chain)), false)
  end.

(** ** Package job: job.go *)

Module job.

Record Metadata := mkMetadata {
  JobID : string;
  DeviceID : string;
  SiteID : string;
  PrinterIP : string;
  PrinterPort : Z;
  SrcIP : string;
  CaptureStartTS : Time;
  CaptureEndTS : Time;
  ByteLen : Z;
  SHA256 : string;
  Transport : string;
  Tags : list string;
  ReprintOfJobID : string
}.

Record Job := mkJob {
  Meta : Metadata;
  Data : bytes;
  closed : bool
}.

(** Library functions the package calls: [hex.EncodeToString] of
    [sha256.Sum256], [time.Time.Format] with a layout, and
    [json.MarshalIndent] of a [Metadata], which can return an error. *)
Class Libs := {
  sha256_hex : bytes → string;
  time_Format : Time → string → string;
  json_MarshalIndent : Metadata → option bytes
}.

Definition set_sealed (m : Metadata) (end_ts : Time) (n : Z) (h : string)
    : Metadata :=
  mkMetadata (JobID m) (DeviceID m) (SiteID m) (PrinterIP m) (PrinterPort m)
    (SrcIP m) (CaptureStartTS m) end_ts n h (Transport m) (Tags m)
    (ReprintOfJobID m).

Definition set_Tags (m : Metadata) (tags : list string) : Metadata :=
  mkMetadata (JobID m) (DeviceID m) (SiteID m) (PrinterIP m) (PrinterPort m)
    (SrcIP m) (CaptureStartTS m) (CaptureEndTS m) (ByteLen m) (SHA256 m)
    (Transport m) tags (ReprintOfJobID m).

Definition set_ReprintOfJobID (m : Metadata) (id : string) : Metadata :=
  mkMetadata (JobID m) (DeviceID m) (SiteID m) (PrinterIP m) (PrinterPort m)
    (SrcIP m) (CaptureStartTS m) (CaptureEndTS m) (ByteLen m) (SHA256 m)
    (Transport m) (Tags m) id.

(** [New]: [uuid] is [uuid.New().String()], [now] is [time.Now().UTC()]. *)
Definition New (uuid : string) (now : Time)
    (deviceID siteID printerIP : string) (printerPort : Z)
    (srcIP transport : string) : Job :=
  mkJob (mkMetadata uuid deviceID siteID printerIP printerPort srcIP now
           zeroTime 0 "" transport [] "")
        [] false.

Definition Append (j : Job) (data : bytes) : Job * bool :=
  if closed j then (j, false)
  else (mkJob (Meta j) (Data j ++ data) false, true).

Definition Close `{Libs} (now : Time) (j : Job) : Job :=
  if closed j then j
  else mkJob (set_sealed (Meta j) now (len (Data j)) (sha256_hex (Data j)))
             (Data j) true.

Definition IsClosed (j : Job) : bool := closed j.

Definition GetHash (j : Job) : string := SHA256 (Meta j).

Definition AddTag (j : Job) (tag : string) : Job :=
  mkJob (set_Tags (Meta j) (Tags (Meta j) ++ [tag])) (Data j) (closed j).

(** The loop of [SetReprintOf]: is some tag equal to ["reprint"]? *)
Fixpoint has_reprint_tag (tags : list string) : bool :=
  match tags with
  | [] => false
  | tag :: rest => if String.eqb tag "reprint" then true
                   else has_reprint_tag rest
  end.

Definition SetReprintOf (j : Job) (jobID : string) : Job :=
  let m := set_ReprintOfJobID (Meta j) jobID in
  if has_reprint_tag (Tags m) then mkJob m (Data j) (closed j)
  else mkJob (set_Tags m (Tags m ++ ["reprint"])) (Data j) (closed j).

(** *** Store *)

Record Store := mkStore {
  basePath : string;
  minFreeMB : Z
}.

(** The first failing step of one [writeFileAtomic] call, if any. *)
Inductive wfault :=
  | WNone | WOpen | WWrite (written : nat) | WSync | WClose | WRename.

(** What the operating system answers during one [Save]: the result of
    [syscall.Statfs] ([Bavail], [Bsize]) or its failure, the outcome of
    [os.MkdirAll], the faults of the two atomic writes, and for each path
    whether an [os.Remove] of it is refused. *)
Record SysEnv := mkSysEnv {
  statfs : option (Z * Z);
  mkdir_fail : option nat;
  bin_fault : wfault;
  json_fault : wfault;
  remove_refused : string → bool
}.

Inductive SaveError :=
  | ErrUnclosed
  | ErrDiskSpace (min_mb : Z)
  | ErrMkdir
  | ErrWriteBinary
  | ErrMarshal
  | ErrWriteMetadata.

Definition NewStore (fail_after : option nat) (basePath : string)
    (minFreeMB : Z) (fs : FileSys) : FileSys * option Store :=
  match os_MkdirAll fail_after basePath [] fs with
  | (fs', true) => (fs', Some (mkStore basePath minFreeMB))
  | (fs', false) => (fs', None)
  end.

(** [availMB] as [hasEnoughSpace] computes it, in uint64 arithmetic:
    [Bavail] is a uint64, [Bsize] an int64 converted to uint64. *)
Definition availMB (bavail bsize : Z) : Z :=
  to_uint64 (bavail * to_uint64 bsize) / (1024 * 1024).

Definition hasEnoughSpace (s : Store) (env : SysEnv) : bool :=
  match statfs env with
  | None => true
  | Some (bavail, bsize) =>
      bool_decide (availMB bavail bsize >= to_uint64 (minFreeMB s))
  end.

(** [writeFileAtomic]: returns the filesystem and whether it succeeded.
    [O_CREATE|O_TRUNC] leaves an empty temporary file; a failed [Write]
    leaves a prefix of the data in it.  On every failure after the open
    the temporary file is removed with [os.Remove], whose result is
    discarded: [unlink_refused] is whether that removal is refused. *)
Definition writeFileAtomic (flt : wfault) (unlink_refused : bool)
    (tmpPath finalPath : string) (data : bytes) (fs : FileSys)
    : FileSys * bool :=
  match flt with
  | WOpen => (fs, false)
  | _ =>
    let fs1 := write_bytes tmpPath [] fs in
    match flt with
    | WWrite k =>
        ((os_Remove unlink_refused tmpPath
            (write_bytes tmpPath (take k data) fs1)).1, false)
    | _ =>
      let fs2 := write_bytes tmpPath data fs1 in
      match flt with
      | WSync | WClose | WRename =>
          ((os_Remove unlink_refused tmpPath fs2).1, false)
      | _ => (os_Rename tmpPath finalPath fs2, true)
      end
    end
  end.

Definition jobDir `{Libs} (s : Store) (ts : Time) : list string :=
  [time_Format ts "2006"; time_Format ts "01"; time_Format ts "02"].

Definition GetJobPath `{Libs} (s : Store) (jobID : string) (ts : Time) : string :=
  filepath_Join [filepath_Join (basePath s :: jobDir s ts); jobID].

(** [Save].  The source discards the result of [os.Remove(binPath)] on
    the two metadata failure paths. *)
Definition Save `{Libs} (s : Store) (env : SysEnv) (job : Job) (fs : FileSys)
    : FileSys * option SaveError :=
  if negb (IsClosed job) then (fs, Some ErrUnclosed)
  else if negb (hasEnoughSpace s env) then (fs, Some (ErrDiskSpace (minFreeMB s)))
  else
    let ts := CaptureStartTS (Meta job) in
    match os_MkdirAll (mkdir_fail env) (basePath s) (jobDir s ts) fs with
    | (fs1, false) => (fs1, Some ErrMkdir)
    | (fs1, true) =>
      let baseName := GetJobPath s (JobID (Meta job)) ts in
      let binPath := baseName +:+ ".bin" in
      let jsonPath := baseName +:+ ".json" in
      let tmpBinPath := binPath +:+ ".tmp" in
      let tmpJSONPath := jsonPath +:+ ".tmp" in
      match writeFileAtomic (bin_fault env) (remove_refused env tmpBinPath)
              tmpBinPath binPath (Data job) fs1 with
      | (fs2, false) => (fs2, Some ErrWriteBinary)
      | (fs2, true) =>
        match json_MarshalIndent (Meta job) with
        | None =>
            ((os_Remove (remove_refused env binPath) binPath fs2).1,
             Some ErrMarshal)
        | Some metaBytes =>
          match writeFileAtomic (json_fault env) (remove_refused env tmpJSONPath)
                  tmpJSONPath jsonPath metaBytes fs2 with
          | (fs3, false) =>
              ((os_Remove (remove_refused env binPath) binPath fs3).1,
               Some ErrWriteMetadata)
          | (fs3, true) => (fs3, None)
          end
        end
      end
    end.

(** ** Package job: reprint.go *)

Record hashEntry := mkHashEntry {
  jobID : string;
  printerIP : string;
  timestamp : Time
}.

Record ReprintDetector := mkReprintDetector {
  window : Duration;
  hashes : gmap string (list hashEntry);
  cleanTTL : Duration
}.

Definition NewReprintDetector (windowSeconds : Z) : ReprintDetector :=
  mkReprintDetector (wrap64 (wrap64 windowSeconds * Second)) ∅
    (wrap64 (wrap64 (wrap64 (windowSeconds * 2)) * Second)).

(** The loop of [Check] over the entries of one bucket. *)
Fixpoint first_match (now : Time) (w : Duration) (ip : string)
    (entries : list hashEntry) : string :=
  match entries with
  | [] => ""
  | e :: rest =>
      if String.eqb (printerIP e) ip && (time_Sub now (timestamp e) <=? w)
      then jobID e
      else first_match now w ip rest
  end.

Definition Check (now : Time) (rd : ReprintDetector) (hash ip : string) : string :=
  match hashes rd !! hash with
  | None => ""
  | Some entries => first_match now (window rd) ip entries
  end.

(** [Record]; a missing bucket reads as the nil slice. *)
Definition Record_ (now : Time) (rd : ReprintDetector)
    (hash ip id : string) : ReprintDetector :=
  let entry := mkHashEntry id ip now in
  mkReprintDetector (window rd)
    (<[hash := default [] (hashes rd !! hash) ++ [entry]]> (hashes rd))
    (cleanTTL rd).

(** One pass of [cleanup], the body of the background sweep. *)
Definition cleanup (now : Time) (rd : ReprintDetector) : ReprintDetector :=
  let keep (entries : list hashEntry) : option (list hashEntry) :=
    match filter (λ e, time_Sub now (timestamp e) <= cleanTTL rd) entries with
    | [] => None
    | valid => Some valid
    end in
  mkReprintDetector (window rd) (omap keep (hashes rd)) (cleanTTL rd).

End job.

(** ** Package config: the fields the capture and upload code read *)

Module config.

Record CaptureConfig := mkCaptureConfig {
  Port9100Enabled : bool;
  Port515Enabled : bool;
  IdleTimeout : Duration
}.

Record Config := mkConfig {
  DeviceID : string;
  SiteID : string;
  Capture : CaptureConfig
}.

Record UploadConfig := mkUploadConfig {
  Enabled : bool;
  WebhookURL : string;
  AuthToken : string;
  MaxRetries : Z;
  RetryBackoff : Duration
}.

Record StorageConfig := mkStorageConfig {
  BasePath : string;
  MinFreeMB : Z;
  RetentionDays : Z;
  ReprintWindowSec : Z
}.

(** The whole [Config] struct as [Validate] reads it: [Core] holds the
    fields the capturer uses ([DeviceID], [SiteID], [Capture]), the other
    fields follow.  [Health] and [Metrics] are not read by any function
    modelled here. *)
Record Settings := mkSettings {
  Core : Config;
  Interface : string;
  Storage : StorageConfig;
  Upload : UploadConfig
}.

Definition Millisecond : Duration := 1000000.

(** [Validate]: [None] is nil, [Some msg] the error message. *)
Definition Validate (c : Settings) : option string :=
  if String.eqb (DeviceID (Core c)) "" then Some "device_id is required"
  else if String.eqb (SiteID (Core c)) "" then Some "site_id is required"
  else if String.eqb (Interface c) "" then Some "interface is required"
  else if negb (Port9100Enabled (Capture (Core c)))
          && negb (Port515Enabled (Capture (Core c)))
  then Some "at least one capture port must be enabled"
  else if IdleTimeout (Capture (Core c)) <? 100 * Millisecond
  then Some "idle_timeout must be at least 100ms"
  else if String.eqb (BasePath (Storage c)) ""
  then Some "storage base_path is required"
  else if Enabled (Upload c) && String.eqb (WebhookURL (Upload c)) ""
  then Some "webhook_url is required when upload is enabled"
  else None.

End config.

(** ** Package capture: capture.go *)

Module capture.

Record Stats := mkStats {
  JobsCaptured : Z;
  BytesCaptured : Z;
  ParseErrors : Z
}.

Record session := mkSession {
  job : job.Job;
  lastSeen : Time;
  srcIP : string;
  dstIP : string;
  srcPort : Z;
  dstPort : Z;
  transport : string;
  seqTracker : gmap Z bool;
  nextSeq : Z;
  initialized : bool
}.

Record Capturer := mkCapturer {
  cfg : config.Config;
  store : job.Store;
  reprint : option job.ReprintDetector;
  stats : Stats;
  sessions : gmap string session
}.

(** A decoded packet as gopacket exposes it. *)
Inductive NetworkLayer :=
  | IPv4 (SrcIP DstIP : string)
  | IPv6 (SrcIP DstIP : string)
  | OtherNetwork.

Record TCP := mkTCP {
  SrcPort : Z;
  DstPort : Z;
  SYN : bool;
  FIN : bool;
  RST : bool;
  Seq : Z
}.

Record Packet := mkPacket {
  networkLayer : option NetworkLayer;
  tcpLayer : option TCP;
  applicationLayer : option bytes
}.

(** What the outside world answers while one packet or one finalization
    is handled: the clock readings in [job.New], for [lastSeen], in
    [Close], [Check] and [Record], the fresh UUID, and the system calls of
    [Save]. *)
Record Env := mkEnv {
  new_uuid : string;
  now_new : Time;
  now_seen : Time;
  now_close : Time;
  now_check : Time;
  now_record : Time;
  sys : job.SysEnv
}.

Definition set_job (s : session) (j : job.Job) : session :=
  mkSession j (lastSeen s) (srcIP s) (dstIP s) (srcPort s) (dstPort s)
    (transport s) (seqTracker s) (nextSeq s) (initialized s).

Definition set_lastSeen (s : session) (t : Time) : session :=
  mkSession (job s) t (srcIP s) (dstIP s) (srcPort s) (dstPort s)
    (transport s) (seqTracker s) (nextSeq s) (initialized s).

Definition latch_nextSeq (s : session) (seq : Z) : session :=
  mkSession (job s) (lastSeen s) (srcIP s) (dstIP s) (srcPort s) (dstPort s)
    (transport s) (seqTracker s) seq true.

Definition set_seqTracker (s : session) (m : gmap Z bool) : session :=
  mkSession (job s) (lastSeen s) (srcIP s) (dstIP s) (srcPort s) (dstPort s)
    (transport s) m (nextSeq s) (initialized s).

Definition set_sessions (c : Capturer) (m : gmap string session) : Capturer :=
  mkCapturer (cfg c) (store c) (reprint c) (stats c) m.

Definition set_stats (c : Capturer) (st : Stats) : Capturer :=
  mkCapturer (cfg c) (store c) (reprint c) st (sessions c).

Definition set_reprint (c : Capturer) (rd : option job.ReprintDetector)
    : Capturer :=
  mkCapturer (cfg c) (store c) rd (stats c) (sessions c).

Definition New (cfg : config.Config) (store : job.Store)
    (reprint : option job.ReprintDetector) (stats : Stats) : Capturer :=
  mkCapturer cfg store reprint stats ∅.

Definition isPrinterPort (c : Capturer) (port : Z) : bool :=
  if (port =? 9100) && config.Port9100Enabled (config.Capture (cfg c)) then true
  else if (port =? 515) && config.Port515Enabled (config.Capture (cfg c)) then true
  else false.

Definition getTransport (port : Z) : string :=
  if port =? 9100 then "tcp9100"
  else if port =? 515 then "lpd"
  else "unknown".

(** [fmt.Sprintf("%s:%d->%s:%d", a, p, b, q)] *)
Definition sessionKeyOf (a : string) (p : Z) (b : string) (q : Z) : string :=
  a +:+ ":" +:+ pretty p +:+ "->" +:+ b +:+ ":" +:+ pretty q.

(** [finalizeSession] returns the capturer, the session whose job it
    sealed (the caller holds the same pointer and drops it from the table
    next), and the filesystem. *)
Definition finalizeSession `{job.Libs} (env : Env) (c : Capturer)
    (sess : session) (fs : FileSys) : Capturer * session * FileSys :=
  let j1 := job.Close (now_close env) (job sess) in
  if job.ByteLen (job.Meta j1) =? 0 then (c, set_job sess j1, fs)
  else
    let '(j2, rd') :=
      match reprint c with
      | None => (j1, None)
      | Some rd =>
          let originalID := job.Check (now_check env) rd (job.GetHash j1) (dstIP sess) in
          let j2 := if String.eqb originalID "" then j1
                    else job.SetReprintOf j1 originalID in
          (j2, Some (job.Record_ (now_record env) rd (job.GetHash j2)
                       (dstIP sess) (job.JobID (job.Meta j2))))
      end in
    let c1 := set_reprint c rd' in
    match job.Save (store c1) (sys env) j2 fs with
    | (fs', Some _) =>
        (set_stats c1 (mkStats (JobsCaptured (stats c1)) (BytesCaptured (stats c1))
                         (atomic_Add (ParseErrors (stats c1)) 1)),
         set_job sess j2, fs')
    | (fs', None) =>
        (set_stats c1 (mkStats (atomic_Add (JobsCaptured (stats c1)) 1)
                         (BytesCaptured (stats c1)) (ParseErrors (stats c1))),
         set_job sess j2, fs')
    end.

(** The tail of [handlePacket] once an existing session was found and the
    packet is neither FIN nor RST. *)
Definition capturePayload (env : Env) (c : Capturer) (sessionKey : string)
    (sess : session) (tcp : TCP) (app : option bytes) : Capturer :=
  let sess1 := set_lastSeen sess (now_seen env) in
  match app with
  | None | Some [] => set_sessions c (<[sessionKey := sess1]> (sessions c))
  | Some payload =>
      let seq := Seq tcp in
      let sess2 := if initialized sess1 then sess1 else latch_nextSeq sess1 seq in
      if default false (seqTracker sess2 !! seq)
      then set_sessions c (<[sessionKey := sess2]> (sessions c))
      else
        let sess3 := set_seqTracker sess2 (<[seq := true]> (seqTracker sess2)) in
        match job.Append (job sess3) payload with
        | (j, true) =>
            let c1 := set_sessions c (<[sessionKey := set_job sess3 j]> (sessions c)) in
            set_stats c1 (mkStats (JobsCaptured (stats c1))
                            (atomic_Add (BytesCaptured (stats c1)) (len payload))
                            (ParseErrors (stats c1)))
        | (j, false) =>
            set_sessions c (<[sessionKey := set_job sess3 j]> (sessions c))
        end
  end.

Definition handlePacket `{job.Libs} (env : Env) (c : Capturer)
    (packet : Packet) (fs : FileSys) : Capturer * FileSys :=
  match networkLayer packet with
  | None | Some OtherNetwork => (c, fs)
  | Some (IPv4 srcIP dstIP) | Some (IPv6 srcIP dstIP) =>
    match tcpLayer packet with
    | None => (c, fs)
    | Some tcp =>
      let srcPort := SrcPort tcp in
      let dstPort := DstPort tcp in
      let classified :=
        if isPrinterPort c dstPort
        then Some (dstIP, dstPort, srcIP, getTransport dstPort, true)
        else if isPrinterPort c srcPort
        then Some (srcIP, srcPort, dstIP, getTransport srcPort, false)
        else None in
      match classified with
      | None => (c, fs)
      | Some (printerIP, printerPort, posIP, transport, isTowardsPrinter) =>
        let sessionKey :=
          if isTowardsPrinter
          then sessionKeyOf posIP srcPort printerIP printerPort
          else sessionKeyOf posIP dstPort printerIP printerPort in
        if FIN tcp || RST tcp then
          match sessions c !! sessionKey with
          | Some sess =>
              let '(c1, _, fs1) := finalizeSession env c sess fs in
              (set_sessions c1 (delete sessionKey (sessions c1)), fs1)
          | None => (c, fs)
          end
        else if negb isTowardsPrinter then (c, fs)
        else
          match sessions c !! sessionKey with
          | None =>
              if SYN tcp then
                let sess :=
                  mkSession
                    (job.New (new_uuid env) (now_new env)
                       (config.DeviceID (cfg c)) (config.SiteID (cfg c))
                       printerIP printerPort posIP transport)
                    (now_seen env) posIP printerIP srcPort printerPort
                    transport ∅ 0 false in
                (set_sessions c (<[sessionKey := sess]> (sessions c)), fs)
              else (c, fs)
          | Some sess =>
              (capturePayload env c sessionKey sess tcp (applicationLayer packet), fs)
          end
      end
    end
  end.

(** [buildBPFFilter]; [None] is the run-time panic of [ports[0]] on the
    empty slice. *)
Definition buildBPFFilter (c : Capturer) : option string :=
  let ports :=
    (if config.Port9100Enabled (config.Capture (cfg c))
     then ["(tcp port 9100)"] else [])
    ++ (if config.Port515Enabled (config.Capture (cfg c))
        then ["(tcp port 515)"] else []) in
  if len ports =? 1 then ports !! 0%nat
  else
    match ports !! 0%nat, ports !! 1%nat with
    | Some p0, Some p1 => Some (p0 +:+ " or " +:+ p1)
    | _, _ => None
    end.

(** [for key, sess := range c.sessions]: [order] is the order in which
    the runtime yields the keys, [env_of key] what the outside answers
    while that session is finalized.  An entry is deleted only when it is
    the current one, so a key is met with the session it had at the
    start. *)
Fixpoint range_sessions `{job.Libs} (cond : session → bool)
    (env_of : string → Env) (order : list string) (c : Capturer)
    (fs : FileSys) : Capturer * FileSys :=
  match order with
  | [] => (c, fs)
  | key :: rest =>
      match sessions c !! key with
      | None => range_sessions cond env_of rest c fs
      | Some sess =>
          if cond sess then
            let '(c1, _, fs1) := finalizeSession (env_of key) c sess fs in
            range_sessions cond env_of rest
              (set_sessions c1 (delete key (sessions c1))) fs1
          else range_sessions cond env_of rest c fs
      end
  end.

(** [checkTimeouts]; [now] is its one reading of the clock. *)
Definition checkTimeouts `{job.Libs} (now : Time) (env_of : string → Env)
    (order : list string) (c : Capturer) (fs : FileSys) : Capturer * FileSys :=
  range_sessions
    (λ sess, time_Sub now (lastSeen sess)
             >=? config.IdleTimeout (config.Capture (cfg c)))
    env_of order c fs.

(** [Stop], once the two goroutines have returned: the remaining
    sessions are finalized and dropped. *)
Definition Stop `{job.Libs} (env_of : string → Env) (order : list string)
    (c : Capturer) (fs : FileSys) : Capturer * FileSys :=
  range_sessions (λ _, true) env_of order c fs.

Definition GetActiveSessions (c : Capturer) : Z :=
  Z.of_nat (size (sessions c)).

Inductive FindError := InterfacesFailed | NoSuitableInterface.

(** The three loops of [FindInterface] over the interface names. *)
Fixpoint find_named (name : string) (ifaces : list string) : option string :=
  match ifaces with
  | [] => None
  | n :: rest => if String.eqb n name then Some name else find_named name rest
  end.

Fixpoint find_bridge (ifaces : list string) : option string :=
  match ifaces with
  | [] => None
  | n :: rest =>
      if (2 <=? String.length n)%nat && String.eqb (String.substring 0 2 n) "br"
      then Some n else find_bridge rest
  end.

(** [FindInterface]; the argument is the result of [net.Interfaces()],
    [None] when it fails. *)
Definition FindInterface (ifaces : option (list string))
    : string + FindError :=
  match ifaces with
  | None => inr InterfacesFailed
  | Some ifaces =>
      match find_named "br0" ifaces with
      | Some n => inl n
      | None =>
          match find_bridge ifaces with
          | Some n => inl n
          | None =>
              match find_named "eth0" ifaces with
              | Some n => inl n
              | None => inr NoSuitableInterface
              end
          end
      end
  end.

End capture.

(** ** Package upload *)

Module upload.

Record UploadStatus := mkUploadStatus {
  JobID : string;
  Status : string;
  Attempts : Z;
  LastAttempt : Time;
  LastError : string;
  UploadedAt : Time
}.

(** The JSON codec of [encoding/json] at the two types the uploader
    reads and writes.  [json_MarshalIndent_status] is the slice
    [json.MarshalIndent] returns, nil when it fails: [saveStatus]
    discards the error and writes the slice. *)
Class Codec := {
  json_Unmarshal_status : bytes → option UploadStatus;
  json_MarshalIndent_status : UploadStatus → bytes;
  json_Unmarshal_meta : bytes → option job.Metadata
}.

Record Uploader := mkUploader {
  cfg : config.UploadConfig;
  basePath : string;
  queue : list string;
  queueSize : Z
}.

(** One HTTP request as [upload] builds it. *)
Record Request := mkRequest {
  url : string;
  authorization : option string;
  metadata : job.Metadata;
  payloadName : string;
  payload : bytes
}.

(** How one call of [upload] ends outside the process. *)
Inductive Response :=
  | CreateRequestFails (msg : string)
  | SendFails (msg : string)
  | Answer (statusCode : Z) (body : string).

(** The uploader's world: the filesystem and the requests sent so far. *)
Record World := mkWorld {
  fs : FileSys;
  sent : list Request
}.

(** What the outside answers during one [processJob]: the webhook's
    response to each attempt, the clock, whether [done] is closed before
    the back-off timer after an attempt fires, how the [os.WriteFile] of
    the sidecar ends in each attempt, and how the one that marks the job
    failed ends. *)
Record Env := mkEnv {
  respond : Z → Response;
  now_attempt : Z → Time;
  now_uploaded : Time;
  done_in_backoff : Z → bool;
  status_write : Z → write_result;
  failed_write : write_result
}.

Definition set_fs (w : World) (f : FileSys) : World := mkWorld f (sent w).

Definition queueCap : Z := 1000.

Definition New (cfg : config.UploadConfig) (basePath : string) : Uploader :=
  mkUploader cfg basePath [] 0.

Definition Enqueue (u : Uploader) (jobPath : string) : Uploader :=
  if negb (config.Enabled (cfg u)) then u
  else if len (queue u) <? queueCap
  then mkUploader (cfg u) (basePath u) (queue u ++ [jobPath])
         (atomic_Add (queueSize u) 1)
  else u.

Definition QueueSize (u : Uploader) : Z := queueSize u.

Definition HasSuffix (s suffix : string) : bool :=
  let n := String.length s in
  let m := String.length suffix in
  (m <=? n)%nat && String.eqb (String.substring (n - m) m s) suffix.

Definition TrimSuffix (s suffix : string) : string :=
  if HasSuffix s suffix
  then String.substring 0 (String.length s - String.length suffix) s
  else s.

(** [filepath.Base] of a clean path that does not end in a separator. *)
Fixpoint Base_from (s acc : string) : string :=
  match s with
  | EmptyString => acc
  | String c rest =>
      if Ascii.eqb c "/"%char then Base_from rest ""
      else Base_from rest (acc +:+ String c "")
  end.

Definition Base (path : string) : string := Base_from path "".

Definition loadOrCreateStatus `{Codec} (w : World) (path jobID : string)
    : UploadStatus :=
  match os_ReadFile path (fs w) with
  | Some data =>
      match json_Unmarshal_status data with
      | Some status => status
      | None => mkUploadStatus jobID "pending" 0 zeroTime "" zeroTime
      end
  | None => mkUploadStatus jobID "pending" 0 zeroTime "" zeroTime
  end.

(** [saveStatus]: the result of [os.WriteFile] is discarded; [r] is how
    that call ends. *)
Definition saveStatus `{Codec} (r : write_result) (path : string)
    (status : UploadStatus) (w : World) : World :=
  set_fs w (os_WriteFile r path (json_MarshalIndent_status status) (fs w)).1.

(** [upload]: the request is recorded when it is handed to the client. *)
Definition upload (u : Uploader) (r : Response) (meta : job.Metadata)
    (binData : bytes) (w : World) : World * option string :=
  let req := mkRequest (config.WebhookURL (cfg u))
               (if String.eqb (config.AuthToken (cfg u)) "" then None
                else Some ("Bearer " +:+ config.AuthToken (cfg u)))
               meta (job.JobID meta +:+ ".bin") binData in
  match r with
  | CreateRequestFails msg => (w, Some ("creating request: " +:+ msg))
  | SendFails msg =>
      (mkWorld (fs w) (sent w ++ [req]), Some ("sending request: " +:+ msg))
  | Answer code body =>
      let w' := mkWorld (fs w) (sent w ++ [req]) in
      if (code <? 200) || (code >=? 300)
      then (w', Some ("upload failed: status " +:+ pretty code +:+ ", body: "
                        +:+ String.substring 0 1024 body))
      else (w', None)
  end.

(** The retry loop of [processJob], [for attempt := 1; attempt <=
    MaxRetries; attempt++]: [remaining] counts the iterations left.  The
    result is the world and, when the loop ran to its end without a
    return, the status to be marked failed. *)
Fixpoint attempts `{Codec} (env : Env) (u : Uploader) (statusPath : string)
    (meta : job.Metadata) (binData : bytes) (remaining : nat) (attempt : Z)
    (status : UploadStatus) (w : World) : World * option UploadStatus :=
  match remaining with
  | O => (w, Some status)
  | S remaining' =>
      let status1 := mkUploadStatus (JobID status) (Status status) attempt
                       (now_attempt env attempt) (LastError status)
                       (UploadedAt status) in
      match upload u (respond env attempt) meta binData w with
      | (w1, None) =>
          let status2 := mkUploadStatus (JobID status1) "uploaded"
                           (Attempts status1) (LastAttempt status1)
                           (LastError status1) (now_uploaded env) in
          (saveStatus (status_write env attempt) statusPath status2 w1, None)
      | (w1, Some err) =>
          let status2 := mkUploadStatus (JobID status1) (Status status1)
                           (Attempts status1) (LastAttempt status1) err
                           (UploadedAt status1) in
          let w2 := saveStatus (status_write env attempt) statusPath status2 w1 in
          if (attempt <? config.MaxRetries (cfg u)) && done_in_backoff env attempt
          then (w2, None)
          else attempts env u statusPath meta binData remaining' (attempt + 1)
                 status2 w2
      end
  end.

Definition processJob `{Codec} (env : Env) (u : Uploader) (basePath : string)
    (w : World) : World :=
  let binPath := basePath +:+ ".bin" in
  let jsonPath := basePath +:+ ".json" in
  let statusPath := basePath +:+ ".upload.json" in
  let status := loadOrCreateStatus w statusPath (Base basePath) in
  if String.eqb (Status status) "uploaded" then w
  else
    match os_ReadFile jsonPath (fs w) with
    | None => w
    | Some metaBytes =>
      match json_Unmarshal_meta metaBytes with
      | None => w
      | Some meta =>
        match os_ReadFile binPath (fs w) with
        | None => w
        | Some binData =>
          match attempts env u statusPath meta binData
                  (Z.to_nat (config.MaxRetries (cfg u))) 1 status w with
          | (w1, None) => w1
          | (w1, Some status1) =>
              saveStatus (failed_write env) statusPath
                (mkUploadStatus (JobID status1) "failed" (Attempts status1)
                   (LastAttempt status1) (LastError status1) (UploadedAt status1))
                w1
          end
        end
      end
    end.

(** One iteration of [worker] that receives from the queue. *)
Definition worker_step `{Codec} (env : Env) (u : Uploader) (w : World)
    : Uploader * World :=
  match queue u with
  | [] => (u, w)
  | jobPath :: rest =>
      (mkUploader (cfg u) (basePath u) rest (atomic_Add (queueSize u) (-1)),
       processJob env u jobPath w)
  end.

(** One visit of [filepath.Walk]: the path, whether it is a directory,
    and whether the walk reports an error for it. *)
Record WalkEntry := mkWalkEntry {
  path : string;
  isDir : bool;
  walkErr : bool
}.

(** The callback of [scanPending] on one entry. *)
Definition visit `{Codec} (w : World) (u : Uploader) (e : WalkEntry) : Uploader :=
  if negb (isDir e) && HasSuffix (path e) ".json"
     && negb (HasSuffix (path e) ".upload.json")
  then
    let basePath := TrimSuffix (path e) ".json" in
    let statusPath := basePath +:+ ".upload.json" in
    let status := loadOrCreateStatus w statusPath (Base basePath) in
    if negb (String.eqb (Status status) "uploaded") then Enqueue u basePath
    else u
  else u.

(** [scanPending] over the entries [filepath.Walk] yields below the base
    path, in its order; [done_at i] says whether [done] is closed when the
    [i]-th callback runs ([filepath.SkipAll] ends the walk). *)
Fixpoint scanPending `{Codec} (done_at : nat → bool) (i : nat) (w : World)
    (u : Uploader) (entries : list WalkEntry) : Uploader :=
  match entries with
  | [] => u
  | e :: rest =>
      if walkErr e then scanPending done_at (S i) w u rest
      else if done_at i then u
      else scanPending done_at (S i) w (visit w u e) rest
  end.

End upload.

(** ** Predicates used in the statements *)

Module spec.

(** A closed job carries the length and the digest of its own payload. *)
Definition sealed_ok `{job.Libs} (j : job.Job) : Prop :=
  job.closed j = true →
  job.ByteLen (job.Meta j) = len (job.Data j)
  ∧ job.SHA256 (job.Meta j) = job.sha256_hex (job.Data j).

(** The test of the loop of [Check] on one entry. *)
Definition visible (now : Time) (w : Duration) (ip : string)
    (e : job.hashEntry) : bool :=
  String.eqb (job.printerIP e) ip && (time_Sub now (job.timestamp e) <=? w).

(** Every session of the table holds an open job. *)
Definition all_open (c : capture.Capturer) : Prop :=
  ∀ key sess, capture.sessions c !! key = Some sess →
              job.closed (capture.job sess) = false.

(** The test of [checkTimeouts] on one session. *)
Definition idle (c : capture.Capturer) (now : Time) (sess : capture.session)
    : bool :=
  time_Sub now (capture.lastSeen sess)
  >=? config.IdleTimeout (config.Capture (capture.cfg c)).

(** The session key [handlePacket] computes for a packet: the printer is
    the destination side whichever way the packet travels. *)
Definition packet_key (c : capture.Capturer) (srcIP dstIP : string)
    (tcp : capture.TCP) : string :=
  if capture.isPrinterPort c (capture.DstPort tcp)
  then capture.sessionKeyOf srcIP (capture.SrcPort tcp) dstIP (capture.DstPort tcp)
  else capture.sessionKeyOf dstIP (capture.DstPort tcp) srcIP (capture.SrcPort tcp).

(** Appending the chunks in order, as successive [Append] calls do. *)
Definition append_all (j : job.Job) (chunks : list bytes) : job.Job :=
  foldl (λ j d, (job.Append j d).1) j chunks.

(** Finalizing the listed sessions one after the other, each under the
    answers given for its key, without touching the session table. *)
Fixpoint finalize_all `{job.Libs} (env_of : string → capture.Env)
    (met : list (string * capture.session)) (c : capture.Capturer)
    (fs : FileSys) : capture.Capturer * FileSys :=
  match met with
  | [] => (c, fs)
  | (key, sess) :: rest =>
      let '(c1, _, fs1) := capture.finalizeSession (env_of key) c sess fs in
      finalize_all env_of rest c1 fs1
  end.

(** The test of the second loop of [FindInterface] on one name. *)
Definition is_bridge (name : string) : bool :=
  (2 <=? String.length name)%nat
  && String.eqb (String.substring 0 2 name) "br".

(** A response [upload] takes for a success: a status code in 200..299. *)
Definition succeeds (r : upload.Response) : bool :=
  match r with
  | upload.Answer code _ => (200 <=? code) && (code <? 300)
  | _ => false
  end.

(** The walk entries whose base path [scanPending] hands to [Enqueue]. *)
Definition needs_upload `{upload.Codec} (w : upload.World)
    (e : upload.WalkEntry) : option string :=
  let base := upload.TrimSuffix (upload.path e) ".json" in
  if negb (upload.walkErr e) && negb (upload.isDir e)
     && upload.HasSuffix (upload.path e) ".json"
     && negb (upload.HasSuffix (upload.path e) ".upload.json")
     && negb (String.eqb
                (upload.Status
                   (upload.loadOrCreateStatus w (base +:+ ".upload.json")
                      (upload.Base base)))
                "uploaded")
  then Some base else None.

End spec.

(** ** Concrete inputs used by the examples *)

Module examples.

(** Stand-ins for the library calls: the digest is the decimal length of
    the data followed by its first byte, every timestamp formats as the
    layout itself (the reference date 2006-01-02), and the metadata
    encoder writes an empty object, failing on an oversized length. *)
Definition libs : job.Libs :=
  {| job.sha256_hex d :=
       "len" +:+ pretty (len d) +:+ ":" +:+
       match d with [] => "" | b :: _ => pretty (Z.of_N (Byte.to_N b)) end;
     job.time_Format ts layout := layout;
     job.json_MarshalIndent m :=
       if job.ByteLen m <? 2 ^ 32 then Some [Byte.x7b; Byte.x7d] else None |}.

Definition store : job.Store := job.mkStore "/var/lib/kpt" 100.

(** A filesystem with 1 GiB free, one exactly at the 100 MiB threshold,
    one just below it, and one whose free space cannot be queried. *)
Definition sys_ok : job.SysEnv :=
  job.mkSysEnv (Some (262144, 4096)) None job.WNone job.WNone (λ _, false).
Definition sys_at_threshold : job.SysEnv :=
  job.mkSysEnv (Some (25600, 4096)) None job.WNone job.WNone (λ _, false).
Definition sys_below : job.SysEnv :=
  job.mkSysEnv (Some (25599, 4096)) None job.WNone job.WNone (λ _, false).
Definition sys_statfs_fails : job.SysEnv :=
  job.mkSysEnv None None job.WNone job.WNone (λ _, false).
Definition sys_json_rename_fails : job.SysEnv :=
  job.mkSysEnv (Some (262144, 4096)) None job.WNone job.WRename (λ _, false).

(** The rename of the metadata file fails and the system refuses to
    unlink the payload file of job-1. *)
Definition sys_unlink_refused : job.SysEnv :=
  job.mkSysEnv (Some (262144, 4096)) None job.WNone job.WRename
    (String.eqb "/var/lib/kpt/2006/01/02/job-1.bin").

Definition fs0 : FileSys := mkFileSys ∅ {["/var/lib/kpt"]}.

Definition order_text : bytes := [Byte.x6f; Byte.x72; Byte.x64; Byte.x65; Byte.x72].

Definition open_job : job.Job :=
  fst (job.Append
         (job.New "job-1" 1000 "kptap-001" "site-001" "192.168.1.50" 9100
            "192.168.1.10" "tcp9100")
         order_text).

Definition closed_job : job.Job := @job.Close libs 2000 open_job.

(** One POS terminal printing to one printer on port 9100. *)
Definition cfg : config.Config :=
  config.mkConfig "kptap-001" "site-001"
    (config.mkCaptureConfig true false (800 * 1000000)).

Definition key : string := "192.168.1.10:44321->192.168.1.50:9100".

(** An open session that has accepted the segment at sequence 7001. *)
Definition sess_open : capture.session :=
  capture.mkSession open_job 1000 "192.168.1.10" "192.168.1.50" 44321 9100
    "tcp9100" {[ 7001 := true ]} 7001 true.

(** A session whose job received no payload. *)
Definition sess_empty : capture.session :=
  capture.mkSession
    (job.New "job-2" 1000 "kptap-001" "site-001" "192.168.1.50" 9100
       "192.168.1.10" "tcp9100")
    1000 "192.168.1.10" "192.168.1.50" 44321 9100 "tcp9100" ∅ 0 false.

Definition capturer : capture.Capturer :=
  capture.mkCapturer cfg store (Some (job.NewReprintDetector 300))
    (capture.mkStats 0 5 0) {[ key := sess_open ]}.

Definition env_ok : capture.Env :=
  capture.mkEnv "job-2" 3000 3000 3000 3000 3000 sys_ok.
Definition env_disk_low : capture.Env :=
  capture.mkEnv "job-2" 3000 3000 3000 3000 3000 sys_below.

Definition segment (syn fin : bool) (seq : Z) (app : option bytes)
    : capture.Packet :=
  capture.mkPacket (Some (capture.IPv4 "192.168.1.10" "192.168.1.50"))
    (Some (capture.mkTCP 44321 9100 syn fin false seq)) app.

Definition retransmission : capture.Packet :=
  segment false false 7001 (Some order_text).
Definition fresh_segment : capture.Packet :=
  segment false false 7006 (Some [Byte.x0a]).
Definition syn : capture.Packet := segment true false 7000 None.
Definition fin : capture.Packet := segment false true 7001 None.

(** A stand-in codec: a sidecar file holds the bytes of its status word,
    and every metadata file decodes to the metadata of [closed_job]. *)
Definition codec : upload.Codec :=
  {| upload.json_Unmarshal_status data :=
       match data with
       | [] => None
       | _ => Some (upload.mkUploadStatus "job-1" (String.string_of_list_byte data)
                      3 2500 "upload failed" zeroTime)
       end;
     upload.json_MarshalIndent_status st := String.list_byte_of_string (upload.Status st);
     upload.json_Unmarshal_meta data := Some (job.Meta closed_job) |}.

Definition job_base : string := "/var/lib/kpt/2006/01/02/job-1".

(** The stored job with a sidecar holding the given status word. *)
Definition world_with_sidecar (status : string) : upload.World :=
  upload.mkWorld
    (mkFileSys
       {[ job_base +:+ ".bin" := order_text;
          job_base +:+ ".json" := [Byte.x7b; Byte.x7d];
          job_base +:+ ".upload.json" := String.list_byte_of_string status ]}
       {["/var/lib/kpt"]})
    [].

Definition uploader : upload.Uploader :=
  upload.New (config.mkUploadConfig true "https://hook.example/jobs" "" 3
                (5 * Second))
    "/var/lib/kpt".

(** A webhook that answers 500 to every attempt; [done] stays open. *)
Definition env_webhook_down : upload.Env :=
  upload.mkEnv (λ _, upload.Answer 500 "busy") (λ n, 4000 + n) 5000 (λ _, false)
    (λ _, WriteDone) WriteDone.

(** A detector that has recorded one job for the printer. *)
Definition rd_once : job.ReprintDetector :=
  job.Record_ 1000 (job.NewReprintDetector 300) "len5:111" "192.168.1.50"
    "job-0".

(** The same detector after a second record of that payload, 500 s
    later. *)
Definition rd_twice : job.ReprintDetector :=
  job.Record_ 500000000000 rd_once "len5:111" "192.168.1.50" "job-9".

(** A capturer with no session yet. *)
Definition capturer_empty : capture.Capturer :=
  capture.New cfg store (Some (job.NewReprintDetector 300))
    (capture.mkStats 0 0 0).

(** Packets travelling from the printer back to the terminal. *)
Definition reply (fin : bool) : capture.Packet :=
  capture.mkPacket (Some (capture.IPv4 "192.168.1.50" "192.168.1.10"))
    (Some (capture.mkTCP 9100 44321 false fin false 1)) (Some order_text).

(** A second session to the same printer carrying the same payload. *)
Definition sess_twin : capture.session :=
  capture.mkSession
    (fst (job.Append
            (job.New "job-3" 1500 "kptap-001" "site-001" "192.168.1.50" 9100
               "192.168.1.11" "tcp9100")
            order_text))
    1500 "192.168.1.11" "192.168.1.50" 55000 9100 "tcp9100"
    {[ 9001 := true ]} 9001 true.

Definition env_later : capture.Env :=
  capture.mkEnv "job-4" 4000 4000 4000 4000 4000 sys_ok.

Definition store_negative : job.Store := job.mkStore "/var/lib/kpt" (-1).

(** Webhooks that accept at once, and a shutdown during the back-off. *)
Definition env_webhook_up : upload.Env :=
  upload.mkEnv (λ _, upload.Answer 200 "ok") (λ n, 4000 + n) 5000 (λ _, false)
    (λ _, WriteDone) WriteDone.
Definition env_shutdown : upload.Env :=
  upload.mkEnv (λ _, upload.Answer 500 "busy") (λ n, 4000 + n) 5000 (λ _, true)
    (λ _, WriteDone) WriteDone.

(** A webhook that accepts at once while the sidecar cannot be opened
    for writing. *)
Definition env_sidecar_refused : upload.Env :=
  upload.mkEnv (λ _, upload.Answer 200 "ok") (λ n, 4000 + n) 5000 (λ _, false)
    (λ _, WriteOpenFails) WriteDone.


(** What the walk yields below the base path for the stored job. *)
Definition walk : list upload.WalkEntry :=
  [upload.mkWalkEntry "/var/lib/kpt/2006" true false;
   upload.mkWalkEntry (job_base +:+ ".bin") false false;
   upload.mkWalkEntry (job_base +:+ ".json") false false;
   upload.mkWalkEntry (job_base +:+ ".upload.json") false false].

End examples.

(** * Properties *)

(** ** Strings and paths *)

Lemma append_assoc (a b c : string) : (a +:+ b) +:+ c = a +:+ b +:+ c.
Proof.
  induction a as [|ch a IH]; [done|].
  change (String ch ((a +:+ b) +:+ c) = String ch (a +:+ b +:+ c)).
  by rewrite IH.
Qed.

Lemma append_ne (s a b : string) : a ≠ b → s +:+ a ≠ s +:+ b.
Proof. intros Hne Heq. by apply Hne, (inj (String.app s)). Qed.

(** The four paths [Save] works on are pairwise distinct where it matters. *)
Lemma job_paths_distinct (base : string) :
  base +:+ ".bin" ≠ base +:+ ".json"
  ∧ base +:+ ".bin" ≠ (base +:+ ".json") +:+ ".tmp"
  ∧ base +:+ ".bin" ≠ (base +:+ ".bin") +:+ ".tmp"
  ∧ base +:+ ".json" ≠ (base +:+ ".json") +:+ ".tmp".
Proof.
  rewrite !append_assoc. repeat split; by apply append_ne.
Qed.

Lemma job_paths_distinct_tmp (base : string) :
  (base +:+ ".bin") +:+ ".tmp" ≠ (base +:+ ".json") +:+ ".tmp"
  ∧ base +:+ ".json" ≠ (base +:+ ".bin") +:+ ".tmp".
Proof. rewrite !append_assoc. split; by apply append_ne. Qed.

(** ** The filesystem primitives *)

Lemma files_WriteFile_eq p d fs : files (write_bytes p d fs) !! p = Some d.
Proof. apply lookup_insert_eq. Qed.

Lemma files_WriteFile_ne p q d fs :
  p ≠ q → files (write_bytes p d fs) !! q = files fs !! q.
Proof. intros. by apply lookup_insert_ne. Qed.

Lemma files_Remove_eq p fs : files (os_Remove false p fs).1 !! p = None.
Proof. apply lookup_delete_eq. Qed.

Lemma Remove_refused p fs : (os_Remove true p fs).1 = fs.
Proof. done. Qed.

Lemma files_Remove_ne refused p q fs :
  p ≠ q → files (os_Remove refused p fs).1 !! q = files fs !! q.
Proof. intros. destruct refused; [done|]. by apply lookup_delete_ne. Qed.

Lemma dirs_Remove refused p fs : dirs (os_Remove refused p fs).1 = dirs fs.
Proof. by destruct refused. Qed.

Lemma files_MkdirAll k base comps fs :
  files (fst (os_MkdirAll k base comps fs)) = files fs.
Proof. by destruct k. Qed.

(** ** writeFileAtomic *)

Section WriteFileAtomic.

Variables (tmp final : string) (data : bytes) (fs : FileSys).
Hypothesis Hdistinct : final ≠ tmp.

(** A successful atomic write leaves exactly the data under the final
    name and nothing under the temporary one. *)
Lemma writeFileAtomic_ok flt refused fs' :
  job.writeFileAtomic flt refused tmp final data fs = (fs', true) →
  flt = job.WNone
  ∧ files fs' !! final = Some data
  ∧ files fs' !! tmp = None
  ∧ ∀ q, q ≠ tmp → q ≠ final → files fs' !! q = files fs !! q.
Proof.
  destruct flt; intros Hw; simplify_eq/=.
  split; [done|]. unfold os_Rename. rewrite !files_WriteFile_eq. simpl.
  rewrite lookup_insert_eq.
  split; [done|]. split.
  - by rewrite lookup_insert_ne, lookup_delete_eq.
  - intros q Hq1 Hq2.
    by rewrite lookup_insert_ne, lookup_delete_ne, !lookup_insert_ne.
Qed.

(** A failed atomic write touches nothing but the temporary name. *)
Lemma writeFileAtomic_fail flt refused fs' :
  job.writeFileAtomic flt refused tmp final data fs = (fs', false) →
  flt ≠ job.WNone ∧ ∀ q, q ≠ tmp → files fs' !! q = files fs !! q.
Proof.
  destruct flt; intros Hw; simplify_eq/=; (split; [done|]); intros q Hq;
    try done; by rewrite files_Remove_ne, !files_WriteFile_ne.
Qed.

Lemma writeFileAtomic_result flt refused :
  snd (job.writeFileAtomic flt refused tmp final data fs) = true
  ↔ flt = job.WNone.
Proof. by destruct flt. Qed.

End WriteFileAtomic.

(** ** Store.Save and the disk-space gate *)

Section Store.

Context `{L : job.Libs}.
Implicit Types (s : job.Store) (env : job.SysEnv) (j : job.Job) (fs : FileSys).

Lemma availMB_exact bavail bsize :
  0 <= bavail → 0 <= bsize < 2 ^ 63 → bavail * bsize < 2 ^ 64 →
  job.availMB bavail bsize = bavail * bsize / (1024 * 1024).
Proof.
  intros Ha Hs Hp. unfold job.availMB, to_uint64.
  rewrite (Z.mod_small bsize) by lia.
  rewrite Z.mod_small by nia. done.
Qed.

(** [Save] reports insufficient disk space only when the gate is shut. *)
Lemma Save_disk_error s env j fs m :
  snd (job.Save s env j fs) = Some (job.ErrDiskSpace m) →
  job.hasEnoughSpace s env = false.
Proof.
  unfold job.Save. intros Hs.
  destruct (job.hasEnoughSpace s env); [|done].
  repeat case_match; simplify_eq/=.
Qed.

Lemma Save_gate_shut s env j fs :
  job.IsClosed j = true → job.hasEnoughSpace s env = false →
  job.Save s env j fs = (fs, Some (job.ErrDiskSpace (job.minFreeMB s))).
Proof. intros Hc Hg. unfold job.Save. by rewrite Hc, Hg. Qed.

(** With the gate open and no failure, both files are in place. *)
Lemma Save_success s env j fs metaBytes :
  job.IsClosed j = true → job.hasEnoughSpace s env = true →
  job.mkdir_fail env = None →
  job.bin_fault env = job.WNone → job.json_fault env = job.WNone →
  job.json_MarshalIndent (job.Meta j) = Some metaBytes →
  let base := job.GetJobPath s (job.JobID (job.Meta j))
                (job.CaptureStartTS (job.Meta j)) in
  snd (job.Save s env j fs) = None
  ∧ files (fst (job.Save s env j fs)) !! (base +:+ ".bin") = Some (job.Data j)
  ∧ files (fst (job.Save s env j fs)) !! (base +:+ ".json") = Some metaBytes.
Proof.
  intros Hc Hg Hm Hb Hj Hmeta base.
  destruct (job_paths_distinct base) as (Hbj & Hbjt & Hbbt & Hjjt).
  unfold job.Save. rewrite Hc, Hg, Hm, Hb, Hj, Hmeta.
  unfold os_MkdirAll. cbv beta iota zeta. fold base.
  destruct (job.writeFileAtomic job.WNone _ _ (base +:+ ".bin") _ _)
    as [fs2 ok2] eqn:Hw2.
  destruct ok2; [|by apply writeFileAtomic_fail in Hw2 as [? _]].
  apply writeFileAtomic_ok in Hw2 as (_ & Hbin & _ & _); [|done].
  destruct (job.writeFileAtomic job.WNone _ _ (base +:+ ".json") _ _)
    as [fs3 ok3] eqn:Hw3.
  destruct ok3; [|by apply writeFileAtomic_fail in Hw3 as [? _]].
  apply writeFileAtomic_ok in Hw3 as (_ & Hjson & _ & Hrest); [|done].
  simpl. split; [done|]. split; [|done].
  by rewrite Hrest.
Qed.

(** C10: [Save] on a job that is not closed returns the "unclosed"
    error whatever the disk and the system calls would have answered,
    and the filesystem (files and directories) is the one it was given. *)
Theorem Save_unclosed_leaves_filesystem s env j fs :
  job.IsClosed j = false →
  job.Save s env j fs = (fs, Some job.ErrUnclosed).
Proof. intros Hc. unfold job.Save. by rewrite Hc. Qed.

(** C9: when [syscall.Statfs] fails, [hasEnoughSpace] answers true and
    [Save] goes on: it never returns the disk-space error, and with no
    other failure it writes both files and returns nil. *)
Theorem statfs_failure_passes_disk_gate s env :
  job.statfs env = None →
  job.hasEnoughSpace s env = true
  ∧ ∀ j fs, job.IsClosed j = true →
      (∀ m, snd (job.Save s env j fs) ≠ Some (job.ErrDiskSpace m))
      ∧ (job.mkdir_fail env = None →
         job.bin_fault env = job.WNone → job.json_fault env = job.WNone →
         ∀ metaBytes, job.json_MarshalIndent (job.Meta j) = Some metaBytes →
         let base := job.GetJobPath s (job.JobID (job.Meta j))
                       (job.CaptureStartTS (job.Meta j)) in
         snd (job.Save s env j fs) = None
         ∧ files (fst (job.Save s env j fs)) !! (base +:+ ".bin")
           = Some (job.Data j)
         ∧ files (fst (job.Save s env j fs)) !! (base +:+ ".json")
           = Some metaBytes).
Proof.
  intros Hst.
  assert (Hg : job.hasEnoughSpace s env = true)
    by (unfold job.hasEnoughSpace; by rewrite Hst).
  split; [done|]. intros j fs Hc. split.
  - intros m Hm. apply Save_disk_error in Hm. congruence.
  - intros Hmk Hb Hj metaBytes Hmeta. by apply Save_success.
Qed.

(** A negative [min_free_mb] is read as a uint64 by the comparison, so
    the gate is shut whenever the query succeeds. *)
Lemma disk_gate_negative_minimum s env bavail bsize :
  job.statfs env = Some (bavail, bsize) →
  - 2 ^ 63 <= job.minFreeMB s < 0 →
  job.hasEnoughSpace s env = false.
Proof.
  intros Hst Hmin. unfold job.hasEnoughSpace. rewrite Hst.
  apply bool_decide_eq_false. unfold job.availMB, to_uint64.
  assert (0 <= (bavail * (bsize mod 2 ^ 64)) mod 2 ^ 64 < 2 ^ 64)
    by (apply Z.mod_pos_bound; lia).
  assert ((bavail * (bsize mod 2 ^ 64)) mod 2 ^ 64 / (1024 * 1024) < 2 ^ 44)
    by (apply Z.div_lt_upper_bound; lia).
  assert (job.minFreeMB s mod 2 ^ 64 = job.minFreeMB s + 2 ^ 64) as ->
    by (symmetry; apply (Z.mod_unique _ _ (-1)); lia).
  lia.
Qed.

(** C7, as amended: when the free-space query succeeds, the gate is open
    exactly when [min_free_mb] is not negative and the free mebibytes,
    [Bavail * Bsize / 2^20] as computed in uint64 arithmetic (the true
    quotient when the product is below [2^64]), are at least
    [min_free_mb].  With the free space exactly at a non-negative
    [min_free_mb] the gate is open.  A closed job is refused with the
    disk-space error below the threshold and for every negative
    [min_free_mb], and is not refused for disk space otherwise. *)
Theorem disk_gate_threshold s env bavail bsize :
  job.statfs env = Some (bavail, bsize) →
  in_int64 (job.minFreeMB s) →
  let freeMB := job.availMB bavail bsize in
  (0 <= bavail → 0 <= bsize < 2 ^ 63 → bavail * bsize < 2 ^ 64 →
   freeMB = bavail * bsize / (1024 * 1024))
  ∧ (job.hasEnoughSpace s env = true
     ↔ 0 <= job.minFreeMB s ∧ freeMB >= job.minFreeMB s)
  ∧ (0 <= job.minFreeMB s → freeMB = job.minFreeMB s →
     job.hasEnoughSpace s env = true)
  ∧ ∀ j fs, job.IsClosed j = true →
      (freeMB < job.minFreeMB s ∨ job.minFreeMB s < 0 →
       job.Save s env j fs = (fs, Some (job.ErrDiskSpace (job.minFreeMB s))))
      ∧ (0 <= job.minFreeMB s → freeMB >= job.minFreeMB s →
         ∀ m, snd (job.Save s env j fs) ≠ Some (job.ErrDiskSpace m)).
Proof.
  intros Hst Hmin freeMB. unfold in_int64 in Hmin.
  assert (Hfree : 0 <= freeMB).
  { unfold freeMB, job.availMB, to_uint64.
    apply Z.div_pos; [|lia]. apply Z.mod_pos_bound. lia. }
  assert (Hg : job.hasEnoughSpace s env = true
               ↔ 0 <= job.minFreeMB s ∧ freeMB >= job.minFreeMB s).
  { destruct (Z.lt_ge_cases (job.minFreeMB s) 0) as [Hneg|Hpos].
    - rewrite (disk_gate_negative_minimum s env bavail bsize) by (done || lia).
      split; [done|lia].
    - unfold job.hasEnoughSpace. rewrite Hst, bool_decide_eq_true.
      unfold to_uint64 at 1. rewrite (Z.mod_small (job.minFreeMB s)) by lia.
      fold freeMB. lia. }
  split; [intros; by apply availMB_exact|].
  split; [done|]. split; [intros Hpos Heq; apply Hg; lia|].
  intros j fs Hc. split.
  - intros Hlt. apply Save_gate_shut; [done|].
    destruct (job.hasEnoughSpace s env); [|done].
    assert (0 <= job.minFreeMB s ∧ freeMB >= job.minFreeMB s) by by apply Hg.
    lia.
  - intros Hpos Hge m Hm. apply Save_disk_error in Hm.
    assert (job.hasEnoughSpace s env = true) by by apply Hg.
    congruence.
Qed.

(** C3, as amended: once the [.bin] file is written, a failure to
    marshal or to write the metadata makes [Save] call [os.Remove] on the
    [.bin] file and return that error.  The result of the removal is
    discarded: the [.bin] file is gone when the removal takes effect, and
    stays with the payload when the system refuses it.  The [.json] file
    is as it was before the call either way. *)
Theorem Save_metadata_failure_removes_bin s env j fs :
  job.IsClosed j = true → job.hasEnoughSpace s env = true →
  job.mkdir_fail env = None → job.bin_fault env = job.WNone →
  job.json_MarshalIndent (job.Meta j) = None ∨ job.json_fault env ≠ job.WNone →
  let base := job.GetJobPath s (job.JobID (job.Meta j))
                (job.CaptureStartTS (job.Meta j)) in
  (snd (job.Save s env j fs) = Some job.ErrMarshal
   ∨ snd (job.Save s env j fs) = Some job.ErrWriteMetadata)
  ∧ files (fst (job.Save s env j fs)) !! (base +:+ ".bin")
    = (if job.remove_refused env (base +:+ ".bin") then Some (job.Data j)
       else None)
  ∧ files (fst (job.Save s env j fs)) !! (base +:+ ".json")
    = files fs !! (base +:+ ".json").
Proof.
  intros Hc Hg Hm Hb Hfail base.
  destruct (job_paths_distinct base) as (Hbj & Hbjt & Hbbt & Hjjt).
  unfold job.Save. rewrite Hc, Hg, Hm, Hb.
  unfold os_MkdirAll. cbv beta iota zeta. fold base.
  destruct (job.writeFileAtomic job.WNone _ _ (base +:+ ".bin") _ _)
    as [fs2 ok2] eqn:Hw2.
  destruct ok2; [|by apply writeFileAtomic_fail in Hw2 as [? _]].
  apply writeFileAtomic_ok in Hw2 as (_ & Hbin & _ & Hrest2); [|done].
  assert (Hjson2 : files fs2 !! (base +:+ ".json") = files fs !! (base +:+ ".json")).
  { rewrite Hrest2; [done|apply job_paths_distinct_tmp|by apply not_eq_sym]. }
  destruct (job.json_MarshalIndent (job.Meta j)) as [metaBytes|] eqn:Hmeta.
  - destruct Hfail as [|Hj]; [done|].
    destruct (job.writeFileAtomic (job.json_fault env) _ _ _ metaBytes _)
      as [fs3 [|]] eqn:Hw.
    + apply (f_equal snd) in Hw. simpl in Hw.
      by apply writeFileAtomic_result in Hw.
    + apply writeFileAtomic_fail in Hw as (_ & Hrest3); [|done].
      cbn [fst snd negb]. split; [by right|]. split.
      * destruct (job.remove_refused env (base +:+ ".bin")).
        -- rewrite Remove_refused, Hrest3 by done. done.
        -- apply files_Remove_eq.
      * rewrite files_Remove_ne, Hrest3 by done. done.
  - cbn [fst snd negb]. split; [by left|]. split.
    + destruct (job.remove_refused env (base +:+ ".bin")).
      * by rewrite Remove_refused.
      * apply files_Remove_eq.
    + by rewrite files_Remove_ne.
Qed.

End Store.

(** ** The job lifecycle *)

Section Lifecycle.

Context `{L : job.Libs}.
Implicit Types (j : job.Job).

Lemma Close_closed now j : job.closed (job.Close now j) = true.
Proof. unfold job.Close. by destruct (job.closed j) eqn:?. Qed.

Lemma Close_Data now j : job.Data (job.Close now j) = job.Data j.
Proof. unfold job.Close. by destruct (job.closed j). Qed.

Lemma Close_ByteLen_open now j :
  job.closed j = false →
  job.ByteLen (job.Meta (job.Close now j)) = len (job.Data j).
Proof. intros Ho. unfold job.Close. by rewrite Ho. Qed.

Lemma SetReprintOf_sealed j id :
  let j' := job.SetReprintOf j id in
  job.Data j' = job.Data j
  ∧ job.SHA256 (job.Meta j') = job.SHA256 (job.Meta j)
  ∧ job.CaptureEndTS (job.Meta j') = job.CaptureEndTS (job.Meta j)
  ∧ job.ByteLen (job.Meta j') = job.ByteLen (job.Meta j)
  ∧ job.JobID (job.Meta j') = job.JobID (job.Meta j)
  ∧ job.CaptureStartTS (job.Meta j') = job.CaptureStartTS (job.Meta j)
  ∧ job.closed j' = job.closed j.
Proof.
  unfold job.SetReprintOf. cbv zeta.
  by destruct (job.has_reprint_tag _).
Qed.

Lemma has_reprint_tag_elem tags :
  job.has_reprint_tag tags = true ↔ "reprint" ∈ tags.
Proof.
  induction tags as [|t tags IH]; simpl.
  - split; [done|]. by intros ?%elem_of_nil.
  - destruct (String.eqb_spec t "reprint") as [->|Hne].
    + split; [intros _; by left|done].
    + rewrite IH. split; [by right|].
      intros [?|?]%elem_of_cons; [congruence|done].
Qed.

Lemma SetReprintOf_marks j id :
  let j' := job.SetReprintOf j id in
  job.ReprintOfJobID (job.Meta j') = id
  ∧ "reprint" ∈ job.Tags (job.Meta j')
  ∧ (job.Tags (job.Meta j') = job.Tags (job.Meta j)
     ∨ job.Tags (job.Meta j') = job.Tags (job.Meta j) ++ ["reprint"]).
Proof.
  unfold job.SetReprintOf. cbv zeta.
  destruct (job.has_reprint_tag _) eqn:Ht; simpl.
  - apply has_reprint_tag_elem in Ht. simpl in Ht. auto.
  - split; [done|]. split; [|by right].
    apply elem_of_app. right. by left.
Qed.

(** C5, as amended: on a closed job [Append] and a second [Close] change
    nothing; [AddTag] and [SetReprintOf] leave the payload, the hash,
    the end timestamp, the length and the closed flag alone, but they
    do extend the tags and overwrite the reprint back-reference. *)
Theorem closed_job_sealed_fields j :
  job.closed j = true →
  (∀ data, job.Append j data = (j, false))
  ∧ (∀ now, job.Close now j = j)
  ∧ (∀ tag, let j' := job.AddTag j tag in
       job.Data j' = job.Data j
       ∧ job.SHA256 (job.Meta j') = job.SHA256 (job.Meta j)
       ∧ job.CaptureEndTS (job.Meta j') = job.CaptureEndTS (job.Meta j)
       ∧ job.ByteLen (job.Meta j') = job.ByteLen (job.Meta j)
       ∧ job.closed j' = true
       ∧ job.ReprintOfJobID (job.Meta j') = job.ReprintOfJobID (job.Meta j)
       ∧ job.Tags (job.Meta j') = job.Tags (job.Meta j) ++ [tag])
  ∧ (∀ id, let j' := job.SetReprintOf j id in
       job.Data j' = job.Data j
       ∧ job.SHA256 (job.Meta j') = job.SHA256 (job.Meta j)
       ∧ job.CaptureEndTS (job.Meta j') = job.CaptureEndTS (job.Meta j)
       ∧ job.ByteLen (job.Meta j') = job.ByteLen (job.Meta j)
       ∧ job.closed j' = true
       ∧ job.ReprintOfJobID (job.Meta j') = id
       ∧ "reprint" ∈ job.Tags (job.Meta j')).
Proof.
  intros Hc. repeat split.
  - intros data. unfold job.Append. by rewrite Hc.
  - intros now. unfold job.Close. by rewrite Hc.
  - done.
  - destruct (SetReprintOf_sealed j id) as (? & ? & ? & ? & ? & ? & ?). done.
  - by destruct (SetReprintOf_sealed j id) as (? & ? & ? & ? & ? & ? & ?).
  - by destruct (SetReprintOf_sealed j id) as (? & ? & ? & ? & ? & ? & ?).
  - by destruct (SetReprintOf_sealed j id) as (? & ? & ? & ? & ? & ? & ?).
  - destruct (SetReprintOf_sealed j id) as (? & ? & ? & ? & ? & ? & ?).
    congruence.
  - by destruct (SetReprintOf_marks j id) as (? & ? & ?).
  - by destruct (SetReprintOf_marks j id) as (? & ? & ?).
Qed.

End Lifecycle.

(** ** Finalization *)

Lemma wrap64_small z : in_int64 z → wrap64 z = z.
Proof. unfold in_int64, wrap64. intros Hz. rewrite Z.mod_small; lia. Qed.

Section Finalize.

Context `{L : job.Libs}.
Implicit Types (env : capture.Env) (c : capture.Capturer)
  (sess : capture.session) (fs : FileSys).

(** The job [finalizeSession] hands to the detector and to the store. *)
Lemma finalize_nonempty env c sess fs :
  let sealed := job.Close (capture.now_close env) (capture.job sess) in
  job.ByteLen (job.Meta sealed) ≠ 0 →
  ∃ j2 rd',
    (j2 = sealed ∨ ∃ id, j2 = job.SetReprintOf sealed id)
    ∧ rd' = (λ rd, job.Record_ (capture.now_record env) rd
                     (job.GetHash sealed) (capture.dstIP sess)
                     (job.JobID (job.Meta sealed))) <$> capture.reprint c
    ∧ capture.reprint (capture.finalizeSession env c sess fs).1.1 = rd'
    ∧ (capture.finalizeSession env c sess fs).2
      = (job.Save (capture.store c) (capture.sys env) j2 fs).1
    ∧ capture.BytesCaptured
        (capture.stats (capture.finalizeSession env c sess fs).1.1)
      = capture.BytesCaptured (capture.stats c).
Proof.
  intros sealed Hlen. unfold capture.finalizeSession. fold sealed.
  destruct (job.ByteLen (job.Meta sealed) =? 0) eqn:Hz; [lia|].
  destruct (capture.reprint c) as [rd|] eqn:Hrd.
  - destruct (String.eqb (job.Check _ rd _ _) "") eqn:Hid.
    + exists sealed, (Some (job.Record_ (capture.now_record env) rd
                             (job.GetHash sealed) (capture.dstIP sess)
                             (job.JobID (job.Meta sealed)))).
      split; [by left|]. split; [done|].
      simpl. by destruct (job.Save _ _ sealed fs) as [fs' [e|]].
    + set (id := job.Check _ rd _ _).
      destruct (SetReprintOf_sealed sealed id) as (_ & Hh & _ & _ & Hid' & _).
      exists (job.SetReprintOf sealed id),
        (Some (job.Record_ (capture.now_record env) rd
                 (job.GetHash sealed) (capture.dstIP sess)
                 (job.JobID (job.Meta sealed)))).
      split; [right; by exists id|]. split; [done|].
      unfold job.GetHash. rewrite Hh, Hid'.
      simpl. by destruct (job.Save _ _ _ fs) as [fs' [e|]].
  - exists sealed, None. split; [by left|]. split; [done|].
    simpl. by destruct (job.Save _ _ sealed fs) as [fs' [e|]].
Qed.

Lemma finalize_empty env c sess fs :
  let sealed := job.Close (capture.now_close env) (capture.job sess) in
  job.ByteLen (job.Meta sealed) = 0 →
  capture.finalizeSession env c sess fs = (c, capture.set_job sess sealed, fs).
Proof.
  intros sealed Hlen. unfold capture.finalizeSession. fold sealed.
  by rewrite Hlen.
Qed.

Lemma Close_ByteLen_zero now (j : job.Job) :
  job.closed j = false →
  job.ByteLen (job.Meta (job.Close now j)) = 0 ↔ job.Data j = [].
Proof.
  intros Ho. rewrite Close_ByteLen_open by done.
  unfold len. destruct (job.Data j); simpl; split; (done || lia).
Qed.

(** C4: when the sealed job has [byte_len = 0], [finalizeSession]
    returns at once, before the detector is consulted and before
    [Save]: the capturer (detector and counters included) and the
    filesystem are the ones it was given, so nothing is persisted. *)
Theorem finalize_skips_empty_job env c sess fs :
  let sealed := job.Close (capture.now_close env) (capture.job sess) in
  job.ByteLen (job.Meta sealed) = 0 →
  let r := capture.finalizeSession env c sess fs in
  r = (c, capture.set_job sess sealed, fs)
  ∧ capture.reprint r.1.1 = capture.reprint c
  ∧ capture.stats r.1.1 = capture.stats c
  ∧ r.2 = fs.
Proof.
  intros sealed Hlen r. unfold r, sealed.
  by rewrite finalize_empty.
Qed.

(** Whenever finalization changes the filesystem, the job it sealed has
    a non-zero length. *)
Lemma finalize_writes_only_nonempty env c sess fs :
  (capture.finalizeSession env c sess fs).2 ≠ fs →
  job.ByteLen
    (job.Meta (job.Close (capture.now_close env) (capture.job sess))) ≠ 0.
Proof. intros Hch Hz. apply Hch. by rewrite finalize_empty. Qed.

(** C1, as amended: for a non-empty job and a configured detector,
    [finalizeSession] evaluates [Check] on the detector as it stood
    before this job was recorded, tags the job as a reprint exactly when
    [Check] found an earlier job, and applies [Record] to that detector
    unconditionally: the detector handed back holds the job's entry
    appended to the bucket of its hash whether [Save], called on the
    tagged job, returns nil or an error.  The filesystem is the one
    [Save] produced, and the counters tell how [Save] ended. *)
Theorem finalize_records_whatever_save_returns env c sess fs rd :
  capture.reprint c = Some rd →
  let sealed := job.Close (capture.now_close env) (capture.job sess) in
  job.ByteLen (job.Meta sealed) ≠ 0 →
  let original := job.Check (capture.now_check env) rd (job.GetHash sealed)
                    (capture.dstIP sess) in
  let tagged := if String.eqb original "" then sealed
                else job.SetReprintOf sealed original in
  let entry := job.mkHashEntry (job.JobID (job.Meta sealed))
                 (capture.dstIP sess) (capture.now_record env) in
  let saved := job.Save (capture.store c) (capture.sys env) tagged fs in
  let r := capture.finalizeSession env c sess fs in
  capture.job r.1.2 = tagged
  ∧ capture.reprint r.1.1
    = Some (job.Record_ (capture.now_record env) rd (job.GetHash sealed)
              (capture.dstIP sess) (job.JobID (job.Meta sealed)))
  ∧ (capture.reprint r.1.1 ≫= λ rd', job.hashes rd' !! job.GetHash sealed)
    = Some (default [] (job.hashes rd !! job.GetHash sealed) ++ [entry])
  ∧ r.2 = saved.1
  ∧ capture.JobsCaptured (capture.stats r.1.1)
    = match saved.2 with
      | Some _ => capture.JobsCaptured (capture.stats c)
      | None => atomic_Add (capture.JobsCaptured (capture.stats c)) 1
      end
  ∧ capture.ParseErrors (capture.stats r.1.1)
    = match saved.2 with
      | Some _ => atomic_Add (capture.ParseErrors (capture.stats c)) 1
      | None => capture.ParseErrors (capture.stats c)
      end.
Proof.
  intros Hrd sealed Hlen original tagged entry saved r.
  assert (Hsame : job.GetHash tagged = job.GetHash sealed
                  ∧ job.JobID (job.Meta tagged) = job.JobID (job.Meta sealed)).
  { unfold tagged. destruct (String.eqb original ""); [done|].
    destruct (SetReprintOf_sealed sealed original)
      as (_ & Hh & _ & _ & Hid & _).
    unfold job.GetHash. by rewrite Hh, Hid. }
  destruct Hsame as [Hh Hid].
  unfold r, capture.finalizeSession. fold sealed.
  apply Z.eqb_neq in Hlen. rewrite Hlen, Hrd.
  cbv beta iota zeta. fold original. fold tagged. rewrite Hh, Hid.
  change (capture.store (capture.set_reprint c _)) with (capture.store c).
  fold saved. destruct saved as [fs' [e|]]; cbn; rewrite lookup_insert_eq;
    repeat split.
Qed.

(** Finalization does not touch [bytes_captured]. *)
Lemma finalize_BytesCaptured env c sess fs :
  capture.BytesCaptured
    (capture.stats (capture.finalizeSession env c sess fs).1.1)
  = capture.BytesCaptured (capture.stats c).
Proof.
  destruct (decide (job.ByteLen (job.Meta
              (job.Close (capture.now_close env) (capture.job sess))) = 0))
    as [Hz|Hnz].
  - by rewrite finalize_empty.
  - by destruct (finalize_nonempty env c sess fs Hnz)
      as (? & ? & _ & _ & _ & _ & ?).
Qed.

End Finalize.

(** ** Packet handling *)

Section HandlePacket.

Context `{L : job.Libs}.
Implicit Types (env : capture.Env) (c : capture.Capturer)
  (sess : capture.session) (fs : FileSys) (packet : capture.Packet)
  (tcp : capture.TCP).

(** A packet toward an enabled printer port that is neither FIN nor RST
    and finds its session reaches the payload step of [handlePacket]. *)
Lemma handlePacket_data env c packet fs srcIP dstIP tcp sess :
  capture.networkLayer packet = Some (capture.IPv4 srcIP dstIP)
  ∨ capture.networkLayer packet = Some (capture.IPv6 srcIP dstIP) →
  capture.tcpLayer packet = Some tcp →
  capture.isPrinterPort c (capture.DstPort tcp) = true →
  capture.FIN tcp = false → capture.RST tcp = false →
  let key := capture.sessionKeyOf srcIP (capture.SrcPort tcp) dstIP
               (capture.DstPort tcp) in
  capture.sessions c !! key = Some sess →
  capture.handlePacket env c packet fs
  = (capture.capturePayload env c key sess tcp
       (capture.applicationLayer packet), fs).
Proof.
  intros Hnl Htcp Hport Hfin Hrst key Hsess. unfold capture.handlePacket.
  destruct Hnl as [-> | ->]; rewrite Htcp, Hport; cbv beta iota zeta;
    rewrite Hfin, Hrst; simpl; fold key; by rewrite Hsess.
Qed.

(** A FIN or RST toward the printer finalizes the session it finds and
    drops it from the table; any payload it carries is not appended. *)
Lemma handlePacket_fin env c packet fs srcIP dstIP tcp sess :
  capture.networkLayer packet = Some (capture.IPv4 srcIP dstIP)
  ∨ capture.networkLayer packet = Some (capture.IPv6 srcIP dstIP) →
  capture.tcpLayer packet = Some tcp →
  capture.isPrinterPort c (capture.DstPort tcp) = true →
  capture.FIN tcp || capture.RST tcp = true →
  let key := capture.sessionKeyOf srcIP (capture.SrcPort tcp) dstIP
               (capture.DstPort tcp) in
  capture.sessions c !! key = Some sess →
  let fin := capture.finalizeSession env c sess fs in
  capture.handlePacket env c packet fs
  = (capture.set_sessions fin.1.1 (delete key (capture.sessions fin.1.1)),
     fin.2).
Proof.
  intros Hnl Htcp Hport Hfin key Hsess. unfold capture.handlePacket.
  destruct Hnl as [-> | ->]; rewrite Htcp, Hport; cbv beta iota zeta;
    rewrite Hfin; simpl; fold key; rewrite Hsess;
    by destruct (capture.finalizeSession env c sess fs) as [[c1 s1] fs1].
Qed.


(** A SYN toward the printer with no session yet creates one around a
    new, empty job. *)
Lemma handlePacket_syn env c packet fs srcIP dstIP tcp :
  capture.networkLayer packet = Some (capture.IPv4 srcIP dstIP)
  ∨ capture.networkLayer packet = Some (capture.IPv6 srcIP dstIP) →
  capture.tcpLayer packet = Some tcp →
  capture.isPrinterPort c (capture.DstPort tcp) = true →
  capture.SYN tcp = true → capture.FIN tcp = false → capture.RST tcp = false →
  let key := capture.sessionKeyOf srcIP (capture.SrcPort tcp) dstIP
               (capture.DstPort tcp) in
  capture.sessions c !! key = None →
  ∃ sess,
    job.closed (capture.job sess) = false
    ∧ job.Data (capture.job sess) = []
    ∧ capture.handlePacket env c packet fs
      = (capture.set_sessions c (<[key := sess]> (capture.sessions c)), fs).
Proof.
  intros Hnl Htcp Hport Hsyn Hfin Hrst key Hnone. unfold capture.handlePacket.
  destruct Hnl as [-> | ->]; rewrite Htcp, Hport; cbv beta iota zeta;
    rewrite Hfin, Hrst; simpl; fold key; rewrite Hnone, Hsyn;
    (eexists; split; [|split; [|reflexivity]]; done).
Qed.

(** SYN then FIN with no payload in between: the session is created
    and removed again, and nothing else changes; no file is written. *)
Lemma syn_then_fin_writes_nothing env1 env2 c fs srcIP dstIP syn fin app1 app2 :
  capture.isPrinterPort c (capture.DstPort syn) = true →
  capture.SYN syn = true → capture.FIN syn = false → capture.RST syn = false →
  capture.FIN fin = true →
  capture.SrcPort fin = capture.SrcPort syn →
  capture.DstPort fin = capture.DstPort syn →
  capture.sessions c
    !! capture.sessionKeyOf srcIP (capture.SrcPort syn) dstIP
         (capture.DstPort syn) = None →
  let p1 := capture.mkPacket (Some (capture.IPv4 srcIP dstIP)) (Some syn) app1 in
  let p2 := capture.mkPacket (Some (capture.IPv4 srcIP dstIP)) (Some fin) app2 in
  let r1 := capture.handlePacket env1 c p1 fs in
  capture.handlePacket env2 r1.1 p2 r1.2 = (c, fs).
Proof.
  intros Hport Hsyn Hfin Hrst Hfin2 Hsp Hdp Hnone p1 p2 r1.
  set (key := capture.sessionKeyOf srcIP (capture.SrcPort syn) dstIP
                (capture.DstPort syn)) in *.
  destruct (handlePacket_syn env1 c p1 fs srcIP dstIP syn)
    as (sess & Hopen & Hdata & Hr1); try done; [by left|].
  fold key in Hr1. unfold r1. rewrite Hr1. simpl.
  set (c1 := capture.set_sessions c _).
  rewrite (handlePacket_fin env2 c1 p2 fs srcIP dstIP fin sess).
  - rewrite finalize_empty by (by apply Close_ByteLen_zero). simpl.
    rewrite Hsp, Hdp. fold key. rewrite delete_insert_eq.
    rewrite delete_id by done. by destruct c.
  - by left.
  - done.
  - rewrite Hdp. exact Hport.
  - by rewrite Hfin2.
  - rewrite Hsp, Hdp. fold key. unfold c1. simpl. apply lookup_insert_eq.
Qed.

End HandlePacket.

(** ** Suffixes of paths *)

Lemma append_cons ch (a b : string) : String ch a +:+ b = String ch (a +:+ b).
Proof. done. Qed.

Lemma length_append (a b : string) :
  String.length (a +:+ b) = (String.length a + String.length b)%nat.
Proof.
  induction a as [|ch a IH]; [done|].
  rewrite append_cons. simpl. by rewrite IH.
Qed.

Lemma substring_all (s : string) : String.substring 0 (String.length s) s = s.
Proof. induction s as [|ch s IH]; [done|]. simpl. by rewrite IH. Qed.

Lemma substring_skip (a b : string) n :
  String.substring (String.length a) n (a +:+ b) = String.substring 0 n b.
Proof. induction a as [|ch a IH]; [done|]. by rewrite append_cons. Qed.

Lemma substring_prefix (a b : string) :
  String.substring 0 (String.length a) (a +:+ b) = a.
Proof.
  induction a as [|ch a IH]; [by destruct b|].
  rewrite append_cons. simpl. by rewrite IH.
Qed.

Lemma HasSuffix_append base suffix : upload.HasSuffix (base +:+ suffix) suffix = true.
Proof.
  unfold upload.HasSuffix. rewrite length_append.
  replace (String.length base + String.length suffix - String.length suffix)%nat
    with (String.length base) by lia.
  rewrite substring_skip, substring_all, String.eqb_refl, andb_true_r.
  apply Nat.leb_le. lia.
Qed.

Lemma TrimSuffix_append base suffix :
  upload.TrimSuffix (base +:+ suffix) suffix = base.
Proof.
  unfold upload.TrimSuffix. rewrite HasSuffix_append, length_append.
  replace (String.length base + String.length suffix - String.length suffix)%nat
    with (String.length base) by lia.
  apply substring_prefix.
Qed.

(** ** The uploader *)

Section Uploader.

Context `{C : upload.Codec}.
Implicit Types (w : upload.World) (u : upload.Uploader)
  (st : upload.UploadStatus).

Lemma loadOrCreateStatus_found w path jobID data st :
  os_ReadFile path (upload.fs w) = Some data →
  upload.json_Unmarshal_status data = Some st →
  upload.loadOrCreateStatus w path jobID = st.
Proof. intros Hr Hu. unfold upload.loadOrCreateStatus. by rewrite Hr, Hu. Qed.

(** The callback of the startup scan on a metadata file: the base path
    is enqueued unless the sidecar says "uploaded". *)
Lemma visit_metadata_file w u base :
  upload.HasSuffix (base +:+ ".json") ".upload.json" = false →
  upload.visit w u (upload.mkWalkEntry (base +:+ ".json") false false)
  = if String.eqb
         (upload.Status
            (upload.loadOrCreateStatus w (base +:+ ".upload.json")
               (upload.Base base)))
         "uploaded"
    then u else upload.Enqueue u base.
Proof.
  intros Hns. unfold upload.visit. simpl.
  rewrite HasSuffix_append, Hns, TrimSuffix_append. simpl.
  by destruct (String.eqb _ "uploaded").
Qed.

(** C8: [processJob] on a job whose sidecar reads as "uploaded" returns
    the world it was given: no request is sent and no file, the sidecar
    included, is written. *)
Theorem processJob_uploaded_is_noop env u basePath w data st :
  os_ReadFile (basePath +:+ ".upload.json") (upload.fs w) = Some data →
  upload.json_Unmarshal_status data = Some st →
  upload.Status st = "uploaded" →
  upload.processJob env u basePath w = w.
Proof.
  intros Hr Hu Hst. unfold upload.processJob.
  rewrite (loadOrCreateStatus_found _ _ _ data st) by done.
  by rewrite Hst.
Qed.

(** C2, what the code does: the startup scan enqueues the base path of
    a job whose sidecar reads as "failed". *)
Theorem scanPending_enqueues_failed_job done_at w u base data st :
  config.Enabled (upload.cfg u) = true →
  len (upload.queue u) < upload.queueCap →
  done_at 0%nat = false →
  upload.HasSuffix (base +:+ ".json") ".upload.json" = false →
  os_ReadFile (base +:+ ".upload.json") (upload.fs w) = Some data →
  upload.json_Unmarshal_status data = Some st →
  upload.Status st = "failed" →
  upload.queue
    (upload.scanPending done_at 0 w u
       [upload.mkWalkEntry (base +:+ ".json") false false])
  = upload.queue u ++ [base].
Proof.
  intros Hen Hroom Hdone Hns Hr Hu Hst. simpl. rewrite Hdone.
  rewrite visit_metadata_file by done.
  rewrite (loadOrCreateStatus_found _ _ _ data st) by done.
  rewrite Hst. simpl. unfold upload.Enqueue. rewrite Hen. simpl.
  by apply Z.ltb_lt in Hroom as ->.
Qed.

End Uploader.

(** ** Worked examples *)

Section Examples.

Import examples.

(** C10 at an open job, even with the disk below its threshold. *)
Lemma Save_unclosed_leaves_filesystem_witness :
  job.IsClosed open_job = false
  ∧ @job.Save libs store sys_below open_job fs0 = (fs0, Some job.ErrUnclosed).
Proof.
  split; [reflexivity|].
  apply (@Save_unclosed_leaves_filesystem libs). reflexivity.
Defined.

(** C9 with a failing [Statfs] and a store asking for 100 MiB. *)
Lemma statfs_failure_passes_disk_gate_witness :
  job.statfs sys_statfs_fails = None
  ∧ job.hasEnoughSpace store sys_statfs_fails = true
  ∧ (@job.Save libs store sys_statfs_fails closed_job fs0).2 = None.
Proof.
  split; [reflexivity|].
  destruct (@statfs_failure_passes_disk_gate libs store sys_statfs_fails
              eq_refl) as (Hgate & Hsave).
  split; [exact Hgate|].
  destruct (Hsave closed_job fs0 eq_refl) as (_ & Hgoes).
  by destruct (Hgoes eq_refl eq_refl eq_refl [Byte.x7b; Byte.x7d] eq_refl)
    as (Hnil & _).
Defined.

(** C7 as stated fails: with [min_free_mb = -1] and 1 GiB free, the
    free mebibytes exceed the minimum and yet the gate is shut and [Save]
    refuses the job. *)
Lemma negative_minimum_shuts_the_gate :
  job.availMB 262144 4096 >= job.minFreeMB store_negative
  ∧ job.hasEnoughSpace store_negative sys_ok = false
  ∧ @job.Save libs store_negative sys_ok closed_job fs0
    = (fs0, Some (job.ErrDiskSpace (-1))).
Proof. vm_compute. repeat split; discriminate. Qed.

(** C7 with 25600 free blocks of 4096 bytes, exactly 100 MiB. *)
Lemma disk_gate_threshold_witness :
  job.statfs sys_at_threshold = Some (25600, 4096)
  ∧ job.availMB 25600 4096 = job.minFreeMB store
  ∧ job.hasEnoughSpace store sys_at_threshold = true.
Proof.
  split; [reflexivity|]. split; [reflexivity|].
  destruct (@disk_gate_threshold libs store sys_at_threshold 25600 4096)
    as (_ & _ & Hat & _);
    [reflexivity | vm_compute; split; discriminate || reflexivity |].
  apply Hat; [vm_compute; discriminate | reflexivity].
Defined.

(** C3 as stated fails: the rename of the metadata file fails and the
    unlink of the payload file is refused; [Save] returns the error and
    the [.bin] file is left on disk without a [.json] file. *)
Lemma refused_unlink_leaves_bin_behind :
  let r := @job.Save libs store sys_unlink_refused closed_job fs0 in
  job.IsClosed closed_job = true
  ∧ r.2 = Some job.ErrWriteMetadata
  ∧ files r.1 !! (job_base +:+ ".bin") = Some order_text
  ∧ files r.1 !! (job_base +:+ ".json") = None.
Proof. vm_compute. repeat split. Qed.

(** C3 when the rename of the metadata file fails and the unlink works. *)
Lemma Save_metadata_failure_removes_bin_witness :
  job.IsClosed closed_job = true
  ∧ job.json_fault sys_json_rename_fails ≠ job.WNone
  ∧ files (@job.Save libs store sys_json_rename_fails closed_job fs0).1
      !! (job_base +:+ ".bin") = None.
Proof.
  split; [reflexivity|]. split; [discriminate|].
  destruct (@Save_metadata_failure_removes_bin libs store
              sys_json_rename_fails closed_job fs0
              eq_refl eq_refl eq_refl eq_refl)
    as (_ & Hbin & _); [right; discriminate|].
  exact Hbin.
Defined.

(** C5 as stated fails: tagging a closed job changes its tags, and
    [SetReprintOf] changes its back-reference. *)
Lemma closed_job_is_still_tagged :
  job.closed closed_job = true
  ∧ job.Tags (job.Meta (job.AddTag closed_job "late"))
    ≠ job.Tags (job.Meta closed_job)
  ∧ job.ReprintOfJobID (job.Meta (job.SetReprintOf closed_job "job-0"))
    ≠ job.ReprintOfJobID (job.Meta closed_job).
Proof. vm_compute. repeat split; discriminate. Qed.

Lemma closed_job_sealed_fields_witness :
  job.closed closed_job = true
  ∧ job.Append closed_job [Byte.x0a] = (closed_job, false).
Proof.
  split; [reflexivity|].
  apply (@closed_job_sealed_fields libs closed_job). reflexivity.
Defined.

(** C4 at a session whose job received no payload. *)
Lemma finalize_skips_empty_job_witness :
  job.ByteLen (job.Meta (@job.Close libs 3000 (capture.job sess_empty))) = 0
  ∧ @capture.finalizeSession libs env_ok capturer sess_empty fs0
    = (capturer,
       capture.set_job sess_empty
         (@job.Close libs 3000 (capture.job sess_empty)),
       fs0).
Proof.
  split; [reflexivity|].
  apply (@finalize_skips_empty_job libs env_ok capturer sess_empty fs0).
  reflexivity.
Defined.

(** C1 as stated fails: with the disk below its threshold [Save]
    refuses the job and nothing is written, yet the detector, empty
    before, now holds the job's hash. *)
Lemma failed_save_is_still_recorded :
  let sealed := @job.Close libs 3000 open_job in
  let r := @capture.finalizeSession libs env_disk_low capturer sess_open fs0 in
  (@job.Save libs store sys_below sealed fs0).2 = Some (job.ErrDiskSpace 100)
  ∧ r.2 = fs0
  ∧ (capture.reprint capturer ≫= λ rd, job.hashes rd !! job.GetHash sealed)
    = None
  ∧ (capture.reprint r.1.1 ≫= λ rd, job.hashes rd !! job.GetHash sealed)
    = Some [job.mkHashEntry "job-1" "192.168.1.50" 3000].
Proof. vm_compute. repeat split. Qed.

Lemma finalize_records_whatever_save_returns_witness :
  capture.reprint capturer = Some (job.NewReprintDetector 300)
  ∧ job.ByteLen (job.Meta (@job.Close libs 3000 open_job)) ≠ 0
  ∧ (capture.reprint
       (@capture.finalizeSession libs env_disk_low capturer sess_open fs0).1.1
     ≫= λ rd', job.hashes rd' !! job.GetHash (@job.Close libs 3000 open_job))
    = Some [job.mkHashEntry "job-1" "192.168.1.50" 3000].
Proof.
  split; [reflexivity|]. split; [discriminate|].
  destruct (@finalize_records_whatever_save_returns libs env_disk_low
              capturer sess_open fs0 (job.NewReprintDetector 300)
              eq_refl)
    as (_ & _ & Hbucket & _); [discriminate|].
  exact Hbucket.
Defined.



(** C8 at a stored job whose sidecar says "uploaded", with a webhook
    that would answer 500. *)
Lemma processJob_uploaded_is_noop_witness :
  os_ReadFile (job_base +:+ ".upload.json")
    (upload.fs (world_with_sidecar "uploaded"))
  = Some (String.list_byte_of_string "uploaded")
  ∧ @upload.processJob codec env_webhook_down uploader job_base
      (world_with_sidecar "uploaded")
    = world_with_sidecar "uploaded".
Proof.
  split; [reflexivity|].
  eapply (@processJob_uploaded_is_noop codec); reflexivity.
Defined.

(** C2 at a stored job whose sidecar says "failed". *)
Lemma scanPending_enqueues_failed_job_witness :
  upload.Status
    (@upload.loadOrCreateStatus codec (world_with_sidecar "failed")
       (job_base +:+ ".upload.json") "job-1") = "failed"
  ∧ upload.queue
      (@upload.scanPending codec (λ _, false) 0 (world_with_sidecar "failed")
         uploader [upload.mkWalkEntry (job_base +:+ ".json") false false])
    = [job_base].
Proof.
  split; [reflexivity|].
  eapply (@scanPending_enqueues_failed_job codec (λ _, false)
            (world_with_sidecar "failed") uploader job_base);
    reflexivity.
Defined.

End Examples.


(** * Further properties of the code *)

(** ** Job: appending, sealing, tagging *)

Section JobMore.

Context `{L : job.Libs}.
Implicit Types (j : job.Job).

Lemma append_all_open j chunks :
  job.closed j = false →
  spec.append_all j chunks
  = job.mkJob (job.Meta j) (job.Data j ++ concat chunks) false.
Proof.
  revert j. induction chunks as [|d chunks IH]; intros j Ho.
  - simpl. rewrite app_nil_r. destruct j; simpl in *; by subst.
  - unfold spec.append_all. simpl. fold (spec.append_all (job.Append j d).1 chunks).
    unfold job.Append at 1. rewrite Ho. simpl.
    rewrite IH by done. simpl. by rewrite <- app_assoc.
Qed.

(** X1: a job that is open takes every chunk appended to it, in order,
    and [Close] then seals exactly that payload: length, digest and end
    timestamp are those of the whole buffer, the other metadata is
    untouched. *)
Theorem Close_seals_appended_payload now j chunks :
  job.closed j = false →
  let j' := job.Close now (spec.append_all j chunks) in
  job.Data j' = job.Data j ++ concat chunks
  ∧ job.ByteLen (job.Meta j') = len (job.Data j ++ concat chunks)
  ∧ job.SHA256 (job.Meta j') = job.sha256_hex (job.Data j ++ concat chunks)
  ∧ job.CaptureEndTS (job.Meta j') = now
  ∧ job.closed j' = true
  ∧ job.JobID (job.Meta j') = job.JobID (job.Meta j)
  ∧ job.CaptureStartTS (job.Meta j') = job.CaptureStartTS (job.Meta j)
  ∧ job.Tags (job.Meta j') = job.Tags (job.Meta j).
Proof.
  intros Ho j'. unfold j'. rewrite append_all_open by done.
  unfold job.Close. simpl. repeat split.
Qed.

(** X2: the consistency of a closed job (its length and digest are those
    of its payload) holds for a new job and is kept by every method. *)
Theorem sealed_ok_invariant j :
  (∀ uuid now dev site ip port src tr,
     spec.sealed_ok (job.New uuid now dev site ip port src tr))
  ∧ (spec.sealed_ok j →
     (∀ data, spec.sealed_ok (job.Append j data).1)
     ∧ (∀ now, spec.sealed_ok (job.Close now j))
     ∧ (∀ tag, spec.sealed_ok (job.AddTag j tag))
     ∧ (∀ id, spec.sealed_ok (job.SetReprintOf j id))).
Proof.
  unfold spec.sealed_ok. split; [intros; simpl in *; discriminate|].
  intros Hok. split; [|split; [|split]].
  - intros data. unfold job.Append.
    destruct (job.closed j) eqn:Hc; simpl; [by rewrite Hc|].
    intros ?; discriminate.
  - intros now. unfold job.Close.
    destruct (job.closed j) eqn:Hc; [by rewrite Hc|done].
  - intros tag. exact Hok.
  - intros id Hc'.
    destruct (SetReprintOf_sealed j id) as (Hd & Hh & _ & Hl & _ & _ & Hc).
    rewrite Hl, Hh, Hd. apply Hok. by rewrite <- Hc.
Qed.

(** X3: [SetReprintOf] adds the "reprint" tag at most once: a second call
    only replaces the back-reference, and a tag list without duplicates
    stays without duplicates; a job that has no such tag yet gets it
    appended. *)
Theorem SetReprintOf_tags_once j a b :
  let j1 := job.SetReprintOf j a in
  let j2 := job.SetReprintOf j1 b in
  job.Tags (job.Meta j2) = job.Tags (job.Meta j1)
  ∧ job.ReprintOfJobID (job.Meta j2) = b
  ∧ (NoDup (job.Tags (job.Meta j)) → NoDup (job.Tags (job.Meta j1)))
  ∧ ("reprint" ∉ job.Tags (job.Meta j) →
     job.Tags (job.Meta j1) = job.Tags (job.Meta j) ++ ["reprint"]).
Proof.
  intros j1 j2.
  destruct (SetReprintOf_marks j a) as (_ & Hin & Hcases). fold j1 in Hin, Hcases.
  assert (Htag1 : job.has_reprint_tag (job.Tags (job.Meta j1)) = true)
    by by apply has_reprint_tag_elem.
  repeat split.
  - unfold j2, job.SetReprintOf. simpl. by rewrite Htag1.
  - by destruct (SetReprintOf_marks j1 b) as (? & _ & _).
  - intros Hnd. unfold j1, job.SetReprintOf. simpl.
    destruct (job.has_reprint_tag (job.Tags (job.Meta j))) eqn:Ht; simpl; [done|].
    apply NoDup_app. split; [done|]. split; [|apply NoDup_singleton].
    intros x Hx ->%list_elem_of_singleton.
    apply has_reprint_tag_elem in Hx. congruence.
  - intros Hnot. unfold j1, job.SetReprintOf. simpl.
    destruct (job.has_reprint_tag (job.Tags (job.Meta j))) eqn:Ht; simpl; [|done].
    by apply has_reprint_tag_elem in Ht.
Qed.

End JobMore.

(** ** Store: atomic writes and the outcome of Save *)

Lemma dirs_writeFileAtomic flt refused tmp final data fs :
  dirs (job.writeFileAtomic flt refused tmp final data fs).1 = dirs fs.
Proof.
  destruct flt; simpl; rewrite ?dirs_Remove; try done.
  unfold os_Rename. by destruct (files _ !! tmp).
Qed.

(** X4: [writeFileAtomic] is all or nothing on the final name: it
    succeeds exactly when no step fails, the final file then holds the
    data, and otherwise it is what it was.  The temporary file is gone
    after a success and after a failure whose clean-up removal takes
    effect; when that removal is refused, a prefix of the data stays
    under the temporary name.  No other file and no directory changes. *)
Theorem writeFileAtomic_all_or_nothing flt refused tmp final data fs :
  final ≠ tmp →
  let r := job.writeFileAtomic flt refused tmp final data fs in
  (r.2 = true ↔ flt = job.WNone)
  ∧ files r.1 !! final = (if r.2 then Some data else files fs !! final)
  ∧ (flt = job.WNone ∨ (flt ≠ job.WOpen ∧ refused = false) →
     files r.1 !! tmp = None)
  ∧ (flt ≠ job.WNone → flt ≠ job.WOpen → refused = true →
     ∃ left, files r.1 !! tmp = Some left ∧ left `prefix_of` data)
  ∧ (∀ q, q ≠ tmp → q ≠ final → files r.1 !! q = files fs !! q)
  ∧ dirs r.1 = dirs fs.
Proof.
  intros Hne r. split; [apply writeFileAtomic_result|].
  pose proof (dirs_writeFileAtomic flt refused tmp final data fs) as Hdirs.
  fold r in Hdirs.
  destruct (job.writeFileAtomic flt refused tmp final data fs)
    as [fs' ok] eqn:Hw.
  unfold r in *. simpl in *. destruct ok.
  - destruct (writeFileAtomic_ok tmp final data fs Hne flt refused fs' Hw)
      as (-> & Hfin & Htmp & Hrest).
    split; [done|]. split; [done|]. split; [done|]. split; [|done].
    intros q Hq1 Hq2. by apply Hrest.
  - destruct (writeFileAtomic_fail tmp final data fs Hne flt refused fs' Hw)
      as (Hflt & Hrest).
    split; [by apply Hrest|]. split; [|split; [|split; [|done]]].
    + intros [->|[Hopen ->]]; [done|].
      destruct flt; simplify_eq/=; try done; apply lookup_delete_eq.
    + intros _ Hopen ->.
      destruct flt; simplify_eq/=; try done; rewrite lookup_insert_eq;
        eexists; (split; [done|]);
        [apply prefix_take | done | done | done].
    + intros q Hq _. by apply Hrest.
Qed.

Section StoreMore.

Context `{L : job.Libs}.
Implicit Types (s : job.Store) (env : job.SysEnv) (j : job.Job) (fs : FileSys).

(** [Save] once the job is closed, the gate is open and the directory
    exists: the two atomic writes. *)
Lemma Save_writes s env j fs :
  job.IsClosed j = true → job.hasEnoughSpace s env = true →
  job.mkdir_fail env = None →
  let base := job.GetJobPath s (job.JobID (job.Meta j))
                (job.CaptureStartTS (job.Meta j)) in
  let fs1 := (os_MkdirAll None (job.basePath s)
                (job.jobDir s (job.CaptureStartTS (job.Meta j))) fs).1 in
  let w2 := job.writeFileAtomic (job.bin_fault env)
              (job.remove_refused env ((base +:+ ".bin") +:+ ".tmp"))
              ((base +:+ ".bin") +:+ ".tmp") (base +:+ ".bin") (job.Data j) fs1 in
  job.Save s env j fs
  = if w2.2 then
      match job.json_MarshalIndent (job.Meta j) with
      | None =>
          ((os_Remove (job.remove_refused env (base +:+ ".bin"))
              (base +:+ ".bin") w2.1).1, Some job.ErrMarshal)
      | Some metaBytes =>
          let w3 := job.writeFileAtomic (job.json_fault env)
                      (job.remove_refused env ((base +:+ ".json") +:+ ".tmp"))
                      ((base +:+ ".json") +:+ ".tmp") (base +:+ ".json")
                      metaBytes w2.1 in
          if w3.2 then (w3.1, None)
          else ((os_Remove (job.remove_refused env (base +:+ ".bin"))
                   (base +:+ ".bin") w3.1).1, Some job.ErrWriteMetadata)
      end
    else (w2.1, Some job.ErrWriteBinary).
Proof.
  intros Hc Hg Hm base fs1 w2. unfold job.Save. rewrite Hc, Hg, Hm.
  unfold os_MkdirAll. cbv beta iota zeta. fold base.
  unfold w2, fs1, os_MkdirAll. cbv beta iota zeta.
  destruct (job.writeFileAtomic (job.bin_fault env) _ _ _ _ _) as [fs2 [|]];
    [|done].
  simpl. destruct (job.json_MarshalIndent (job.Meta j)); [|done].
  by destruct (job.writeFileAtomic (job.json_fault env) _ _ _ _ _) as [fs3 [|]].
Qed.

Lemma writeFileAtomic_snd flt refused tmp final data fs :
  (job.writeFileAtomic flt refused tmp final data fs).2
  = match flt with job.WNone => true | _ => false end.
Proof. by destruct flt. Qed.

Lemma Save_nil_iff s env j fs :
  (job.Save s env j fs).2 = None
  ↔ job.IsClosed j = true ∧ job.hasEnoughSpace s env = true
    ∧ job.mkdir_fail env = None ∧ job.bin_fault env = job.WNone
    ∧ is_Some (job.json_MarshalIndent (job.Meta j))
    ∧ job.json_fault env = job.WNone.
Proof.
  split.
  - intros Hnil.
    destruct (job.IsClosed j) eqn:Hc;
      [|unfold job.Save in Hnil; by rewrite Hc in Hnil].
    destruct (job.hasEnoughSpace s env) eqn:Hg;
      [|by rewrite Save_gate_shut in Hnil].
    destruct (job.mkdir_fail env) as [k|] eqn:Hm.
    { unfold job.Save in Hnil. by rewrite Hc, Hg, Hm in Hnil. }
    rewrite Save_writes in Hnil by done. cbv zeta in Hnil.
    rewrite writeFileAtomic_snd in Hnil.
    destruct (job.bin_fault env); try done.
    destruct (job.json_MarshalIndent (job.Meta j)) as [metaBytes|]; [|done].
    rewrite writeFileAtomic_snd in Hnil.
    by destruct (job.json_fault env).
  - intros (Hc & Hg & Hm & Hb & [metaBytes Hmeta] & Hj).
    rewrite Save_writes by done. cbv zeta.
    rewrite writeFileAtomic_snd, Hb, Hmeta, writeFileAtomic_snd, Hj. done.
Qed.


Lemma Save_nil_effect s env j fs :
  (job.Save s env j fs).2 = None →
  let base := job.GetJobPath s (job.JobID (job.Meta j))
                (job.CaptureStartTS (job.Meta j)) in
  let fs' := (job.Save s env j fs).1 in
  files fs' !! (base +:+ ".bin") = Some (job.Data j)
  ∧ files fs' !! (base +:+ ".json") = job.json_MarshalIndent (job.Meta j)
  ∧ files fs' !! ((base +:+ ".bin") +:+ ".tmp") = None
  ∧ files fs' !! ((base +:+ ".json") +:+ ".tmp") = None
  ∧ ∀ q, q ≠ base +:+ ".bin" → q ≠ base +:+ ".json" →
         q ≠ (base +:+ ".bin") +:+ ".tmp" → q ≠ (base +:+ ".json") +:+ ".tmp" →
         files fs' !! q = files fs !! q.
Proof.
  intros Hnil base fs'.
  apply Save_nil_iff in Hnil
    as (Hc & Hg & Hm & Hb & [metaBytes Hmeta] & Hj).
  destruct (job_paths_distinct base) as (Hbj & Hbjt & Hbbt & Hjjt).
  destruct (job_paths_distinct_tmp base) as (Htt & Hjbt).
  unfold fs'. rewrite Save_writes by done. cbv zeta. fold base.
  rewrite Hb, Hj, Hmeta.
  destruct (job.writeFileAtomic job.WNone _ ((base +:+ ".bin") +:+ ".tmp")
              (base +:+ ".bin") (job.Data j) _) as [fs2 ok2] eqn:Hw2.
  assert (ok2 = true) as ->
    by (apply (f_equal snd) in Hw2; by rewrite writeFileAtomic_snd in Hw2).
  apply writeFileAtomic_ok in Hw2 as (_ & Hbin & Hbt & Hrest2); [|done].
  cbv beta iota.
  destruct (job.writeFileAtomic job.WNone _ ((base +:+ ".json") +:+ ".tmp")
              (base +:+ ".json") metaBytes _) as [fs3 ok3] eqn:Hw3.
  assert (ok3 = true) as ->
    by (apply (f_equal snd) in Hw3; by rewrite writeFileAtomic_snd in Hw3).
  apply writeFileAtomic_ok in Hw3 as (_ & Hjson & Hjt & Hrest3); [|done].
  cbn [fst snd].
  split; [by rewrite Hrest3|]. split; [done|].
  split; [by rewrite Hrest3|]. split; [done|].
  intros q Hq1 Hq2 Hq3 Hq4.
  rewrite Hrest3, Hrest2 by done. by rewrite files_MkdirAll.
Qed.

(** X5: when [Save] returns nil, the [.bin] file holds the payload and
    the [.json] file the marshalled metadata, neither temporary file is
    left, and every other file is as it was. *)
Theorem Save_success_effect s env j fs :
  (job.Save s env j fs).2 = None →
  let base := job.GetJobPath s (job.JobID (job.Meta j))
                (job.CaptureStartTS (job.Meta j)) in
  let fs' := (job.Save s env j fs).1 in
  files fs' !! (base +:+ ".bin") = Some (job.Data j)
  ∧ files fs' !! (base +:+ ".json") = job.json_MarshalIndent (job.Meta j)
  ∧ files fs' !! ((base +:+ ".bin") +:+ ".tmp") = None
  ∧ files fs' !! ((base +:+ ".json") +:+ ".tmp") = None
  ∧ ∀ q, q ≠ base +:+ ".bin" → q ≠ base +:+ ".json" →
         q ≠ (base +:+ ".bin") +:+ ".tmp" → q ≠ (base +:+ ".json") +:+ ".tmp" →
         files fs' !! q = files fs !! q.
Proof. apply Save_nil_effect. Qed.

(** X6: a job that satisfies the closed-job consistency and was saved
    without error is on disk with a payload file of exactly [byte_len]
    bytes whose digest is the recorded [sha256]. *)
Theorem saved_payload_matches_metadata s env j fs :
  spec.sealed_ok j →
  (job.Save s env j fs).2 = None →
  ∃ payload,
    files (job.Save s env j fs).1
      !! (job.GetJobPath s (job.JobID (job.Meta j))
            (job.CaptureStartTS (job.Meta j)) +:+ ".bin") = Some payload
    ∧ len payload = job.ByteLen (job.Meta j)
    ∧ job.sha256_hex payload = job.SHA256 (job.Meta j).
Proof.
  intros Hok Hnil.
  destruct (Save_nil_effect s env j fs Hnil) as (Hbin & _).
  apply Save_nil_iff in Hnil as (Hc & _).
  destruct (Hok Hc) as (Hlen & Hsha).
  exists (job.Data j). by rewrite Hbin, Hlen, Hsha.
Qed.

(** X7: when [Save] returns an error, no file other than the [.bin] file
    and the two temporary files has changed (the [.json] file of the job
    in particular).  The [.bin] file itself is untouched when the error
    arose at or before its write.  When the error arose after, [Save]
    tried to remove it: it is absent when the removal took effect, and
    holds the payload when the system refused the removal. *)
Theorem Save_error_frame s env j fs err :
  (job.Save s env j fs).2 = Some err →
  let base := job.GetJobPath s (job.JobID (job.Meta j))
                (job.CaptureStartTS (job.Meta j)) in
  let fs' := (job.Save s env j fs).1 in
  (∀ q, q ≠ base +:+ ".bin" → q ≠ (base +:+ ".bin") +:+ ".tmp" →
        q ≠ (base +:+ ".json") +:+ ".tmp" →
        files fs' !! q = files fs !! q)
  ∧ (err = job.ErrMarshal ∨ err = job.ErrWriteMetadata →
     files fs' !! (base +:+ ".bin")
     = if job.remove_refused env (base +:+ ".bin") then Some (job.Data j)
       else None)
  ∧ (err ≠ job.ErrMarshal → err ≠ job.ErrWriteMetadata →
     files fs' !! (base +:+ ".bin") = files fs !! (base +:+ ".bin")).
Proof.
  intros Herr base fs'. unfold fs'.
  destruct (job_paths_distinct base) as (Hbj & Hbjt & Hbbt & Hjjt).
  destruct (job_paths_distinct_tmp base) as (Htt & Hjbt).
  destruct (job.IsClosed j) eqn:Hc; cycle 1.
  { unfold job.Save in *. rewrite Hc in *. simpl in *. simplify_eq.
    repeat split; try done. by intros [|]. }
  destruct (job.hasEnoughSpace s env) eqn:Hg; cycle 1.
  { rewrite Save_gate_shut in * by done. simpl in *. simplify_eq.
    repeat split; try done. by intros [|]. }
  destruct (job.mkdir_fail env) as [k|] eqn:Hm.
  { unfold job.Save in *. rewrite Hc, Hg, Hm in *. simpl in *. simplify_eq.
    repeat split; try done. by intros [|]. }
  rewrite Save_writes in Herr |- * by done. cbv zeta in Herr |- *.
  fold base in Herr |- *.
  destruct (job.writeFileAtomic (job.bin_fault env) _
              ((base +:+ ".bin") +:+ ".tmp")
              (base +:+ ".bin") (job.Data j) _) as [fs2 ok2] eqn:Hw2.
  cbn [fst snd] in Herr |- *. destruct ok2; cycle 1.
  { cbn [fst snd] in Herr |- *. simplify_eq.
    apply writeFileAtomic_fail in Hw2 as (_ & Hrest2); [|done].
    rewrite files_MkdirAll in Hrest2.
    split; [|split].
    - intros q _ Hq _. by apply Hrest2.
    - by intros [|].
    - intros _ _. by apply Hrest2. }
  apply writeFileAtomic_ok in Hw2 as (_ & Hbin & _ & Hrest2); [|done].
  rewrite files_MkdirAll in Hrest2.
  destruct (job.json_MarshalIndent (job.Meta j)) as [metaBytes|].
  - destruct (job.writeFileAtomic (job.json_fault env) _
                ((base +:+ ".json") +:+ ".tmp") (base +:+ ".json") metaBytes fs2)
      as [fs3 ok3] eqn:Hw3.
    cbn [fst snd] in Herr |- *. destruct ok3; [done|].
    cbn [fst snd] in Herr |- *. simplify_eq.
    apply writeFileAtomic_fail in Hw3 as (_ & Hrest3); [|done].
    split; [|split].
    + intros q Hq1 Hq2 Hq3.
      rewrite files_Remove_ne, Hrest3, Hrest2 by done. done.
    + intros _. destruct (job.remove_refused env (base +:+ ".bin")).
      * rewrite Remove_refused, Hrest3 by done. done.
      * apply files_Remove_eq.
    + done.
  - cbn [fst snd] in Herr |- *. simplify_eq. split; [|split].
    + intros q Hq1 Hq2 Hq3.
      rewrite files_Remove_ne, Hrest2 by done. done.
    + intros _. destruct (job.remove_refused env (base +:+ ".bin")).
      * by rewrite Remove_refused.
      * apply files_Remove_eq.
    + done.
Qed.

(** X8: a negative [min_free_mb] is compared as an unsigned number, so
    whenever the free-space query succeeds the gate is shut and [Save]
    refuses every closed job with the disk-space error, leaving the
    filesystem as it is. *)
Theorem negative_min_free_mb_refuses_every_save s env bavail bsize j fs :
  job.statfs env = Some (bavail, bsize) →
  - 2 ^ 63 <= job.minFreeMB s < 0 →
  job.IsClosed j = true →
  job.Save s env j fs = (fs, Some (job.ErrDiskSpace (job.minFreeMB s))).
Proof.
  intros Hst Hneg Hc. apply Save_gate_shut; [done|].
  by apply (disk_gate_negative_minimum s env bavail bsize).
Qed.

End StoreMore.

(** ** The reprint detector *)

Section Reprint.

Implicit Types (rd : job.ReprintDetector) (e : job.hashEntry)
  (es : list job.hashEntry).

Lemma first_match_none now w ip es :
  existsb (spec.visible now w ip) es = false →
  job.first_match now w ip es = "".
Proof.
  induction es as [|e es IH]; [done|]. simpl. unfold spec.visible at 1.
  destruct (String.eqb _ _ && _); [done|]. exact IH.
Qed.

Lemma first_match_app now w ip es e :
  job.first_match now w ip (es ++ [e])
  = if existsb (spec.visible now w ip) es then job.first_match now w ip es
    else if spec.visible now w ip e then job.jobID e else "".
Proof.
  induction es as [|e0 es IH]; simpl.
  - unfold spec.visible. by destruct (String.eqb _ _ && _).
  - unfold spec.visible at 1. destruct (String.eqb _ _ && _); [done|].
    exact IH.
Qed.

Lemma time_Sub_mono now now' t : now <= now' → time_Sub now t <= time_Sub now' t.
Proof. unfold time_Sub. lia. Qed.

Lemma Check_Record_eq now now' rd hash ip id ip' :
  let es := default [] (job.hashes rd !! hash) in
  job.Check now' (job.Record_ now rd hash ip id) hash ip'
  = if existsb (spec.visible now' (job.window rd) ip') es
    then job.Check now' rd hash ip'
    else if String.eqb ip ip' && (time_Sub now' now <=? job.window rd)
         then id else "".
Proof.
  intros es. unfold job.Check, job.Record_. simpl.
  rewrite lookup_insert_eq, first_match_app. fold es.
  destruct (existsb _ es) eqn:Hex; [|done].
  unfold es in *. destruct (job.hashes rd !! hash); [done|]. done.
Qed.


(** A [Record] does not change what [Check] answers for another hash
    or for another printer. *)
Lemma Record_other now now' rd hash ip id hash' ip' :
  hash' ≠ hash ∨ ip' ≠ ip →
  job.Check now' (job.Record_ now rd hash ip id) hash' ip'
  = job.Check now' rd hash' ip'.
Proof.
  intros [Hh|Hip].
  - unfold job.Check, job.Record_. simpl. by rewrite lookup_insert_ne.
  - destruct (decide (hash' = hash)) as [->|Hh];
      [|unfold job.Check, job.Record_; simpl; by rewrite lookup_insert_ne].
    rewrite Check_Record_eq.
    destruct (existsb _ _) eqn:Hex; [done|].
    assert (String.eqb ip ip' = false) as ->
      by (apply String.eqb_neq; congruence).
    simpl. unfold job.Check.
    destruct (job.hashes rd !! hash) as [es|]; [|done].
    symmetry. by apply first_match_none.
Qed.

(** X9: what [Check] answers after a [Record].  For the recorded hash:
    an entry already visible for the asked printer still wins (the first
    match is returned); otherwise the new job is returned when the
    printer is the recorded one and the record is no older than the
    window, and the empty string when not.  For any other hash, and for
    any other printer, the answer is the one before the [Record]. *)
Theorem Check_after_Record now now' rd hash ip id :
  (∀ ip',
     job.Check now' (job.Record_ now rd hash ip id) hash ip'
     = if existsb (spec.visible now' (job.window rd) ip')
            (default [] (job.hashes rd !! hash))
       then job.Check now' rd hash ip'
       else if String.eqb ip ip' && (time_Sub now' now <=? job.window rd)
            then id else "")
  ∧ (∀ hash' ip', hash' ≠ hash ∨ ip' ≠ ip →
       job.Check now' (job.Record_ now rd hash ip id) hash' ip'
       = job.Check now' rd hash' ip').
Proof.
  split; [intros ip'; apply Check_Record_eq|].
  intros hash' ip'. apply Record_other.
Qed.

Lemma first_match_filter now w ip (P : job.hashEntry → Prop)
    `{∀ e, Decision (P e)} es :
  (∀ e, spec.visible now w ip e = true → P e) →
  job.first_match now w ip (filter P es) = job.first_match now w ip es.
Proof.
  intros Hvis. induction es as [|e es IH]; [done|].
  rewrite filter_cons. simpl.
  destruct (String.eqb (job.printerIP e) ip
            && (time_Sub now (job.timestamp e) <=? w)) eqn:Hv.
  - rewrite decide_True by (by apply Hvis). simpl. by rewrite Hv.
  - destruct (decide (P e)); [|done]. simpl. by rewrite Hv.
Qed.

Lemma cleanup_lookup now rd hash :
  job.hashes (job.cleanup now rd) !! hash
  = job.hashes rd !! hash ≫= λ entries,
      match filter (λ e, time_Sub now (job.timestamp e) <= job.cleanTTL rd)
              entries with
      | [] => None
      | valid => Some valid
      end.
Proof. unfold job.cleanup. simpl. apply lookup_omap. Qed.

(** X10: the sweep never changes an answer of [Check]: when the window
    is at most the sweep's time-to-live, [Check] at the time of the
    sweep or later answers the same on the swept detector. *)
Theorem cleanup_preserves_Check now now' rd hash ip :
  job.window rd <= job.cleanTTL rd → now <= now' →
  job.Check now' (job.cleanup now rd) hash ip = job.Check now' rd hash ip.
Proof.
  intros Hw Hnow. unfold job.Check. rewrite cleanup_lookup.
  destruct (job.hashes rd !! hash) as [es|]; [|done]. simpl.
  assert (Hkeep : ∀ e, spec.visible now' (job.window rd) ip e = true →
                       time_Sub now (job.timestamp e) <= job.cleanTTL rd).
  { intros e [_ Hle%Z.leb_le]%andb_true_iff.
    pose proof (time_Sub_mono now now' (job.timestamp e) Hnow). lia. }
  pose proof (first_match_filter now' (job.window rd) ip _ es Hkeep) as Hfm.
  destruct (filter _ es) as [|e0 valid]; [by rewrite <- Hfm|].
  by rewrite <- Hfm.
Qed.

(** After a sweep every bucket is non-empty and is the old bucket
    restricted, in order, to the entries no older than the time-to-live;
    the window and the time-to-live are unchanged. *)
Lemma cleanup_keeps_fresh_entries now rd :
  job.window (job.cleanup now rd) = job.window rd
  ∧ job.cleanTTL (job.cleanup now rd) = job.cleanTTL rd
  ∧ ∀ hash es,
      job.hashes (job.cleanup now rd) !! hash = Some es ↔
      es ≠ []
      ∧ ∃ old, job.hashes rd !! hash = Some old
               ∧ es = filter (λ e, time_Sub now (job.timestamp e)
                                    <= job.cleanTTL rd) old.
Proof.
  split; [done|]. split; [done|]. intros hash es. rewrite cleanup_lookup.
  destruct (job.hashes rd !! hash) as [old|]; simpl.
  - destruct (filter _ old) as [|e0 valid] eqn:Hf.
    + split; [done|]. intros (Hne & old' & Hold & Heq).
      injection Hold as <-. by rewrite Hf in Heq.
    + split.
      * intros [= <-]. split; [done|]. by exists old.
      * intros (_ & old' & Hold & Heq). injection Hold as <-.
        by rewrite Hf in Heq; subst.
  - split; [done|]. by intros (_ & old' & Hold & _).
Qed.

(** For a window of [windowSeconds] that fits (twice the window, in
    nanoseconds, below 2^63) the new detector has that window, twice the
    window as time-to-live, and no entry: [Check] answers the empty
    string. *)
Lemma NewReprintDetector_durations windowSeconds :
  0 <= windowSeconds → 2 * windowSeconds * Second < 2 ^ 63 →
  let rd := job.NewReprintDetector windowSeconds in
  job.window rd = windowSeconds * Second
  ∧ job.cleanTTL rd = 2 * job.window rd
  ∧ job.window rd <= job.cleanTTL rd
  ∧ ∀ now hash ip, job.Check now rd hash ip = "".
Proof.
  intros Hpos Hfit rd. unfold Second in *.
  assert (Hw : job.window rd = windowSeconds * 1000000000).
  { unfold rd, job.NewReprintDetector, Second. simpl.
    rewrite (wrap64_small windowSeconds) by (unfold in_int64; lia).
    apply wrap64_small. unfold in_int64. lia. }
  assert (Ht : job.cleanTTL rd = 2 * (windowSeconds * 1000000000)).
  { unfold rd, job.NewReprintDetector, Second. simpl.
    rewrite (wrap64_small (windowSeconds * 2)) by (unfold in_int64; lia).
    rewrite (wrap64_small (windowSeconds * 2)) by (unfold in_int64; lia).
    rewrite wrap64_small by (unfold in_int64; lia). lia. }
  rewrite Hw, Ht. repeat split; try lia.
Qed.

End Reprint.


(** ** Capture: which packets have an effect *)

Section PacketsMore.

Context `{L : job.Libs}.
Implicit Types (env : capture.Env) (c : capture.Capturer)
  (sess : capture.session) (fs : FileSys) (packet : capture.Packet)
  (tcp : capture.TCP).

Lemma isPrinterPort_iff c port :
  capture.isPrinterPort c port = true
  ↔ (port = 9100 ∧ config.Port9100Enabled (config.Capture (capture.cfg c)) = true)
    ∨ (port = 515 ∧ config.Port515Enabled (config.Capture (capture.cfg c)) = true).
Proof.
  unfold capture.isPrinterPort.
  destruct (Z.eqb_spec port 9100) as [H1|H1];
    destruct (Z.eqb_spec port 515) as [H2|H2];
    destruct (config.Port9100Enabled _); destruct (config.Port515Enabled _);
    simpl; (split; [intros ?; try done; (by left) || (by right)
                   |intros [[? ?]|[? ?]]; try done; exfalso; lia]).
Qed.

Lemma foreign_ignored env c packet fs :
  capture.networkLayer packet = None
  ∨ capture.networkLayer packet = Some capture.OtherNetwork
  ∨ capture.tcpLayer packet = None
  ∨ (∃ tcp, capture.tcpLayer packet = Some tcp
            ∧ capture.isPrinterPort c (capture.SrcPort tcp) = false
            ∧ capture.isPrinterPort c (capture.DstPort tcp) = false) →
  capture.handlePacket env c packet fs = (c, fs).
Proof.
  unfold capture.handlePacket.
  intros [-> | [-> | [Ht | (tcp & Ht & Hs & Hd)]]]; try done.
  - rewrite Ht. by destruct (capture.networkLayer packet) as [[| |]|].
  - rewrite Ht, Hs, Hd. by destruct (capture.networkLayer packet) as [[| |]|].
Qed.


(** The transport tag of an enabled printer port is "tcp9100" or
    "lpd", never "unknown"; and only ports 9100 and 515 can be printer
    ports. *)
Lemma printer_port_transport c port :
  capture.isPrinterPort c port = true →
  (port = 9100 ∧ capture.getTransport port = "tcp9100")
  ∨ (port = 515 ∧ capture.getTransport port = "lpd").
Proof.
  intros [[-> _]|[-> _]]%isPrinterPort_iff; [by left|by right].
Qed.

(** The common prefix of [handlePacket] for a TCP packet one of whose
    ports is a printer port. *)
Lemma handlePacket_classified env c packet fs srcIP dstIP tcp :
  capture.networkLayer packet = Some (capture.IPv4 srcIP dstIP)
  ∨ capture.networkLayer packet = Some (capture.IPv6 srcIP dstIP) →
  capture.tcpLayer packet = Some tcp →
  capture.isPrinterPort c (capture.DstPort tcp) = true
  ∨ capture.isPrinterPort c (capture.SrcPort tcp) = true →
  let key := spec.packet_key c srcIP dstIP tcp in
  let toward := capture.isPrinterPort c (capture.DstPort tcp) in
  capture.handlePacket env c packet fs
  = if capture.FIN tcp || capture.RST tcp then
      match capture.sessions c !! key with
      | Some sess =>
          let fin := capture.finalizeSession env c sess fs in
          (capture.set_sessions fin.1.1 (delete key (capture.sessions fin.1.1)),
           fin.2)
      | None => (c, fs)
      end
    else if negb toward then (c, fs)
    else
      match capture.sessions c !! key with
      | None =>
          if capture.SYN tcp then
            (capture.set_sessions c
               (<[key := capture.mkSession
                           (job.New (capture.new_uuid env) (capture.now_new env)
                              (config.DeviceID (capture.cfg c))
                              (config.SiteID (capture.cfg c))
                              dstIP (capture.DstPort tcp) srcIP
                              (capture.getTransport (capture.DstPort tcp)))
                           (capture.now_seen env) srcIP dstIP
                           (capture.SrcPort tcp) (capture.DstPort tcp)
                           (capture.getTransport (capture.DstPort tcp)) ∅ 0 false]>
                  (capture.sessions c)), fs)
          else (c, fs)
      | Some sess =>
          (capture.capturePayload env c key sess tcp
             (capture.applicationLayer packet), fs)
      end.
Proof.
  intros Hnl Htcp Hport key toward. unfold capture.handlePacket.
  unfold key, toward, spec.packet_key.
  destruct Hnl as [-> | ->]; rewrite Htcp;
    (destruct (capture.isPrinterPort c (capture.DstPort tcp)) eqn:Hd;
     [|destruct Hport as [?|Hs]; [done|rewrite Hs]]);
    cbv beta iota zeta;
    destruct (capture.FIN tcp || capture.RST tcp); simpl; try done;
    destruct (capture.sessions c !! _) as [sess|]; try done;
    by destruct (capture.finalizeSession env c sess fs) as [[c1 s1] fs1].
Qed.

(** X11: a packet that finds no session under its key changes nothing,
    unless it is a SYN toward the printer without FIN and RST: payload of
    a flow whose SYN was not seen is dropped, and so is every FIN, RST or
    reply of an unknown flow. *)
Theorem handlePacket_without_session env c packet fs srcIP dstIP tcp :
  capture.networkLayer packet = Some (capture.IPv4 srcIP dstIP)
  ∨ capture.networkLayer packet = Some (capture.IPv6 srcIP dstIP) →
  capture.tcpLayer packet = Some tcp →
  capture.sessions c !! spec.packet_key c srcIP dstIP tcp = None →
  capture.isPrinterPort c (capture.DstPort tcp) = false
  ∨ capture.SYN tcp = false ∨ capture.FIN tcp = true ∨ capture.RST tcp = true →
  capture.handlePacket env c packet fs = (c, fs).
Proof.
  intros Hnl Htcp Hnone Hcase.
  destruct (capture.isPrinterPort c (capture.DstPort tcp)) eqn:Hd;
    [|destruct (capture.isPrinterPort c (capture.SrcPort tcp)) eqn:Hs];
    [| |apply foreign_ignored; right; right; right; by exists tcp].
  all: try (rewrite (handlePacket_classified env c packet fs srcIP dstIP tcp)
              by (try done; auto); cbv zeta; rewrite Hnone, Hd; simpl).
  - destruct Hcase as [?|[-> | [-> | ->]]]; try done;
      by destruct (capture.FIN tcp), (capture.RST tcp), (capture.SYN tcp).
  - by destruct (capture.FIN tcp || capture.RST tcp).
Qed.

(** X12: a packet travelling from the printer that is neither FIN nor
    RST changes nothing, whether or not its flow has a session: replies
    are not captured and do not refresh the session's last-seen time. *)
Theorem handlePacket_ignores_replies env c packet fs tcp :
  capture.tcpLayer packet = Some tcp →
  capture.isPrinterPort c (capture.DstPort tcp) = false →
  capture.FIN tcp = false → capture.RST tcp = false →
  capture.handlePacket env c packet fs = (c, fs).
Proof.
  intros Htcp Hd Hfin Hrst.
  destruct (capture.networkLayer packet) as [[srcIP dstIP|srcIP dstIP|]|] eqn:Hnl;
    try (apply foreign_ignored; auto; fail).
  all: destruct (capture.isPrinterPort c (capture.SrcPort tcp)) eqn:Hs;
    [|apply foreign_ignored; right; right; right; by exists tcp].
  all: rewrite (handlePacket_classified env c packet fs srcIP dstIP tcp)
         by (try done; auto).
  all: cbv zeta; by rewrite Hfin, Hrst, Hd.
Qed.

(** What [finalizeSession] leaves alone, and the job it returns. *)
Lemma finalize_frame env c sess fs :
  let r := capture.finalizeSession env c sess fs in
  capture.cfg r.1.1 = capture.cfg c
  ∧ capture.store r.1.1 = capture.store c
  ∧ capture.sessions r.1.1 = capture.sessions c
  ∧ job.closed (capture.job r.1.2) = true
  ∧ job.Data (capture.job r.1.2) = job.Data (capture.job sess).
Proof.
  unfold capture.finalizeSession.
  pose proof (Close_closed (capture.now_close env) (capture.job sess)) as Hcl.
  pose proof (Close_Data (capture.now_close env) (capture.job sess)) as Hda.
  set (sealed := job.Close (capture.now_close env) (capture.job sess)) in *.
  destruct (job.ByteLen (job.Meta sealed) =? 0); [done|].
  destruct (capture.reprint c) as [rd|].
  - destruct (String.eqb (job.Check _ rd _ _) "").
    + by destruct (job.Save _ _ sealed fs) as [fs' [e|]].
    + set (id := job.Check _ rd _ _).
      destruct (SetReprintOf_sealed sealed id) as (Hd & _ & _ & _ & _ & _ & Hc).
      destruct (job.Save _ _ (job.SetReprintOf sealed id) fs) as [fs' [e|]];
        simpl; by rewrite Hd, Hc.
  - by destruct (job.Save _ _ sealed fs) as [fs' [e|]].
Qed.


(** X14: the accounting of [finalizeSession] for a non-empty job: the
    job handed to [Save] is closed and holds the session's payload;
    [jobs_captured] grows by one exactly when [Save] returns nil and
    [parse_errors] grows by one exactly when it returns an error;
    [bytes_captured], the session table and the store are unchanged. *)
Theorem finalize_counts_the_outcome env c sess fs :
  job.ByteLen
    (job.Meta (job.Close (capture.now_close env) (capture.job sess))) ≠ 0 →
  let r := capture.finalizeSession env c sess fs in
  let saved := job.Save (capture.store c) (capture.sys env)
                 (capture.job r.1.2) fs in
  job.closed (capture.job r.1.2) = true
  ∧ job.Data (capture.job r.1.2) = job.Data (capture.job sess)
  ∧ r.2 = saved.1
  ∧ capture.JobsCaptured (capture.stats r.1.1)
    = match saved.2 with
      | Some _ => capture.JobsCaptured (capture.stats c)
      | None => atomic_Add (capture.JobsCaptured (capture.stats c)) 1
      end
  ∧ capture.ParseErrors (capture.stats r.1.1)
    = match saved.2 with
      | Some _ => atomic_Add (capture.ParseErrors (capture.stats c)) 1
      | None => capture.ParseErrors (capture.stats c)
      end
  ∧ capture.BytesCaptured (capture.stats r.1.1)
    = capture.BytesCaptured (capture.stats c)
  ∧ capture.sessions r.1.1 = capture.sessions c.
Proof.
  intros Hlen r saved.
  destruct (finalize_frame env c sess fs) as (_ & _ & Hs & Hcl & Hda).
  fold r in Hs, Hcl, Hda.
  split; [done|]. split; [done|].
  cut (r.2 = saved.1
       ∧ capture.stats r.1.1
         = match saved.2 with
           | Some _ =>
               capture.mkStats (capture.JobsCaptured (capture.stats c))
                 (capture.BytesCaptured (capture.stats c))
                 (atomic_Add (capture.ParseErrors (capture.stats c)) 1)
           | None =>
               capture.mkStats
                 (atomic_Add (capture.JobsCaptured (capture.stats c)) 1)
                 (capture.BytesCaptured (capture.stats c))
                 (capture.ParseErrors (capture.stats c))
           end).
  { intros (Hfs & Hst). rewrite Hst. split; [done|].
    by destruct (saved.2). }
  unfold saved, r, capture.finalizeSession.
  set (sealed := job.Close (capture.now_close env) (capture.job sess)) in *.
  destruct (job.ByteLen (job.Meta sealed) =? 0) eqn:Hz; [lia|].
  destruct (capture.reprint c) as [rd|].
  - destruct (String.eqb (job.Check _ rd _ _) "").
    + simpl. destruct (job.Save _ _ sealed fs) as [fs' [e|]] eqn:Hsv; simpl;
        by rewrite Hsv.
    + simpl. destruct (job.Save _ _ (job.SetReprintOf sealed _) fs)
        as [fs' [e|]] eqn:Hsv; simpl; by rewrite Hsv.
  - simpl. destruct (job.Save _ _ sealed fs) as [fs' [e|]] eqn:Hsv; simpl;
      by rewrite Hsv.
Qed.

End PacketsMore.

(** ** Capture: sessions over several packets *)

Section SessionsMore.

Context `{L : job.Libs}.
Implicit Types (env : capture.Env) (c : capture.Capturer)
  (sess : capture.session) (fs : FileSys) (packet : capture.Packet)
  (tcp : capture.TCP).

(** The payload step only rewrites the session under its key, and keeps
    the job's closed flag. *)
Lemma capturePayload_shape env c key sess tcp app :
  ∃ sess',
    capture.sessions (capture.capturePayload env c key sess tcp app)
    = <[key := sess']> (capture.sessions c)
    ∧ job.closed (capture.job sess') = job.closed (capture.job sess)
    ∧ capture.cfg (capture.capturePayload env c key sess tcp app)
      = capture.cfg c.
Proof.
  unfold capture.capturePayload.
  destruct app as [[|b payload]|]; try (eexists; split; [reflexivity|done]).
  set (sess2 := if capture.initialized _ then _ else _).
  assert (Hjob2 : capture.job sess2 = capture.job sess)
    by (unfold sess2; simpl; by destruct (capture.initialized sess)).
  destruct (default false _); [eexists; split; [reflexivity|by rewrite Hjob2]|].
  unfold job.Append. simpl. rewrite Hjob2.
  destruct (job.closed (capture.job sess)) eqn:Hc; simpl;
    (eexists; split; [reflexivity|done]).
Qed.

(** The payload step on an open job and a non-empty payload. *)
Lemma capturePayload_data env c key sess tcp payload :
  job.closed (capture.job sess) = false → payload ≠ [] →
  let seen := default false (capture.seqTracker sess !! capture.Seq tcp) in
  ∃ sess',
    capture.sessions (capture.capturePayload env c key sess tcp (Some payload))
    = <[key := sess']> (capture.sessions c)
    ∧ capture.job sess'
      = (if seen then capture.job sess
         else job.mkJob (job.Meta (capture.job sess))
                (job.Data (capture.job sess) ++ payload) false)
    ∧ capture.seqTracker sess'
      = (if seen then capture.seqTracker sess
         else <[capture.Seq tcp := true]> (capture.seqTracker sess))
    ∧ capture.stats (capture.capturePayload env c key sess tcp (Some payload))
      = (if seen then capture.stats c
         else capture.mkStats (capture.JobsCaptured (capture.stats c))
                (atomic_Add (capture.BytesCaptured (capture.stats c))
                   (len payload))
                (capture.ParseErrors (capture.stats c)))
    ∧ capture.cfg (capture.capturePayload env c key sess tcp (Some payload))
      = capture.cfg c.
Proof.
  intros Hopen Hne seen. unfold capture.capturePayload.
  destruct payload as [|b payload]; [done|].
  set (sess2 := if capture.initialized _ then _ else _).
  assert (Hjob2 : capture.job sess2 = capture.job sess)
    by (unfold sess2; simpl; by destruct (capture.initialized sess)).
  assert (Htr2 : capture.seqTracker sess2 = capture.seqTracker sess)
    by (unfold sess2; simpl; by destruct (capture.initialized sess)).
  rewrite Htr2. fold seen. destruct seen.
  - exists sess2. by repeat split.
  - unfold job.Append. simpl. rewrite Hjob2, Hopen. simpl.
    eexists. split; [reflexivity|]. done.
Qed.

Lemma all_open_insert c key sess :
  spec.all_open c → job.closed (capture.job sess) = false →
  ∀ c', capture.sessions c' = <[key := sess]> (capture.sessions c) →
        spec.all_open c'.
Proof.
  intros Hall Ho c' Hs k s. rewrite Hs.
  destruct (decide (key = k)) as [->|Hne].
  - rewrite lookup_insert_eq. by intros [= <-].
  - rewrite lookup_insert_ne by done. apply Hall.
Qed.

Lemma all_open_delete c key :
  spec.all_open c →
  ∀ c', capture.sessions c' = delete key (capture.sessions c) →
        spec.all_open c'.
Proof.
  intros Hall c' Hs k s. rewrite Hs.
  intros [_ Hk]%lookup_delete_Some. by apply (Hall k).
Qed.

Lemma handlePacket_all_open env c packet fs :
  spec.all_open c → spec.all_open (capture.handlePacket env c packet fs).1.
Proof.
  intros Hall.
  destruct (capture.networkLayer packet) as [[srcIP dstIP|srcIP dstIP|]|] eqn:Hnl;
    try (rewrite foreign_ignored by auto; done).
  all: destruct (capture.tcpLayer packet) as [tcp|] eqn:Htcp;
    [|rewrite foreign_ignored by auto; done].
  all: destruct (capture.isPrinterPort c (capture.DstPort tcp)) eqn:Hd;
    [|destruct (capture.isPrinterPort c (capture.SrcPort tcp)) eqn:Hs;
      [|rewrite foreign_ignored by (right; right; right; by exists tcp); done]].
  all: rewrite (handlePacket_classified env c packet fs srcIP dstIP tcp)
         by (try done; auto).
  all: cbv zeta; rewrite Hd;
    set (key := spec.packet_key c srcIP dstIP tcp);
    destruct (capture.FIN tcp || capture.RST tcp);
    [destruct (capture.sessions c !! key) as [sess|] eqn:Hsess; [|done];
     destruct (finalize_frame env c sess fs) as (_ & _ & Hss & _);
     eapply all_open_delete; [exact Hall|]; simpl; by rewrite Hss
    |]; simpl; try done.
  all: destruct (capture.sessions c !! key) as [sess|] eqn:Hsess.
  all: try (destruct (capturePayload_shape env c key sess tcp
                        (capture.applicationLayer packet))
             as (sess' & Hs' & Hc' & _);
            eapply all_open_insert; [exact Hall| |exact Hs'];
            rewrite Hc'; by apply (Hall key)).
  all: destruct (capture.SYN tcp); [|done].
  all: by eapply all_open_insert; [exact Hall| |reflexivity].
Qed.

(** X16: a retransmitted data segment is absorbed: handling the same
    payload-bearing packet a second time leaves the job, the set of
    accepted sequence numbers and all counters exactly as the first
    handling left them, and the files untouched. *)
Theorem retransmission_is_absorbed
    env1 env2 c packet fs srcIP dstIP tcp payload sess :
  capture.networkLayer packet = Some (capture.IPv4 srcIP dstIP)
  ∨ capture.networkLayer packet = Some (capture.IPv6 srcIP dstIP) →
  capture.tcpLayer packet = Some tcp →
  capture.isPrinterPort c (capture.DstPort tcp) = true →
  capture.FIN tcp = false → capture.RST tcp = false →
  capture.applicationLayer packet = Some payload → payload ≠ [] →
  let key := capture.sessionKeyOf srcIP (capture.SrcPort tcp) dstIP
               (capture.DstPort tcp) in
  capture.sessions c !! key = Some sess →
  job.closed (capture.job sess) = false →
  let r1 := capture.handlePacket env1 c packet fs in
  let r2 := capture.handlePacket env2 r1.1 packet r1.2 in
  r2.2 = fs
  ∧ capture.stats r2.1 = capture.stats r1.1
  ∧ ∃ s1 s2,
      capture.sessions r1.1 !! key = Some s1
      ∧ capture.sessions r2.1 !! key = Some s2
      ∧ capture.job s2 = capture.job s1
      ∧ capture.seqTracker s2 = capture.seqTracker s1
      ∧ default false (capture.seqTracker s1 !! capture.Seq tcp) = true.
Proof.
  intros Hnl Htcp Hport Hfin Hrst Happ Hne key Hsess Hopen r1 r2.
  unfold r2, r1.
  rewrite (handlePacket_data env1 c packet fs srcIP dstIP tcp sess) by done.
  fold key. rewrite Happ. cbn [fst snd].
  destruct (capturePayload_data env1 c key sess tcp payload Hopen Hne)
    as (s1 & Hs1 & Hj1 & Ht1 & Hst1 & Hcfg1).
  set (c1 := capture.capturePayload env1 c key sess tcp (Some payload)) in *.
  assert (Hport1 : capture.isPrinterPort c1 (capture.DstPort tcp) = true)
    by (unfold capture.isPrinterPort in *; by rewrite Hcfg1).
  assert (Hlook1 : capture.sessions c1 !! key = Some s1)
    by (rewrite Hs1; apply lookup_insert_eq).
  assert (Hopen1 : job.closed (capture.job s1) = false)
    by (rewrite Hj1; by destruct (default false _)).
  assert (Hseen1 : default false (capture.seqTracker s1 !! capture.Seq tcp) = true).
  { rewrite Ht1. destruct (default false _) eqn:Hseen; [done|].
    by rewrite lookup_insert_eq. }
  rewrite (handlePacket_data env2 c1 packet fs srcIP dstIP tcp s1) by done.
  fold key. rewrite Happ. cbn [fst snd].
  destruct (capturePayload_data env2 c1 key s1 tcp payload Hopen1 Hne)
    as (s2 & Hs2 & Hj2 & Ht2 & Hst2 & _).
  rewrite Hseen1 in Hj2, Ht2, Hst2.
  split; [done|]. split; [done|].
  exists s1, s2. split; [exact Hlook1|].
  split; [|done]. rewrite Hs2. apply lookup_insert_eq.
Qed.

End SessionsMore.

(** ** Capture: the idle sweep and the shutdown drain *)

Section Sweeps.

Context `{L : job.Libs}.
Implicit Types (env : capture.Env) (c : capture.Capturer)
  (sess : capture.session) (fs : FileSys) (order : list string)
  (cond : capture.session → bool) (env_of : string → capture.Env).

(** The loop over the session table removes exactly the sessions it
    meets that satisfy the condition, and keeps the configuration, the
    store and [bytes_captured]. *)
Lemma range_sessions_spec cond env_of order c fs :
  let r := capture.range_sessions cond env_of order c fs in
  capture.cfg r.1 = capture.cfg c
  ∧ capture.store r.1 = capture.store c
  ∧ capture.BytesCaptured (capture.stats r.1)
    = capture.BytesCaptured (capture.stats c)
  ∧ ∀ key, capture.sessions r.1 !! key
           = capture.sessions c !! key ≫= λ s,
               if bool_decide (key ∈ order) && cond s then None else Some s.
Proof.
  revert c fs. induction order as [|k order IH]; intros c fs.
  - simpl. repeat split. intros key.
    by destruct (capture.sessions c !! key).
  - assert (Hdec : ∀ key, key ≠ k →
                     bool_decide (key ∈ k :: order) = bool_decide (key ∈ order)).
    { intros key Hne. apply bool_decide_ext. rewrite elem_of_cons.
      split; [by intros [?|?]|by right]. }
    simpl. destruct (capture.sessions c !! k) as [sess|] eqn:Hk.
    + destruct (cond sess) eqn:Hcond.
      * pose proof (finalize_frame (env_of k) c sess fs) as Hfr.
        pose proof (finalize_BytesCaptured (env_of k) c sess fs) as Hby.
        destruct (capture.finalizeSession (env_of k) c sess fs)
          as [[c1 s1] fs1] eqn:Hf.
        cbn [fst snd] in Hfr, Hby. destruct Hfr as (Hcfg & Hst & Hss & _).
        destruct (IH (capture.set_sessions c1 (delete k (capture.sessions c1)))
                    fs1) as (Hcfg' & Hst' & Hby' & Hs').
        split; [by rewrite Hcfg'|]. split; [by rewrite Hst'|].
        split; [by rewrite Hby'|]. intros key. rewrite Hs'. simpl. rewrite Hss.
        destruct (decide (key = k)) as [->|Hne].
        -- rewrite lookup_delete_eq, Hk. simpl.
           rewrite bool_decide_eq_true_2 by (by left). by rewrite Hcond.
        -- rewrite lookup_delete_ne by done. by rewrite Hdec.
      * destruct (IH c fs) as (Hcfg' & Hst' & Hby' & Hs').
        split; [done|]. split; [done|]. split; [done|].
        intros key. rewrite Hs'.
        destruct (decide (key = k)) as [->|Hne].
        -- rewrite Hk. simpl. by rewrite Hcond, !andb_false_r.
        -- by rewrite Hdec.
    + destruct (IH c fs) as (Hcfg' & Hst' & Hby' & Hs').
      split; [done|]. split; [done|]. split; [done|].
      intros key. rewrite Hs'.
      destruct (decide (key = k)) as [->|Hne]; [by rewrite Hk|].
      by rewrite Hdec.
Qed.

(** Nothing to do: when no session satisfies the condition the loop
    returns its arguments. *)
Lemma range_sessions_idle cond env_of order c fs :
  (∀ key s, capture.sessions c !! key = Some s → cond s = false) →
  capture.range_sessions cond env_of order c fs = (c, fs).
Proof.
  intros Hno. induction order as [|k order IH]; [done|]. simpl.
  destruct (capture.sessions c !! k) as [sess|] eqn:Hk; [|done].
  by rewrite (Hno k sess Hk).
Qed.

Lemma range_sessions_all_open cond env_of order c fs :
  spec.all_open c →
  spec.all_open (capture.range_sessions cond env_of order c fs).1.
Proof.
  intros Hall key s.
  destruct (range_sessions_spec cond env_of order c fs) as (_ & _ & _ & Hs).
  rewrite Hs. destruct (capture.sessions c !! key) as [s0|] eqn:Hk; [|done].
  simpl. destruct (_ && _); [done|]. intros [= <-]. by apply (Hall key).
Qed.

(** X15: every session in the table holds an open job: this holds for a
    new capturer and is kept by every packet, every idle sweep and the
    shutdown drain. *)
Theorem sessions_hold_open_jobs c :
  (∀ cfg store reprint stats,
     spec.all_open (capture.New cfg store reprint stats))
  ∧ (spec.all_open c →
     (∀ env packet fs,
        spec.all_open (capture.handlePacket env c packet fs).1)
     ∧ (∀ now env_of order fs,
          spec.all_open (capture.checkTimeouts now env_of order c fs).1)
     ∧ (∀ env_of order fs,
          spec.all_open (capture.Stop env_of order c fs).1)).
Proof.
  split; [intros ???? key s Hks; simpl in Hks; by rewrite lookup_empty in Hks|].
  intros Hall. split; [|split].
  - intros. by apply handlePacket_all_open.
  - intros. by apply range_sessions_all_open.
  - intros. by apply range_sessions_all_open.
Qed.

(** X17: one idle sweep removes exactly the sessions that have been
    silent for at least the idle timeout and keeps every other session
    as it is, provided the iteration meets every key of the table;
    [bytes_captured] is not changed by the sweep. *)
Theorem checkTimeouts_removes_idle_sessions now env_of order c fs :
  (∀ key, is_Some (capture.sessions c !! key) → key ∈ order) →
  let r := capture.checkTimeouts now env_of order c fs in
  (∀ key s, capture.sessions r.1 !! key = Some s
            ↔ capture.sessions c !! key = Some s ∧ spec.idle c now s = false)
  ∧ capture.BytesCaptured (capture.stats r.1)
    = capture.BytesCaptured (capture.stats c).
Proof.
  intros Hcover r. unfold r, capture.checkTimeouts.
  destruct (range_sessions_spec (spec.idle c now) env_of order c fs)
    as (_ & _ & Hby & Hs).
  split; [|exact Hby]. intros key s.
  unfold spec.idle at 1 in Hs. rewrite Hs.
  destruct (capture.sessions c !! key) as [s0|] eqn:Hk; simpl;
    [|split; [done|by intros [? _]]].
  rewrite bool_decide_eq_true_2 by (apply Hcover; by rewrite Hk).
  simpl. fold (spec.idle c now s0).
  destruct (spec.idle c now s0) eqn:Hidle.
  - split; [done|]. intros [[= <-] ?]. congruence.
  - split; [by intros [= <-]|by intros [? _]].
Qed.

(** X18: a second sweep at the same instant changes nothing, whatever
    order it iterates in: every session that is left is not idle. *)
Theorem checkTimeouts_is_idempotent now env_of env_of' order order' c fs :
  (∀ key, is_Some (capture.sessions c !! key) → key ∈ order) →
  let r := capture.checkTimeouts now env_of order c fs in
  capture.checkTimeouts now env_of' order' r.1 r.2 = r.
Proof.
  intros Hcover r.
  destruct (range_sessions_spec (spec.idle c now) env_of order c fs)
    as (Hcfg & _ & _ & Hs).
  assert (Hr : r = capture.range_sessions (spec.idle c now) env_of order c fs)
    by done.
  unfold capture.checkTimeouts at 1.
  assert (Hcond : (λ s : capture.session,
                     time_Sub now (capture.lastSeen s)
                     >=? config.IdleTimeout (config.Capture (capture.cfg r.1)))
                  = spec.idle c now)
    by (rewrite Hr, Hcfg; done).
  rewrite Hcond, range_sessions_idle; [by destruct r|].
  intros key s. rewrite Hr, Hs.
  destruct (capture.sessions c !! key) as [s0|] eqn:Hk; [|done]. simpl.
  rewrite bool_decide_eq_true_2 by (apply Hcover; by rewrite Hk). simpl.
  destruct (spec.idle c now s0) eqn:Hidle; [done|]. by intros [= <-].
Qed.

(** [finalizeSession] neither reads nor changes the session table. *)
Lemma finalizeSession_sessions env c m sess fs :
  capture.finalizeSession env (capture.set_sessions c m) sess fs
  = let r := capture.finalizeSession env c sess fs in
    (capture.set_sessions r.1.1 m, r.1.2, r.2).
Proof.
  unfold capture.finalizeSession.
  destruct (job.ByteLen _ =? 0); [done|]. simpl.
  destruct (capture.reprint c) as [rd|].
  - destruct (String.eqb (job.Check _ rd _ _) "");
      by destruct (job.Save _ _ _ fs) as [fs' [e|]].
  - by destruct (job.Save _ _ _ fs) as [fs' [e|]].
Qed.

(** The drain finalizes the sessions it meets, each once and in the order
    of the iteration. *)
Lemma drain_finalizes env_of order :
  NoDup order →
  ∀ m c fs,
    (∀ k, k ∈ order → m !! k = capture.sessions c !! k) →
    let met := omap (λ k, pair k <$> capture.sessions c !! k) order in
    let f := spec.finalize_all env_of met c fs in
    ∃ m', capture.range_sessions (λ _, true) env_of order
            (capture.set_sessions c m) fs
          = (capture.set_sessions f.1 m', f.2).
Proof.
  induction 1 as [|k order Hk Hnd IH]; intros m c fs Hm; [by exists m|].
  cbn [capture.range_sessions omap list_omap].
  change (capture.sessions (capture.set_sessions c m)) with m.
  rewrite (Hm k) by (by left).
  destruct (capture.sessions c !! k) as [sess|] eqn:Hc; cbn [fmap option_fmap option_map].
  - rewrite finalizeSession_sessions. cbn [spec.finalize_all].
    pose proof (finalize_frame (env_of k) c sess fs) as (_ & _ & Hss & _).
    destruct (capture.finalizeSession (env_of k) c sess fs)
      as [[c1 s1] fs1] eqn:Hf.
    cbn [fst snd] in *.
    change (capture.set_sessions (capture.set_sessions c1 m)
              (delete k (capture.sessions (capture.set_sessions c1 m))))
      with (capture.set_sessions c1 (delete k m)).
    rewrite <- Hss. apply IH. intros k' Hk'.
    rewrite lookup_delete_ne by (intros ->; done).
    rewrite Hss. apply Hm. by right.
  - apply IH. intros k' Hk'. apply Hm. by right.
Qed.

(** X19: the shutdown drain finalizes every session of the table, each
    once and in the order of the iteration, and leaves no session: the
    files, the counters and the detector are those that finalizing the
    sessions one after the other gives.  [bytes_captured] is not
    changed. *)
Theorem Stop_leaves_no_session env_of order c fs :
  NoDup order →
  (∀ key, is_Some (capture.sessions c !! key) → key ∈ order) →
  let r := capture.Stop env_of order c fs in
  let met := omap (λ key, pair key <$> capture.sessions c !! key) order in
  let f := spec.finalize_all env_of met c fs in
  capture.sessions r.1 = ∅
  ∧ capture.GetActiveSessions r.1 = 0
  ∧ capture.BytesCaptured (capture.stats r.1)
    = capture.BytesCaptured (capture.stats c)
  ∧ (∀ key sess, capture.sessions c !! key = Some sess → (key, sess) ∈ met)
  ∧ r.2 = f.2
  ∧ capture.stats r.1 = capture.stats f.1
  ∧ capture.reprint r.1 = capture.reprint f.1.
Proof.
  intros Hnd Hcover r met f. unfold r, capture.Stop.
  destruct (range_sessions_spec (λ _, true) env_of order c fs)
    as (_ & _ & Hby & Hs).
  assert (Hempty : capture.sessions
                     (capture.range_sessions (λ _, true) env_of order c fs).1 = ∅).
  { apply map_eq. intros key. rewrite Hs, lookup_empty.
    destruct (capture.sessions c !! key) as [s0|] eqn:Hk; [|done]. simpl.
    by rewrite bool_decide_eq_true_2 by (apply Hcover; by rewrite Hk). }
  split; [done|]. split.
  { unfold capture.GetActiveSessions. by rewrite Hempty, map_size_empty. }
  split; [done|]. split.
  { intros key sess Hk. apply list_elem_of_omap. exists key.
    split; [apply Hcover; by rewrite Hk|]. by rewrite Hk. }
  destruct (drain_finalizes env_of order Hnd (capture.sessions c) c fs)
    as (m' & Hdrain); [done|].
  replace (capture.set_sessions c (capture.sessions c)) with c in Hdrain
    by by destruct c.
  fold met in Hdrain. fold f in Hdrain. by rewrite Hdrain.
Qed.

End Sweeps.

(** ** Capture: reprint marking across two sessions *)

Section ReprintScenario.

Context `{L : job.Libs}.
Implicit Types (env : capture.Env) (c : capture.Capturer)
  (sess : capture.session) (fs : FileSys).

Lemma Close_open now (j : job.Job) :
  job.closed j = false →
  job.GetHash (job.Close now j) = job.sha256_hex (job.Data j)
  ∧ job.JobID (job.Meta (job.Close now j)) = job.JobID (job.Meta j)
  ∧ job.ReprintOfJobID (job.Meta (job.Close now j))
    = job.ReprintOfJobID (job.Meta j)
  ∧ job.Tags (job.Meta (job.Close now j)) = job.Tags (job.Meta j).
Proof. intros Ho. unfold job.Close, job.GetHash. by rewrite Ho. Qed.

(** The job a session is left with by [finalizeSession] when a detector
    is configured and the job is not empty. *)
Lemma finalize_job env c sess fs rd :
  capture.reprint c = Some rd →
  let sealed := job.Close (capture.now_close env) (capture.job sess) in
  job.ByteLen (job.Meta sealed) ≠ 0 →
  let id := job.Check (capture.now_check env) rd (job.GetHash sealed)
              (capture.dstIP sess) in
  capture.job (capture.finalizeSession env c sess fs).1.2
  = if String.eqb id "" then sealed else job.SetReprintOf sealed id.
Proof.
  intros Hrd sealed Hlen id. unfold capture.finalizeSession. fold sealed.
  destruct (job.ByteLen (job.Meta sealed) =? 0) eqn:Hz; [lia|].
  rewrite Hrd. fold id. destruct (String.eqb id "").
  - simpl. by destruct (job.Save _ _ sealed fs) as [fs' [e|]].
  - simpl. by destruct (job.Save _ _ (job.SetReprintOf sealed id) fs)
      as [fs' [e|]].
Qed.

(** X20: two sessions to the same printer with the same non-empty
    payload, finalized one after the other while the detector shows no
    earlier entry for that payload and printer: when the second check
    falls within the window of the first record, the second job is
    marked as a reprint of the first (back-reference and "reprint" tag);
    when it falls outside, the second job is just sealed. *)
Theorem second_identical_job_is_reprint envA envB c sessA sessB fs rd :
  capture.reprint c = Some rd →
  job.closed (capture.job sessA) = false →
  job.closed (capture.job sessB) = false →
  job.Data (capture.job sessA) = job.Data (capture.job sessB) →
  job.Data (capture.job sessA) ≠ [] →
  capture.dstIP sessA = capture.dstIP sessB →
  job.JobID (job.Meta (capture.job sessA)) ≠ "" →
  existsb (spec.visible (capture.now_check envB) (job.window rd)
             (capture.dstIP sessB))
    (default [] (job.hashes rd
                   !! job.sha256_hex (job.Data (capture.job sessA)))) = false →
  let rA := capture.finalizeSession envA c sessA fs in
  let rB := capture.finalizeSession envB rA.1.1 sessB rA.2 in
  let jB := capture.job rB.1.2 in
  if time_Sub (capture.now_check envB) (capture.now_record envA)
     <=? job.window rd
  then job.ReprintOfJobID (job.Meta jB) = job.JobID (job.Meta (capture.job sessA))
       ∧ "reprint" ∈ job.Tags (job.Meta jB)
  else jB = job.Close (capture.now_close envB) (capture.job sessB).
Proof.
  intros Hrd HoA HoB Hdata Hne Hip Hid Hfresh rA rB jB.
  assert (Hlen : ∀ now sess, job.closed (capture.job sess) = false →
                   job.Data (capture.job sess) ≠ [] →
                   job.ByteLen (job.Meta (job.Close now (capture.job sess))) ≠ 0).
  { intros now sess Ho Hd Hz. by apply Close_ByteLen_zero in Hz. }
  destruct (Close_open (capture.now_close envA) (capture.job sessA) HoA)
    as (HhA & HidA & _).
  destruct (Close_open (capture.now_close envB) (capture.job sessB) HoB)
    as (HhB & _).
  destruct (finalize_nonempty envA c sessA fs (Hlen _ _ HoA Hne))
    as (_ & rdA & _ & HrdA & HrA & _).
  fold rA in HrA. rewrite Hrd in HrdA. simpl in HrdA. subst rdA.
  rewrite HhA, HidA in HrA.
  assert (HneB : job.Data (capture.job sessB) ≠ []) by by rewrite <- Hdata.
  pose proof (finalize_job envB rA.1.1 sessB rA.2 _ HrA (Hlen _ _ HoB HneB))
    as HjB.
  cbv zeta in HjB. fold rB in HjB. fold jB in HjB.
  rewrite HhB, <- Hdata, <- Hip in HjB.
  rewrite Check_Record_eq in HjB. simpl in HjB.
  rewrite <- Hip in Hfresh. rewrite Hfresh, String.eqb_refl in HjB.
  simpl in HjB.
  destruct (time_Sub _ _ <=? job.window rd).
  - assert (String.eqb (job.JobID (job.Meta (capture.job sessA))) "" = false)
      as Hnz by by apply String.eqb_neq.
    rewrite Hnz in HjB. rewrite HjB.
    by destruct (SetReprintOf_marks
                   (job.Close (capture.now_close envB) (capture.job sessB))
                   (job.JobID (job.Meta (capture.job sessA)))) as (? & ? & _).
  - by rewrite HjB.
Qed.

End ReprintScenario.

(** ** Capture: the filter and the interface *)

Section StartUp.

Implicit Types (c : capture.Capturer).

(** X21: the capture filter is exactly one of three expressions, chosen
    by the enabled ports; with no port enabled the function indexes an
    empty slice, which a validated configuration rules out. *)
Theorem buildBPFFilter_cases c :
  let p9100 := config.Port9100Enabled (config.Capture (capture.cfg c)) in
  let p515 := config.Port515Enabled (config.Capture (capture.cfg c)) in
  capture.buildBPFFilter c
  = (if p9100 then
       if p515 then Some "(tcp port 9100) or (tcp port 515)"
       else Some "(tcp port 9100)"
     else if p515 then Some "(tcp port 515)" else None)
  ∧ ∀ settings store reprint stats,
      config.Validate settings = None →
      is_Some (capture.buildBPFFilter
                 (capture.New (config.Core settings) store reprint stats)).
Proof.
  split.
  - unfold capture.buildBPFFilter.
    by destruct (config.Port9100Enabled _), (config.Port515Enabled _).
  - intros settings store reprint stats Hv.
    unfold config.Validate in Hv. unfold capture.buildBPFFilter. simpl.
    destruct (config.Port9100Enabled _), (config.Port515Enabled _);
      simpl in *; try done.
    by repeat case_match.
Qed.

Lemma find_named_Some name ifaces n :
  capture.find_named name ifaces = Some n ↔ n = name ∧ name ∈ ifaces.
Proof.
  induction ifaces as [|i ifaces IH]; simpl.
  - split; [done|]. by intros [_ ?%elem_of_nil].
  - destruct (String.eqb_spec i name) as [->|Hne].
    + split; [intros [= <-]; split; [done|by left]|by intros [-> _]].
    + split; [intros [-> ?]%IH; split; [done|by right]|].
      intros [-> [?|?]%elem_of_cons]; [congruence|by apply IH].
Qed.

Lemma find_bridge_Some ifaces n :
  capture.find_bridge ifaces = Some n →
  n ∈ ifaces ∧ String.substring 0 2 n = "br".
Proof.
  induction ifaces as [|i ifaces IH]; [done|].
  cbn [capture.find_bridge]. destruct (_ && _) eqn:Hb.
  - intros [= <-]. apply andb_true_iff in Hb as [_ Hb%String.eqb_eq].
    split; [by left|done].
  - intros [? ?]%IH. split; [by right|done].
Qed.

Lemma find_bridge_None ifaces n :
  capture.find_bridge ifaces = None → n ∈ ifaces →
  (2 <= String.length n)%nat → String.substring 0 2 n ≠ "br".
Proof.
  induction ifaces as [|i ifaces IH]; [by intros _ ?%elem_of_nil|].
  cbn [capture.find_bridge]. destruct (_ && _) eqn:Hb; [done|].
  intros Hnone [->|Hin]%elem_of_cons Hlen; [|by apply IH].
  apply andb_false_iff in Hb as [Hb|Hb].
  - apply Nat.leb_gt in Hb. lia.
  - by apply String.eqb_neq.
Qed.

Lemma find_named_None name ifaces :
  ¬ (name ∈ ifaces) → capture.find_named name ifaces = None.
Proof.
  intros Hno. destruct (capture.find_named name ifaces) as [n|] eqn:Hf; [|done].
  by apply find_named_Some in Hf as [_ ?].
Qed.

Lemma find_bridge_first pre n post :
  Forall (λ m, spec.is_bridge m = false) pre → spec.is_bridge n = true →
  capture.find_bridge (pre ++ n :: post) = Some n.
Proof.
  intros Hpre Hn. induction Hpre as [|m pre Hm _ IH];
    cbn [app capture.find_bridge].
  - fold (spec.is_bridge n). by rewrite Hn.
  - fold (spec.is_bridge m). by rewrite Hm.
Qed.

Lemma find_bridge_absent ifaces :
  Forall (λ m, spec.is_bridge m = false) ifaces →
  capture.find_bridge ifaces = None.
Proof.
  induction 1 as [|m ifaces Hm _ IH]; [done|]. cbn [capture.find_bridge].
  fold (spec.is_bridge m). by rewrite Hm.
Qed.

(** X22: [FindInterface] answers "br0" whenever an interface of that
    name exists; otherwise the first interface, in the order of the
    listing, whose name starts with "br"; otherwise, when no name starts
    with "br", "eth0" when it exists; otherwise it fails.  The name it
    returns is always one of the interfaces. *)
Theorem FindInterface_preference ifaces :
  ("br0" ∈ ifaces → capture.FindInterface (Some ifaces) = inl "br0")
  ∧ (¬ ("br0" ∈ ifaces) →
     (∀ pre n post,
        ifaces = pre ++ n :: post →
        Forall (λ m, spec.is_bridge m = false) pre →
        spec.is_bridge n = true →
        capture.FindInterface (Some ifaces) = inl n)
     ∧ (Forall (λ m, spec.is_bridge m = false) ifaces →
        "eth0" ∈ ifaces →
        capture.FindInterface (Some ifaces) = inl "eth0"))
  ∧ (∀ n, capture.FindInterface (Some ifaces) = inl n →
          n ∈ ifaces ∧ (String.substring 0 2 n = "br" ∨ n = "eth0"))
  ∧ (capture.FindInterface (Some ifaces) = inr capture.NoSuitableInterface ↔
     (¬ ("eth0" ∈ ifaces)
      ∧ ∀ n, n ∈ ifaces → (2 <= String.length n)%nat →
             String.substring 0 2 n ≠ "br"))
  ∧ capture.FindInterface None = inr capture.InterfacesFailed.
Proof.
  unfold capture.FindInterface. split; [|split; [|split; [|split; [|done]]]].
  - intros Hin.
    destruct (capture.find_named "br0" ifaces) as [n|] eqn:Hf.
    + by apply find_named_Some in Hf as [-> _].
    + assert (capture.find_named "br0" ifaces = Some "br0") as Hs
        by by apply find_named_Some.
      congruence.
  - intros Hno. rewrite find_named_None by done. split.
    + intros pre n post -> Hpre Hn. by rewrite find_bridge_first.
    + intros Hnone Heth. rewrite find_bridge_absent by done.
      assert (capture.find_named "eth0" ifaces = Some "eth0") as ->
        by by apply find_named_Some.
      done.
  - intros n.
    destruct (capture.find_named "br0" ifaces) as [n0|] eqn:Hf.
    { intros [= <-]. apply find_named_Some in Hf as [-> ?]. split; [done|by left]. }
    destruct (capture.find_bridge ifaces) as [n1|] eqn:Hb.
    { intros [= <-]. apply find_bridge_Some in Hb as [? ?]. split; [done|by left]. }
    destruct (capture.find_named "eth0" ifaces) as [n2|] eqn:He; [|done].
    intros [= <-]. apply find_named_Some in He as [-> ?]. split; [done|by right].
  - destruct (capture.find_named "br0" ifaces) as [n0|] eqn:Hf.
    { split; [done|]. intros [_ Hbr]. apply find_named_Some in Hf as [_ Hin].
      exfalso. apply (Hbr "br0" Hin); [simpl; lia|done]. }
    destruct (capture.find_bridge ifaces) as [n1|] eqn:Hb.
    { split; [done|]. intros [_ Hbr]. exfalso.
      pose proof Hb as Hb'. apply find_bridge_Some in Hb as [Hin Hpre].
      apply (Hbr n1 Hin); [|done].
      destruct n1 as [|a [|b n1]]; simpl in *; try done; lia. }
    destruct (capture.find_named "eth0" ifaces) as [n2|] eqn:He.
    { split; [done|]. intros [Hno _]. by apply find_named_Some in He as [_ ?]. }
    split; [|done]. intros _. split.
    + intros Hin.
      assert (capture.find_named "eth0" ifaces = Some "eth0") as Hs
        by by apply find_named_Some.
      congruence.
    + intros n Hin Hlen. by apply (find_bridge_None ifaces).
Qed.

End StartUp.


(** ** The uploader: requests, retries and the sidecar *)

Section UploadMore.

Context `{C : upload.Codec}.
Implicit Types (w : upload.World) (u : upload.Uploader)
  (st status : upload.UploadStatus) (env : upload.Env)
  (r : upload.Response).

Lemma upload_result u r meta binData w :
  (upload.upload u r meta binData w).2 = None ↔ spec.succeeds r = true.
Proof.
  unfold upload.upload, spec.succeeds. destruct r as [msg|msg|code body]; simpl;
    try (split; intros ?; discriminate).
  destruct (Z.ltb_spec code 200), (Z.geb_spec code 300),
    (Z.leb_spec 200 code), (Z.ltb_spec code 300); simpl;
    split; intros ?; try done; lia.
Qed.

Lemma upload_world u r meta binData w :
  upload.fs (upload.upload u r meta binData w).1 = upload.fs w
  ∧ ∃ new, upload.sent (upload.upload u r meta binData w).1
           = upload.sent w ++ new
           ∧ (length new ≤ 1)%nat
           ∧ Forall (λ req, upload.url req = config.WebhookURL (upload.cfg u)
                            ∧ upload.metadata req = meta
                            ∧ upload.payload req = binData
                            ∧ upload.payloadName req = job.JobID meta +:+ ".bin")
               new.
Proof.
  unfold upload.upload. destruct r as [msg|msg|code body]; simpl.
  - split; [done|]. exists []. rewrite app_nil_r.
    split; [done|]. split; [simpl; lia|constructor].
  - split; [done|]. eexists [_]. split; [done|]. split; [simpl; lia|].
    by apply Forall_singleton.
  - destruct ((code <? 200) || (code >=? 300)); simpl;
      (split; [done|]; eexists [_]; split; [done|]; split; [simpl; lia|];
       by apply Forall_singleton).
Qed.

(** [upload] reports success exactly for a response with a status
    code from 200 to 299; it never touches the filesystem; it hands one
    request to the client unless the request could not be built, to the
    configured URL, with the job's metadata and payload under the file
    name [<job_id>.bin], and with a bearer authorization exactly when a
    token is configured. *)
Lemma upload_outcome u r meta binData w :
  let res := upload.upload u r meta binData w in
  (res.2 = None ↔ ∃ code body, r = upload.Answer code body ∧ 200 <= code < 300)
  ∧ upload.fs res.1 = upload.fs w
  ∧ upload.sent res.1
    = upload.sent w
      ++ match r with
         | upload.CreateRequestFails _ => []
         | _ => [upload.mkRequest (config.WebhookURL (upload.cfg u))
                   (if String.eqb (config.AuthToken (upload.cfg u)) "" then None
                    else Some ("Bearer " +:+ config.AuthToken (upload.cfg u)))
                   meta (job.JobID meta +:+ ".bin") binData]
         end.
Proof.
  intros res. split; [|split].
  - unfold res. rewrite upload_result. unfold spec.succeeds.
    destruct r as [msg|msg|code body].
    + split; [done|]. by intros (? & ? & ? & _).
    + split; [done|]. by intros (? & ? & ? & _).
    + rewrite andb_true_iff, Z.leb_le, Z.ltb_lt. split.
      * intros ?. by exists code, body.
      * by intros (? & ? & [= <- <-] & ?).
  - apply upload_world.
  - unfold res, upload.upload. destruct r as [msg|msg|code body]; simpl.
    + by rewrite app_nil_r.
    + done.
    + by destruct ((code <? 200) || (code >=? 300)).
Qed.

(** [saveStatus] leaves the marshalled status in the sidecar when its
    write succeeds; however the write ends, no other file, no directory
    and no sent request changes. *)
Lemma saveStatus_files (wr : write_result) path st w :
  (wr = WriteDone →
   files (upload.fs (upload.saveStatus wr path st w)) !! path
   = Some (upload.json_MarshalIndent_status st))
  ∧ (∀ q, q ≠ path →
          files (upload.fs (upload.saveStatus wr path st w)) !! q
          = files (upload.fs w) !! q)
  ∧ dirs (upload.fs (upload.saveStatus wr path st w)) = dirs (upload.fs w)
  ∧ upload.sent (upload.saveStatus wr path st w) = upload.sent w.
Proof.
  unfold upload.saveStatus.
  split; [intros ->; apply lookup_insert_eq|].
  destruct wr; simpl; (split; [|done]); intros q Hq; try done;
    by apply lookup_insert_ne.
Qed.

(** A sidecar write that cannot open the file changes nothing. *)
Lemma saveStatus_refused path st w :
  upload.saveStatus WriteOpenFails path st w = w.
Proof. by destruct w. Qed.

(** The retry loop writes nothing but the sidecar and sends at most one
    request per iteration. *)
Lemma attempts_frame env u sp meta binData remaining attempt status w :
  let res := upload.attempts env u sp meta binData remaining attempt status w in
  (∀ q, q ≠ sp → files (upload.fs res.1) !! q = files (upload.fs w) !! q)
  ∧ dirs (upload.fs res.1) = dirs (upload.fs w)
  ∧ ∃ new, upload.sent res.1 = upload.sent w ++ new
           ∧ (length new ≤ remaining)%nat
           ∧ Forall (λ req, upload.url req = config.WebhookURL (upload.cfg u)
                            ∧ upload.metadata req = meta
                            ∧ upload.payload req = binData
                            ∧ upload.payloadName req = job.JobID meta +:+ ".bin")
               new.
Proof.
  revert attempt status w.
  induction remaining as [|remaining IH]; intros attempt status w.
  - simpl. split; [done|]. split; [done|]. exists [].
    rewrite app_nil_r. split; [done|]. split; [simpl; lia|constructor].
  - cbn [upload.attempts].
    destruct (upload_world u (upload.respond env attempt) meta binData w)
      as (Hfs1 & new1 & Hsent1 & Hlen1 & Hall1).
    destruct (upload.upload u (upload.respond env attempt) meta binData w)
      as [w1 [err|]] eqn:Hup; cbn [fst snd] in *.
    + set (status2 := upload.mkUploadStatus _ _ _ _ err _).
      destruct (saveStatus_files (upload.status_write env attempt) sp status2 w1) as (_ & Hq2 & Hd2 & Hs2).
      destruct ((attempt <? config.MaxRetries (upload.cfg u))
                && upload.done_in_backoff env attempt).
      * cbn [fst snd]. split; [intros q Hq; by rewrite Hq2, Hfs1|].
        split; [by rewrite Hd2, Hfs1|].
        exists new1. rewrite Hs2. split; [done|]. split; [lia|done].
      * destruct (IH (attempt + 1) status2 (upload.saveStatus (upload.status_write env attempt) sp status2 w1))
          as (Hq3 & Hd3 & new3 & Hsent3 & Hlen3 & Hall3).
        split; [intros q Hq; by rewrite Hq3, Hq2, Hfs1|].
        split; [by rewrite Hd3, Hd2, Hfs1|].
        exists (new1 ++ new3). rewrite Hsent3, Hs2, Hsent1, app_assoc.
        split; [done|]. split; [rewrite length_app; lia|].
        by apply Forall_app.
    + set (status2 := upload.mkUploadStatus _ "uploaded" _ _ _ _).
      destruct (saveStatus_files (upload.status_write env attempt) sp status2 w1) as (_ & Hq2 & Hd2 & Hs2).
      split; [intros q Hq; by rewrite Hq2, Hfs1|].
      split; [by rewrite Hd2, Hfs1|].
      exists new1. rewrite Hs2. split; [done|]. split; [lia|done].
Qed.

(** X23: [processJob] writes no file other than the job's sidecar and
    makes no directory; it sends at most [max_retries] requests, each to
    the configured URL with the job's stored metadata and payload. *)
Theorem processJob_touches_only_sidecar env u basePath w :
  let w' := upload.processJob env u basePath w in
  (∀ q, q ≠ basePath +:+ ".upload.json" →
        files (upload.fs w') !! q = files (upload.fs w) !! q)
  ∧ dirs (upload.fs w') = dirs (upload.fs w)
  ∧ ∃ new, upload.sent w' = upload.sent w ++ new
           ∧ (length new ≤ Z.to_nat (config.MaxRetries (upload.cfg u)))%nat
           ∧ Forall (λ req,
                 upload.url req = config.WebhookURL (upload.cfg u)
                 ∧ Some (upload.payload req)
                   = os_ReadFile (basePath +:+ ".bin") (upload.fs w)
                 ∧ (os_ReadFile (basePath +:+ ".json") (upload.fs w)
                    ≫= upload.json_Unmarshal_meta) = Some (upload.metadata req))
               new.
Proof.
  intros w'.
  assert (Hsame : ∀ w0 : upload.World,
            (∀ q, q ≠ basePath +:+ ".upload.json" →
                  files (upload.fs w0) !! q = files (upload.fs w0) !! q)
            ∧ dirs (upload.fs w0) = dirs (upload.fs w0)
            ∧ ∃ new, upload.sent w0 = upload.sent w0 ++ new
                     ∧ (length new ≤ Z.to_nat (config.MaxRetries (upload.cfg u)))%nat
                     ∧ Forall (λ req,
                           upload.url req = config.WebhookURL (upload.cfg u)
                           ∧ Some (upload.payload req)
                             = os_ReadFile (basePath +:+ ".bin") (upload.fs w)
                           ∧ (os_ReadFile (basePath +:+ ".json") (upload.fs w)
                              ≫= upload.json_Unmarshal_meta)
                             = Some (upload.metadata req))
                         new).
  { intros w0. split; [done|]. split; [done|]. exists [].
    rewrite app_nil_r. split; [done|]. split; [simpl; lia|constructor]. }
  unfold w', upload.processJob.
  destruct (String.eqb _ "uploaded"); [apply Hsame|].
  destruct (os_ReadFile (basePath +:+ ".json") (upload.fs w))
    as [metaBytes|] eqn:Hjson; [|apply Hsame].
  destruct (upload.json_Unmarshal_meta metaBytes) as [meta|] eqn:Hmeta;
    [|apply Hsame].
  destruct (os_ReadFile (basePath +:+ ".bin") (upload.fs w))
    as [binData|] eqn:Hbin; [|apply Hsame].
  set (status := upload.loadOrCreateStatus w _ _).
  destruct (attempts_frame env u (basePath +:+ ".upload.json") meta binData
              (Z.to_nat (config.MaxRetries (upload.cfg u))) 1 status w)
    as (Hq & Hd & new & Hsent & Hlen & Hall).
  assert (Hall' : Forall (λ req,
                    upload.url req = config.WebhookURL (upload.cfg u)
                    ∧ Some (upload.payload req) = Some binData
                    ∧ (Some metaBytes ≫= upload.json_Unmarshal_meta)
                      = Some (upload.metadata req)) new).
  { eapply Forall_impl; [exact Hall|]. simpl.
    intros req (? & -> & -> & _). by rewrite Hmeta. }
  destruct (upload.attempts env u _ meta binData _ 1 status w)
    as [w1 [status1|]]; cbn [fst snd] in *.
  - set (failed := upload.mkUploadStatus _ "failed" _ _ _ _).
    destruct (saveStatus_files (upload.failed_write env)
                (basePath +:+ ".upload.json") failed w1)
      as (_ & Hq2 & Hd2 & Hs2).
    split; [intros q Hne; by rewrite Hq2, Hq|]. split; [by rewrite Hd2|].
    exists new. by rewrite Hs2.
  - split; [done|]. split; [done|]. by exists new.
Qed.

(** One iteration of the retry loop. *)
Lemma attempts_S env u sp meta binData remaining attempt status w :
  upload.attempts env u sp meta binData (S remaining) attempt status w
  = match upload.upload u (upload.respond env attempt) meta binData w with
    | (w1, None) =>
        (upload.saveStatus (upload.status_write env attempt) sp
           (upload.mkUploadStatus (upload.JobID status) "uploaded" attempt
              (upload.now_attempt env attempt) (upload.LastError status)
              (upload.now_uploaded env)) w1, None)
    | (w1, Some err) =>
        let status2 :=
          upload.mkUploadStatus (upload.JobID status) (upload.Status status)
            attempt (upload.now_attempt env attempt) err
            (upload.UploadedAt status) in
        let w2 := upload.saveStatus (upload.status_write env attempt) sp
                    status2 w1 in
        if (attempt <? config.MaxRetries (upload.cfg u))
           && upload.done_in_backoff env attempt
        then (w2, None)
        else upload.attempts env u sp meta binData remaining (attempt + 1)
               status2 w2
    end.
Proof. done. Qed.

(** The retry loop when attempt [k] is the first to succeed. *)
Lemma attempts_success env u sp meta binData k :
  spec.succeeds (upload.respond env k) = true →
  upload.status_write env k = WriteDone →
  ∀ remaining attempt status w,
    attempt <= k → k < attempt + Z.of_nat remaining →
    (∀ i, attempt <= i < k →
          spec.succeeds (upload.respond env i) = false
          ∧ upload.done_in_backoff env i = false) →
    ∃ w' lastErr,
      upload.attempts env u sp meta binData remaining attempt status w
      = (w', None)
      ∧ files (upload.fs w') !! sp
        = Some (upload.json_MarshalIndent_status
                  (upload.mkUploadStatus (upload.JobID status) "uploaded" k
                     (upload.now_attempt env k) lastErr
                     (upload.now_uploaded env))).
Proof.
  intros Hok Hwrite. induction remaining as [|remaining IH];
    intros attempt status w Hle Hlt Hfail; [lia|].
  rewrite attempts_S.
  destruct (upload.upload u (upload.respond env attempt) meta binData w)
    as [w1 [err|]] eqn:Hup.
  - assert (Hne : attempt ≠ k).
    { intros ->.
      pose proof (proj2 (upload_result u _ meta binData w) Hok) as Hn.
      by rewrite Hup in Hn. }
    destruct (Hfail attempt) as (_ & Hd); [lia|].
    cbv zeta. rewrite Hd, andb_false_r.
    set (status2 := upload.mkUploadStatus _ _ attempt _ err _).
    destruct (IH (attempt + 1) status2 (upload.saveStatus (upload.status_write env attempt) sp status2 w1))
      as (w' & lastErr & Hat & Hfile); [lia|lia|intros i Hi; apply Hfail; lia|].
    exists w', lastErr. by rewrite Hat.
  - assert (attempt = k) as ->.
    { destruct (decide (attempt = k)) as [|Hne]; [done|].
      destruct (Hfail attempt) as (Hno & _); [lia|].
      assert ((upload.upload u (upload.respond env attempt) meta binData w).2
              = None) as Hn by by rewrite Hup.
      apply upload_result in Hn. congruence. }
    eexists _, _. split; [reflexivity|]. by apply saveStatus_files.
Qed.

(** The retry loop when every attempt fails and [done] stays open. *)
Lemma attempts_exhausted env u sp meta binData :
  ∀ remaining attempt status w,
    Z.of_nat (S remaining) = config.MaxRetries (upload.cfg u) - attempt + 1 →
    (∀ i, attempt <= i <= config.MaxRetries (upload.cfg u) →
          spec.succeeds (upload.respond env i) = false) →
    (∀ i, attempt <= i < config.MaxRetries (upload.cfg u) →
          upload.done_in_backoff env i = false) →
    ∃ w' lastErr,
      upload.attempts env u sp meta binData (S remaining) attempt status w
      = (w', Some (upload.mkUploadStatus (upload.JobID status)
                     (upload.Status status) (config.MaxRetries (upload.cfg u))
                     (upload.now_attempt env (config.MaxRetries (upload.cfg u)))
                     lastErr (upload.UploadedAt status))).
Proof.
  induction remaining as [|remaining IH]; intros attempt status w Hn Hfail Hdone.
  - rewrite attempts_S.
    destruct (upload.upload u (upload.respond env attempt) meta binData w)
      as [w1 [err|]] eqn:Hup.
    + assert (attempt = config.MaxRetries (upload.cfg u)) as Heq by lia.
      cbv zeta. rewrite <- Heq, Z.ltb_irrefl. simpl. by eexists _, err.
    + assert ((upload.upload u (upload.respond env attempt) meta binData w).2
              = None) as Hnone by by rewrite Hup.
      apply upload_result in Hnone. rewrite Hfail in Hnone by lia. done.
  - rewrite attempts_S.
    destruct (upload.upload u (upload.respond env attempt) meta binData w)
      as [w1 [err|]] eqn:Hup.
    + cbv zeta. rewrite Hdone by lia. rewrite andb_false_r.
      set (status2 := upload.mkUploadStatus _ _ attempt _ err _).
      destruct (IH (attempt + 1) status2 (upload.saveStatus (upload.status_write env attempt) sp status2 w1))
        as (w' & lastErr & Hat);
        [lia|intros; apply Hfail; lia|intros; apply Hdone; lia|].
      exists w', lastErr. by rewrite Hat.
    + assert ((upload.upload u (upload.respond env attempt) meta binData w).2
              = None) as Hnone by by rewrite Hup.
      apply upload_result in Hnone. rewrite Hfail in Hnone by lia. done.
Qed.

End UploadMore.

Section ProcessJob.

Context `{C : upload.Codec}.
Variables (env : upload.Env) (u : upload.Uploader) (basePath : string)
  (w : upload.World) (metaBytes : bytes) (meta : job.Metadata)
  (binData : bytes).

Local Abbreviation sidecar := (basePath +:+ ".upload.json").
Local Abbreviation status0 :=
  (upload.loadOrCreateStatus w (basePath +:+ ".upload.json")
     (upload.Base basePath)).
Local Abbreviation retries := (config.MaxRetries (upload.cfg u)).

Hypothesis Hjson :
  os_ReadFile (basePath +:+ ".json") (upload.fs w) = Some metaBytes.
Hypothesis Hmeta : upload.json_Unmarshal_meta metaBytes = Some meta.
Hypothesis Hbin :
  os_ReadFile (basePath +:+ ".bin") (upload.fs w) = Some binData.
Hypothesis Hpending : upload.Status status0 ≠ "uploaded".

(** With its inputs readable and the sidecar not "uploaded",
    [processJob] is the retry loop followed by the "failed" mark. *)
Lemma processJob_runs :
  upload.processJob env u basePath w
  = match upload.attempts env u sidecar meta binData (Z.to_nat retries) 1
            status0 w with
    | (w1, None) => w1
    | (w1, Some status1) =>
        upload.saveStatus (upload.failed_write env) sidecar
          (upload.mkUploadStatus (upload.JobID status1) "failed"
             (upload.Attempts status1) (upload.LastAttempt status1)
             (upload.LastError status1) (upload.UploadedAt status1)) w1
    end.
Proof.
  unfold upload.processJob.
  apply String.eqb_neq in Hpending. rewrite Hpending.
  by rewrite Hjson, Hmeta, Hbin.
Qed.

Lemma processJob_success_file k :
  1 <= k <= retries →
  (∀ i, 1 <= i < k → spec.succeeds (upload.respond env i) = false
                     ∧ upload.done_in_backoff env i = false) →
  spec.succeeds (upload.respond env k) = true →
  upload.status_write env k = WriteDone →
  ∃ lastErr,
    files (upload.fs (upload.processJob env u basePath w)) !! sidecar
    = Some (upload.json_MarshalIndent_status
              (upload.mkUploadStatus (upload.JobID status0) "uploaded" k
                 (upload.now_attempt env k) lastErr (upload.now_uploaded env))).
Proof.
  intros Hk Hfail Hok Hwrite. rewrite processJob_runs.
  destruct (attempts_success env u sidecar meta binData k Hok Hwrite
              (Z.to_nat retries) 1 status0 w)
    as (w' & lastErr & Hat & Hfile); [lia|lia|done|].
  rewrite Hat. by exists lastErr.
Qed.

(** X24: when attempt [k] is the first to get a 2xx answer, [done] stays
    open during the back-offs before it, and the sidecar write of that
    attempt succeeds, the sidecar ends as "uploaded" with [attempts = k],
    the time of that attempt and the upload time. *)
Theorem processJob_uploads_at_first_success k :
  1 <= k <= retries →
  (∀ i, 1 <= i < k → spec.succeeds (upload.respond env i) = false
                     ∧ upload.done_in_backoff env i = false) →
  spec.succeeds (upload.respond env k) = true →
  upload.status_write env k = WriteDone →
  ∃ lastErr,
    files (upload.fs (upload.processJob env u basePath w)) !! sidecar
    = Some (upload.json_MarshalIndent_status
              (upload.mkUploadStatus (upload.JobID status0) "uploaded" k
                 (upload.now_attempt env k) lastErr (upload.now_uploaded env))).
Proof. apply processJob_success_file. Qed.

(** X25: when every one of the [max_retries >= 1] attempts fails, [done]
    stays open, and the write that marks the job failed succeeds, the
    sidecar ends as "failed" with [attempts = max_retries] and the time
    of the last attempt. *)
Theorem processJob_gives_up_after_max_retries :
  1 <= retries →
  (∀ i, 1 <= i <= retries → spec.succeeds (upload.respond env i) = false) →
  (∀ i, 1 <= i < retries → upload.done_in_backoff env i = false) →
  upload.failed_write env = WriteDone →
  ∃ lastErr,
    files (upload.fs (upload.processJob env u basePath w)) !! sidecar
    = Some (upload.json_MarshalIndent_status
              (upload.mkUploadStatus (upload.JobID status0) "failed" retries
                 (upload.now_attempt env retries) lastErr
                 (upload.UploadedAt status0))).
Proof.
  intros Hn Hfail Hdone Hwrite. rewrite processJob_runs.
  destruct (Z.to_nat retries) as [|remaining] eqn:Hr; [lia|].
  destruct (attempts_exhausted env u sidecar meta binData remaining 1 status0 w)
    as (w' & lastErr & Hat); [lia|done|done|].
  rewrite Hat. exists lastErr. by apply saveStatus_files.
Qed.


(** X27: when the first attempt fails and [done] is closed during the
    back-off that follows, [processJob] returns without marking the job
    failed and at most one request was sent; when the sidecar write of
    that attempt succeeded, the sidecar keeps its status and records one
    attempt and its error. *)
Theorem processJob_cancelled_in_backoff err :
  1 < retries →
  (upload.upload u (upload.respond env 1) meta binData w).2 = Some err →
  upload.done_in_backoff env 1 = true →
  let w' := upload.processJob env u basePath w in
  w' = upload.saveStatus (upload.status_write env 1) sidecar
         (upload.mkUploadStatus (upload.JobID status0)
            (upload.Status status0) 1 (upload.now_attempt env 1) err
            (upload.UploadedAt status0))
         (upload.upload u (upload.respond env 1) meta binData w).1
  ∧ (upload.status_write env 1 = WriteDone →
     files (upload.fs w') !! sidecar
     = Some (upload.json_MarshalIndent_status
               (upload.mkUploadStatus (upload.JobID status0)
                  (upload.Status status0) 1 (upload.now_attempt env 1) err
                  (upload.UploadedAt status0))))
  ∧ (length (upload.sent w') ≤ length (upload.sent w) + 1)%nat.
Proof.
  intros Hn Herr Hdone w'. unfold w'. rewrite processJob_runs.
  destruct (Z.to_nat retries) as [|remaining] eqn:Hr; [lia|].
  rewrite attempts_S.
  destruct (upload_world u (upload.respond env 1) meta binData w)
    as (_ & new & Hsent & Hlen & _).
  destruct (upload.upload u (upload.respond env 1) meta binData w)
    as [w1 [e|]] eqn:Hup; [|done].
  cbn [fst snd] in *. injection Herr as ->.
  cbv zeta. rewrite Hdone.
  assert ((1 <? retries) = true) as -> by by apply Z.ltb_lt.
  cbn [andb].
  split; [done|]. split; [intros Hwrite; by apply saveStatus_files|].
  destruct (saveStatus_files (upload.status_write env 1) sidecar
              (upload.mkUploadStatus (upload.JobID status0)
                 (upload.Status status0) 1 (upload.now_attempt env 1) err
                 (upload.UploadedAt status0)) w1) as (_ & _ & _ & ->).
  rewrite Hsent, length_app. lia.
Qed.


End ProcessJob.

(** ** The uploader: the queue and the startup scan *)

Section ScanMore.

Context `{C : upload.Codec}.
Implicit Types (w : upload.World) (u : upload.Uploader)
  (e : upload.WalkEntry) (entries : list upload.WalkEntry).

(** [processJob] does nothing at all when the job's metadata file
    is missing or does not parse, or when its payload file is missing:
    no request is sent and no sidecar is written. *)
Lemma processJob_needs_both_files env u basePath w :
  os_ReadFile (basePath +:+ ".json") (upload.fs w) = None
  ∨ (os_ReadFile (basePath +:+ ".json") (upload.fs w)
     ≫= upload.json_Unmarshal_meta) = None
  ∨ os_ReadFile (basePath +:+ ".bin") (upload.fs w) = None →
  upload.processJob env u basePath w = w.
Proof.
  intros Hcase. unfold upload.processJob.
  destruct (String.eqb _ "uploaded"); [done|].
  destruct (os_ReadFile (basePath +:+ ".json") (upload.fs w))
    as [metaBytes|]; [|done]. simpl in Hcase.
  destruct (upload.json_Unmarshal_meta metaBytes) as [meta|]; [|done].
  destruct (os_ReadFile (basePath +:+ ".bin") (upload.fs w)); [|done].
  by destruct Hcase as [?|[?|?]].
Qed.

(** A sidecar written by [saveStatus] is what [loadOrCreateStatus]
    reads back when the codec round-trips; a missing sidecar, or one
    that does not parse, reads as a fresh "pending" status with no
    attempts for the given job. *)
Lemma sidecar_round_trip w path jobID st :
  (upload.json_Unmarshal_status (upload.json_MarshalIndent_status st) = Some st →
   upload.loadOrCreateStatus (upload.saveStatus WriteDone path st w) path jobID
   = st)
  ∧ (os_ReadFile path (upload.fs w) ≫= upload.json_Unmarshal_status = None →
     upload.loadOrCreateStatus w path jobID
     = upload.mkUploadStatus jobID "pending" 0 zeroTime "" zeroTime).
Proof.
  split.
  - intros Hround. eapply loadOrCreateStatus_found; [|exact Hround].
    by apply saveStatus_files.
  - unfold upload.loadOrCreateStatus.
    destruct (os_ReadFile path (upload.fs w)) as [data|]; [|done]. simpl.
    by intros ->.
Qed.

Lemma Enqueue_cases u jobPath :
  upload.cfg (upload.Enqueue u jobPath) = upload.cfg u
  ∧ upload.basePath (upload.Enqueue u jobPath) = upload.basePath u
  ∧ ((upload.Enqueue u jobPath = u
      ∧ (config.Enabled (upload.cfg u) = false
         ∨ upload.queueCap <= len (upload.queue u)))
     ∨ (upload.queue (upload.Enqueue u jobPath) = upload.queue u ++ [jobPath]
        ∧ upload.queueSize (upload.Enqueue u jobPath)
          = atomic_Add (upload.queueSize u) 1
        ∧ config.Enabled (upload.cfg u) = true
        ∧ len (upload.queue u) < upload.queueCap)).
Proof.
  unfold upload.Enqueue. destruct (config.Enabled (upload.cfg u)); simpl.
  - destruct (Z.ltb_spec (len (upload.queue u)) upload.queueCap); simpl.
    + split; [done|]. split; [done|]. by right.
    + split; [done|]. split; [done|]. left. split; [done|]. by right.
  - split; [done|]. split; [done|]. left. split; [done|]. by left.
Qed.

(** [Enqueue] never blocks and never grows the queue beyond its
    capacity of 1000: with the uploader disabled or the queue full the
    path is dropped and nothing changes; otherwise the path goes to the
    back of the queue and the size counter is incremented. *)
Lemma Enqueue_bounded u jobPath :
  len (upload.queue u) <= upload.queueCap →
  let u' := upload.Enqueue u jobPath in
  len (upload.queue u') <= upload.queueCap
  ∧ (config.Enabled (upload.cfg u) = false
     ∨ len (upload.queue u) = upload.queueCap → u' = u)
  ∧ (config.Enabled (upload.cfg u) = true →
     len (upload.queue u) < upload.queueCap →
     upload.queue u' = upload.queue u ++ [jobPath]
     ∧ upload.queueSize u' = atomic_Add (upload.queueSize u) 1).
Proof.
  intros Hcap u'. unfold u'.
  destruct (Enqueue_cases u jobPath) as (_ & _ & [[Heq Hwhy]|(Hq & Hs & Hen & Hlt)]).
  - rewrite Heq. split; [done|]. split; [done|].
    intros Hen Hlt. destruct Hwhy as [?|?]; [congruence|lia].
  - split; [rewrite Hq; unfold len in *; rewrite length_app; simpl; lia|].
    split; [|done]. intros [?|?]; [congruence|lia].
Qed.

Lemma visit_needs_upload w u e :
  upload.walkErr e = false →
  upload.visit w u e
  = match spec.needs_upload w e with
    | Some base => upload.Enqueue u base
    | None => u
    end.
Proof.
  intros Herr. unfold upload.visit, spec.needs_upload. rewrite Herr. simpl.
  destruct (negb (upload.isDir e)); simpl; [|done].
  destruct (upload.HasSuffix (upload.path e) ".json"); simpl; [|done].
  destruct (negb (upload.HasSuffix (upload.path e) ".upload.json")); simpl;
    [|done].
  by destruct (negb (String.eqb _ "uploaded")).
Qed.

(** The scan only appends to the queue, keeps it within capacity, and
    everything it appends is the base path of an entry that needs
    uploading. *)
Lemma scanPending_sound done_at w entries :
  ∀ i u, len (upload.queue u) <= upload.queueCap →
    let u' := upload.scanPending done_at i w u entries in
    len (upload.queue u') <= upload.queueCap
    ∧ upload.cfg u' = upload.cfg u
    ∧ ∃ added, upload.queue u' = upload.queue u ++ added
               ∧ Forall (λ base, ∃ e, e ∈ entries
                                      ∧ spec.needs_upload w e = Some base)
                   added.
Proof.
  induction entries as [|e entries IH]; intros i u Hcap.
  - simpl. split; [done|]. split; [done|]. exists []. by rewrite app_nil_r.
  - assert (Hmono : ∀ added,
              Forall (λ base, ∃ e0, e0 ∈ entries
                                    ∧ spec.needs_upload w e0 = Some base) added →
              Forall (λ base, ∃ e0, e0 ∈ e :: entries
                                    ∧ spec.needs_upload w e0 = Some base) added).
    { intros added Hadded. eapply Forall_impl; [exact Hadded|].
      intros base (e0 & Hin & Hn). exists e0. split; [by right|done]. }
    cbn [upload.scanPending]. destruct (upload.walkErr e) eqn:Herr.
    { destruct (IH (S i) u Hcap) as (Hc & Hcfg & added & Hq & Hall).
      split; [done|]. split; [done|]. exists added. split; [done|].
      by apply Hmono. }
    destruct (done_at i).
    { split; [done|]. split; [done|]. exists []. by rewrite app_nil_r. }
    rewrite visit_needs_upload by done.
    destruct (spec.needs_upload w e) as [base|] eqn:Hneed.
    + destruct (Enqueue_cases u base)
        as (Hcfg0 & _ & [[Heq _]|(Hq0 & _ & _ & Hlt)]).
      * rewrite Heq. destruct (IH (S i) u Hcap) as (Hc & Hcfg & added & Hq & Hall).
        split; [done|]. split; [done|]. exists added. split; [done|].
        by apply Hmono.
      * destruct (IH (S i) (upload.Enqueue u base))
          as (Hc & Hcfg & added & Hq & Hall).
        { rewrite Hq0. unfold len in *. rewrite length_app. simpl. lia. }
        split; [done|]. split; [by rewrite Hcfg|].
        exists (base :: added). rewrite Hq, Hq0, <- app_assoc.
        split; [done|]. constructor; [|by apply Hmono].
        exists e. split; [by left|done].
    + destruct (IH (S i) u Hcap) as (Hc & Hcfg & added & Hq & Hall).
      split; [done|]. split; [done|]. exists added. split; [done|].
      by apply Hmono.
Qed.

(** X29: the startup scan only ever appends to the queue and keeps it
    within its capacity; every path it appends is the base path of a
    visited regular file [<base>.json] that is not a sidecar and whose
    sidecar does not say "uploaded".  Sidecar files, directories and
    entries the walk could not read are never enqueued. *)
Theorem scanPending_enqueues_only_pending done_at w u entries :
  len (upload.queue u) <= upload.queueCap →
  let u' := upload.scanPending done_at 0 w u entries in
  len (upload.queue u') <= upload.queueCap
  ∧ ∃ added,
      upload.queue u' = upload.queue u ++ added
      ∧ ∀ base, base ∈ added →
          ∃ e, e ∈ entries
               ∧ upload.walkErr e = false ∧ upload.isDir e = false
               ∧ upload.HasSuffix (upload.path e) ".json" = true
               ∧ upload.HasSuffix (upload.path e) ".upload.json" = false
               ∧ base = upload.TrimSuffix (upload.path e) ".json"
               ∧ upload.Status
                   (upload.loadOrCreateStatus w (base +:+ ".upload.json")
                      (upload.Base base)) ≠ "uploaded".
Proof.
  intros Hcap u'.
  destruct (scanPending_sound done_at w entries 0 u Hcap)
    as (Hc & _ & added & Hq & Hall).
  split; [done|]. exists added. split; [done|].
  intros base Hin. rewrite Forall_forall in Hall.
  destruct (Hall base Hin) as (e & He & Hneed). exists e. split; [done|].
  unfold spec.needs_upload in Hneed.
  destruct (upload.walkErr e); [done|].
  destruct (upload.isDir e); [done|].
  destruct (upload.HasSuffix (upload.path e) ".json"); [|done].
  destruct (upload.HasSuffix (upload.path e) ".upload.json"); [done|].
  simpl in Hneed.
  destruct (String.eqb _ "uploaded") eqn:Hst; [done|].
  simpl in Hneed. injection Hneed as <-.
  repeat split; try done. by apply String.eqb_neq.
Qed.

(** X30: with the uploader enabled, [done] open, and room in the queue
    for every entry, the scan appends exactly the base paths of the
    entries that need uploading, in the order of the walk. *)
Theorem scanPending_enqueues_all_pending done_at w u entries :
  config.Enabled (upload.cfg u) = true →
  (∀ i, done_at i = false) →
  len (upload.queue u) + len entries <= upload.queueCap →
  Forall (λ e, upload.walkErr e = false) entries →
  upload.queue (upload.scanPending done_at 0 w u entries)
  = upload.queue u ++ omap (spec.needs_upload w) entries.
Proof.
  intros Hen Hdone. generalize 0%nat as i. revert u Hen.
  induction entries as [|e entries IH]; intros u Hen i Hroom Herr.
  - simpl. by rewrite app_nil_r.
  - apply Forall_cons in Herr as [He Herr].
    assert (Hlen : len (e :: entries) = 1 + len entries)
      by (unfold len; simpl; lia).
    assert (Hpos : 0 <= len entries) by (unfold len; lia).
    cbn [upload.scanPending]. rewrite He, Hdone, visit_needs_upload by done.
    cbn [omap list_omap]. destruct (spec.needs_upload w e) as [base|].
    + destruct (Enqueue_cases u base)
        as (Hcfg0 & _ & [[_ [?|?]]|(Hq0 & _ & _ & _)]); [congruence|lia|].
      rewrite IH; [by rewrite Hq0, <- app_assoc|by rewrite Hcfg0| |done].
      assert (len (upload.queue u ++ [base]) = len (upload.queue u) + 1)
        by (unfold len; rewrite length_app; simpl; lia).
      rewrite Hq0. lia.
    + apply IH; [done|lia|done].
Qed.

End ScanMore.

(** ** Worked examples for the further properties *)

Section ExamplesMore.

Import examples.

Lemma capturer_keys_covered :
  ∀ k, is_Some (capture.sessions capturer !! k) → k ∈ [key].
Proof.
  intros k [s Hs]. unfold capturer in Hs. simpl in Hs.
  apply lookup_singleton_Some in Hs as [<- _]. by left.
Qed.

Ltac by_computation := vm_compute; repeat split; discriminate || reflexivity.

(** X1 on a new job and two chunks. *)
Lemma Close_seals_appended_payload_witness :
  job.Data
    (@job.Close libs 2000
       (spec.append_all open_job [[Byte.x20]; [Byte.x34; Byte.x32]]))
  = order_text ++ [Byte.x20; Byte.x34; Byte.x32].
Proof.
  destruct (@Close_seals_appended_payload libs 2000 open_job
              [[Byte.x20]; [Byte.x34; Byte.x32]] eq_refl) as (Hd & _).
  exact Hd.
Defined.

(** X4 when the fsync fails: with the clean-up taking effect, and with
    the clean-up refused. *)
Lemma writeFileAtomic_all_or_nothing_witness :
  files (job.writeFileAtomic job.WSync false "a.tmp" "a" [Byte.x01] fs0).1
    !! "a.tmp" = None
  ∧ ∃ left,
      files (job.writeFileAtomic job.WSync true "a.tmp" "a" [Byte.x01] fs0).1
        !! "a.tmp" = Some left
      ∧ left `prefix_of` [Byte.x01].
Proof.
  split.
  - destruct (writeFileAtomic_all_or_nothing job.WSync false "a.tmp" "a"
                [Byte.x01] fs0) as (_ & _ & Hgone & _); [discriminate|].
    apply Hgone. right. split; [discriminate|reflexivity].
  - destruct (writeFileAtomic_all_or_nothing job.WSync true "a.tmp" "a"
                [Byte.x01] fs0) as (_ & _ & _ & Hleft & _); [discriminate|].
    apply Hleft; [discriminate | discriminate | reflexivity].
Defined.

(** X5 at the stored example job. *)
Lemma Save_success_effect_witness :
  files (@job.Save libs store sys_ok closed_job fs0).1 !! (job_base +:+ ".bin")
  = Some order_text.
Proof.
  destruct (@Save_success_effect libs store sys_ok closed_job fs0)
    as (Hbin & _); [by_computation|].
  exact Hbin.
Defined.

(** X6 at the stored example job. *)
Lemma saved_payload_matches_metadata_witness :
  ∃ payload,
    files (@job.Save libs store sys_ok closed_job fs0).1
      !! (job_base +:+ ".bin") = Some payload
    ∧ len payload = 5.
Proof.
  destruct (@saved_payload_matches_metadata libs store sys_ok closed_job fs0)
    as (payload & Hfile & Hlen & _);
    [intros _; split; reflexivity | by_computation |].
  exists payload. split; [exact Hfile|exact Hlen].
Defined.

(** X7 when the rename of the metadata file fails and the unlink of the
    payload file is refused. *)
Lemma Save_error_frame_witness :
  files (@job.Save libs store sys_unlink_refused closed_job fs0).1
    !! (job_base +:+ ".bin") = Some order_text.
Proof.
  destruct (@Save_error_frame libs store sys_unlink_refused closed_job fs0
              job.ErrWriteMetadata) as (_ & Hbin & _); [by_computation|].
  exact (Hbin (or_intror eq_refl)).
Defined.

(** X8 with [min_free_mb = -1] and 1 GiB free. *)
Lemma negative_min_free_mb_refuses_every_save_witness :
  @job.Save libs store_negative sys_ok closed_job fs0
  = (fs0, Some (job.ErrDiskSpace (-1))).
Proof.
  apply (@negative_min_free_mb_refuses_every_save libs store_negative sys_ok
           262144 4096 closed_job fs0); by_computation.
Defined.

(** X10 on a detector with two records of one payload, swept 601 s
    after the first and 101 s after the second: the sweep drops the
    first record and keeps the second, which [Check] still finds. *)
Lemma cleanup_preserves_Check_witness :
  job.hashes (job.cleanup 601000001000 rd_twice) !! "len5:111"
  = Some [job.mkHashEntry "job-9" "192.168.1.50" 500000000000]
  ∧ job.Check 601000001000 (job.cleanup 601000001000 rd_twice)
      "len5:111" "192.168.1.50"
    = job.Check 601000001000 rd_twice "len5:111" "192.168.1.50".
Proof.
  split; [by_computation|].
  apply (cleanup_preserves_Check 601000001000 601000001000 rd_twice);
    by_computation.
Defined.

(** X11: a data segment of a flow whose SYN was not seen. *)
Lemma handlePacket_without_session_witness :
  @capture.handlePacket libs env_ok capturer_empty fresh_segment fs0
  = (capturer_empty, fs0).
Proof.
  apply (@handlePacket_without_session libs env_ok capturer_empty fresh_segment
           fs0 "192.168.1.10" "192.168.1.50"
           (capture.mkTCP 44321 9100 false false false 7006));
    [by left | reflexivity | by_computation | right; by left].
Defined.

(** X12: a reply of the printer on an open session. *)
Lemma handlePacket_ignores_replies_witness :
  @capture.handlePacket libs env_ok capturer (reply false) fs0 = (capturer, fs0).
Proof.
  apply (@handlePacket_ignores_replies libs env_ok capturer (reply false) fs0
           (capture.mkTCP 9100 44321 false false false 1)); reflexivity.
Defined.


(** X14 at the open example session. *)
Lemma finalize_counts_the_outcome_witness :
  capture.JobsCaptured
    (capture.stats
       (@capture.finalizeSession libs env_ok capturer sess_open fs0).1.1)
  = atomic_Add 0 1.
Proof.
  destruct (@finalize_counts_the_outcome libs env_ok capturer sess_open fs0)
    as (_ & _ & _ & Hjobs & _); [by_computation|].
  rewrite Hjobs. by_computation.
Defined.

(** X16: the same fresh segment handled twice. *)
Lemma retransmission_is_absorbed_witness :
  capture.stats
    (@capture.handlePacket libs env_later
       (@capture.handlePacket libs env_ok capturer fresh_segment fs0).1
       fresh_segment
       (@capture.handlePacket libs env_ok capturer fresh_segment fs0).2).1
  = capture.stats
      (@capture.handlePacket libs env_ok capturer fresh_segment fs0).1.
Proof.
  destruct (@retransmission_is_absorbed libs env_ok env_later capturer
              fresh_segment fs0 "192.168.1.10" "192.168.1.50"
              (capture.mkTCP 44321 9100 false false false 7006)
              [Byte.x0a] sess_open)
    as (_ & Hstats & _);
    [by left | reflexivity | reflexivity | reflexivity | reflexivity
    | reflexivity | discriminate | by_computation | reflexivity |].
  exact Hstats.
Defined.

(** X17: one second after the example session was last seen it is idle
    for a timeout of 800 ms, and the sweep removes it. *)
Lemma checkTimeouts_removes_idle_sessions_witness :
  capture.sessions
    (@capture.checkTimeouts libs 1000001000 (λ _, env_ok) [key] capturer fs0).1
    !! key = None.
Proof.
  destruct (@checkTimeouts_removes_idle_sessions libs 1000001000 (λ _, env_ok)
              [key] capturer fs0 capturer_keys_covered) as (Hs & _).
  destruct (capture.sessions
              (@capture.checkTimeouts libs 1000001000 (λ _, env_ok) [key]
                 capturer fs0).1 !! key) as [s|] eqn:Hk; [|reflexivity].
  apply Hs in Hk as [Hin Hidle].
  vm_compute in Hin. injection Hin as <-.
  vm_compute in Hidle. discriminate.
Defined.

(** X18: two sweeps one second after the session was last seen. *)
Lemma checkTimeouts_is_idempotent_witness :
  let r := @capture.checkTimeouts libs 1000001000 (λ _, env_ok) [key]
             capturer fs0 in
  @capture.checkTimeouts libs 1000001000 (λ _, env_later) [key] r.1 r.2 = r.
Proof.
  apply (@checkTimeouts_is_idempotent libs 1000001000 (λ _, env_ok)
           (λ _, env_later) [key] [key] capturer fs0 capturer_keys_covered).
Defined.

(** X19: shutdown with the example session open: the table is empty
    afterwards and the session's job is on disk. *)
Lemma Stop_leaves_no_session_witness :
  capture.sessions (@capture.Stop libs (λ _, env_ok) [key] capturer fs0).1 = ∅
  ∧ files (@capture.Stop libs (λ _, env_ok) [key] capturer fs0).2
      !! (job_base +:+ ".bin") = Some order_text.
Proof.
  destruct (@Stop_leaves_no_session libs (λ _, env_ok) [key] capturer fs0
              (NoDup_singleton key) capturer_keys_covered)
    as (Hs & _ & _ & _ & Hfs & _).
  split; [exact Hs|]. rewrite Hfs. by_computation.
Defined.

(** X20: the same order printed twice, one microsecond apart. *)
Lemma second_identical_job_is_reprint_witness :
  let rA := @capture.finalizeSession libs env_ok capturer sess_open fs0 in
  let rB := @capture.finalizeSession libs env_later rA.1.1 sess_twin rA.2 in
  job.ReprintOfJobID (job.Meta (capture.job rB.1.2)) = "job-1".
Proof.
  pose proof (@second_identical_job_is_reprint libs env_ok env_later capturer
                sess_open sess_twin fs0 (job.NewReprintDetector 300)
                eq_refl eq_refl eq_refl eq_refl) as H.
  cbv zeta in H.
  assert (Hwithin : (time_Sub (capture.now_check env_later)
                       (capture.now_record env_ok)
                     <=? job.window (job.NewReprintDetector 300)) = true)
    by by_computation.
  rewrite Hwithin in H.
  destruct H as (Hid & _); [discriminate|reflexivity|discriminate|reflexivity|].
  exact Hid.
Defined.

Lemma pending_is_not_uploaded :
  upload.Status
    (@upload.loadOrCreateStatus codec (world_with_sidecar "pending")
       (job_base +:+ ".upload.json") (upload.Base job_base)) ≠ "uploaded".
Proof. intros Heq. vm_compute in Heq. discriminate. Qed.

(** X24: the webhook accepts the first attempt. *)
Lemma processJob_uploads_at_first_success_witness :
  ∃ lastErr,
    files (upload.fs (@upload.processJob codec env_webhook_up uploader job_base
                        (world_with_sidecar "pending")))
      !! (job_base +:+ ".upload.json")
    = Some (@upload.json_MarshalIndent_status codec
              (upload.mkUploadStatus "job-1" "uploaded" 1 4001 lastErr 5000)).
Proof.
  destruct (@processJob_uploads_at_first_success codec env_webhook_up uploader
              job_base (world_with_sidecar "pending") [Byte.x7b; Byte.x7d]
              (job.Meta closed_job) order_text eq_refl eq_refl eq_refl
              pending_is_not_uploaded 1)
    as (lastErr & Hfile);
    [by_computation | intros i Hi; lia | reflexivity | reflexivity |].
  exists lastErr. exact Hfile.
Defined.

(** X25: the webhook answers 500 to all three attempts. *)
Lemma processJob_gives_up_after_max_retries_witness :
  ∃ lastErr,
    files (upload.fs (@upload.processJob codec env_webhook_down uploader
                        job_base (world_with_sidecar "pending")))
      !! (job_base +:+ ".upload.json")
    = Some (@upload.json_MarshalIndent_status codec
              (upload.mkUploadStatus "job-1" "failed" 3 4003 lastErr 0)).
Proof.
  destruct (@processJob_gives_up_after_max_retries codec env_webhook_down
              uploader job_base (world_with_sidecar "pending")
              [Byte.x7b; Byte.x7d] (job.Meta closed_job) order_text
              eq_refl eq_refl eq_refl pending_is_not_uploaded)
    as (lastErr & Hfile);
    [by_computation | intros i Hi; reflexivity | intros i Hi; reflexivity
    | reflexivity |].
  exists lastErr. exact Hfile.
Defined.


(** X27: shutdown during the back-off after the first failed attempt. *)
Lemma processJob_cancelled_in_backoff_witness :
  (length (upload.sent (@upload.processJob codec env_shutdown uploader job_base
                          (world_with_sidecar "pending")))
   ≤ length (upload.sent (world_with_sidecar "pending")) + 1)%nat.
Proof.
  destruct (@processJob_cancelled_in_backoff codec env_shutdown uploader
              job_base (world_with_sidecar "pending") [Byte.x7b; Byte.x7d]
              (job.Meta closed_job) order_text eq_refl eq_refl eq_refl
              pending_is_not_uploaded
              "upload failed: status 500, body: busy")
    as (_ & _ & Hsent); [by_computation | reflexivity | reflexivity |].
  exact Hsent.
Defined.



(** When the sidecar cannot be written after a 200, the record of the
    upload is lost and the next processing of the job sends it again. *)
Lemma unwritten_sidecar_repeats_upload :
  let w' := @upload.processJob codec env_sidecar_refused uploader job_base
              (world_with_sidecar "pending") in
  length (upload.sent w') = 1%nat
  ∧ length (upload.sent
              (@upload.processJob codec env_webhook_up uploader job_base w'))
    = 2%nat.
Proof. vm_compute. split; reflexivity. Qed.

(** X29 and X30 on the walk over the stored job with a pending sidecar. *)
Lemma scanPending_enqueues_only_pending_witness :
  len (upload.queue
         (@upload.scanPending codec (λ _, false) 0
            (world_with_sidecar "pending") uploader walk))
  <= upload.queueCap.
Proof.
  destruct (@scanPending_enqueues_only_pending codec (λ _, false)
              (world_with_sidecar "pending") uploader walk)
    as (Hcap & _); [by_computation|].
  exact Hcap.
Defined.

Lemma scanPending_enqueues_all_pending_witness :
  upload.queue
    (@upload.scanPending codec (λ _, false) 0 (world_with_sidecar "pending")
       uploader walk)
  = [job_base].
Proof.
  rewrite (@scanPending_enqueues_all_pending codec (λ _, false)
             (world_with_sidecar "pending") uploader walk);
    [reflexivity | reflexivity | intros i; reflexivity | by_computation
    | repeat constructor].
Defined.

End ExamplesMore.
